(** * A shallow embedding of the rtcrs STUN, ICE and SDP crates *)

From Stdlib Require Import ZArith List Lia Bool.
From Stdlib Require Import Init.Byte Strings.Byte.
Import ListNotations.
Open Scope Z_scope.

(** ** Parser results

    The crates parse with nom.  A nom parser returns [Ok((rest, value))],
    [Err(Err::Error _)] (a recoverable error: [opt], [alt] and [many0]
    backtrack on it) or [Err(Err::Incomplete _)] (returned by
    [length_data] on short input, and propagated by every combinator).
    Code paths that [unwrap], [unimplemented!()] or slice out of range
    panic; we make the panic an explicit outcome. *)

Inductive PRes (I A : Type) : Type :=
| POk (rest : I) (v : A)
| PErr
| PIncomplete
| PPanic.
Arguments POk {I A} rest v.
Arguments PErr {I A}.
Arguments PIncomplete {I A}.
Arguments PPanic {I A}.

Definition Parser (I A : Type) := I -> PRes I A.

Definition pret {I A} (a : A) : Parser I A := fun i => POk i a.

Definition pbind {I A B} (p : Parser I A) (f : A -> Parser I B) : Parser I B :=
  fun i =>
    match p i with
    | POk r a => f a r
    | PErr => PErr
    | PIncomplete => PIncomplete
    | PPanic => PPanic
    end.

Notation "x <- p ;; q" := (pbind p (fun x => q))
  (at level 61, p at next level, right associativity).

(** [nom::combinator::map] *)
Definition pmap {I A B} (f : A -> B) (p : Parser I A) : Parser I B :=
  x <- p ;; pret (f x).

(** Option bind: [None] is a panic of the source ([unwrap], overflow,
    [unimplemented!()]). *)
Notation "'let?' x ':=' a 'in' b" :=
  (match a with Some x => b | None => None end)
  (at level 200, x ident, a at level 100, b at level 200).

(** ** Bytes *)

Definition bval (b : byte) : Z := Z.of_N (Byte.to_N b).

Definition zbyte (z : Z) : byte :=
  match Byte.of_N (Z.to_N (z mod 256)) with Some b => b | None => x00 end.

(** [n.to_be_bytes()] for a [k]-byte unsigned integer. *)
Fixpoint to_be_bytes (k : nat) (n : Z) : list byte :=
  match k with
  | O => []
  | S k' => to_be_bytes k' (Z.shiftr n 8) ++ [zbyte n]
  end.

(** [u32::from_be_bytes] and friends. *)
Definition from_be_bytes (bs : list byte) : Z :=
  fold_left (fun acc b => acc * 256 + bval b) bs 0.

Lemma bval_range (b : byte) : 0 <= bval b < 256.
Proof. destruct b; cbv; split; congruence. Qed.

Lemma bval_zbyte (z : Z) : bval (zbyte z) = z mod 256.
Proof.
  unfold zbyte, bval.
  assert (H : (Z.to_N (z mod 256) < 256)%N).
  { pose proof (Z.mod_pos_bound z 256). lia. }
  destruct (Byte.of_N (Z.to_N (z mod 256))) eqn:E.
  - apply Byte.to_of_N in E. rewrite E.
    pose proof (Z.mod_pos_bound z 256). lia.
  - apply Byte.of_N_None_iff in E. lia.
Qed.

Lemma to_be_bytes_length (k : nat) (n : Z) : length (to_be_bytes k n) = k.
Proof.
  revert n; induction k as [|k IH]; intro n; simpl; [reflexivity|].
  rewrite length_app, IH. simpl. lia.
Qed.

(** *** CRC-32-IEEE and HMAC-SHA1

    The crates take these from the [crc] and [rust-crypto] crates.  They
    are written out here (bitwise, reflected polynomial 0xEDB88320; FIPS
    180 SHA-1 and RFC 2104 HMAC) so that the builder can be evaluated. *)

Module Crypto.

Definition crc_bit (c : Z) : Z :=
  if Z.testbit c 0 then Z.lxor (Z.shiftr c 1) 0xEDB88320 else Z.shiftr c 1.

Definition crc_byte (c : Z) (b : byte) : Z :=
  let c := Z.lxor c (bval b) in
  crc_bit (crc_bit (crc_bit (crc_bit (crc_bit (crc_bit (crc_bit (crc_bit c))))))).

(** [crc32::checksum_ieee] *)
Definition checksum_ieee (bs : list byte) : Z :=
  Z.lxor (fold_left crc_byte bs 0xFFFFFFFF) 0xFFFFFFFF.

Definition w32 (z : Z) : Z := z mod 2^32.
Definition rotl (n : Z) (x : Z) : Z := w32 (Z.lor (Z.shiftl x n) (Z.shiftr x (32 - n))).

Fixpoint words (bs : list Z) : list Z :=
  match bs with
  | a :: b :: c :: d :: r => (a * 2^24 + b * 2^16 + c * 2^8 + d) :: words r
  | _ => []
  end.

(** The 80-word message schedule, built back to front. *)
Fixpoint schedule (fuel : nat) (rev_w : list Z) : list Z :=
  match fuel with
  | O => rev rev_w
  | S f =>
      let w3 := nth 2 rev_w 0 in
      let w8 := nth 7 rev_w 0 in
      let w14 := nth 13 rev_w 0 in
      let w16 := nth 15 rev_w 0 in
      schedule f (rotl 1 (Z.lxor (Z.lxor w3 w8) (Z.lxor w14 w16)) :: rev_w)
  end.

Definition round_f (t : nat) (b c d : Z) : Z * Z :=
  if (t <? 20)%nat then (Z.lor (Z.land b c) (Z.land (Z.lxor b 0xFFFFFFFF) d), 0x5A827999)
  else if (t <? 40)%nat then (Z.lxor (Z.lxor b c) d, 0x6ED9EBA1)
  else if (t <? 60)%nat then (Z.lor (Z.lor (Z.land b c) (Z.land b d)) (Z.land c d), 0x8F1BBCDC)
  else (Z.lxor (Z.lxor b c) d, 0xCA62C1D6).

Fixpoint rounds (t : nat) (ws : list Z) (st : Z * Z * Z * Z * Z) : Z * Z * Z * Z * Z :=
  match ws with
  | [] => st
  | w :: ws' =>
      let '(a, b, c, d, e) := st in
      let '(f, k) := round_f t b c d in
      let tmp := w32 (rotl 5 a + f + e + k + w) in
      rounds (S t) ws' (tmp, a, rotl 30 b, c, d)
  end.

Definition compress (h : Z * Z * Z * Z * Z) (block : list Z) : Z * Z * Z * Z * Z :=
  let ws := schedule 64 (rev (words block)) in
  let '(a, b, c, d, e) := rounds 0 ws h in
  let '(h0, h1, h2, h3, h4) := h in
  (w32 (h0 + a), w32 (h1 + b), w32 (h2 + c), w32 (h3 + d), w32 (h4 + e)).

Fixpoint blocks (fuel : nat) (bs : list Z) : list (list Z) :=
  match fuel with
  | O => []
  | S f => match bs with [] => [] | _ => firstn 64 bs :: blocks f (skipn 64 bs) end
  end.

Definition sha1_pad (bs : list Z) : list Z :=
  let len := Z.of_nat (length bs) in
  let zeros := Z.to_nat ((55 - len) mod 64) in
  bs ++ [0x80] ++ repeat 0 zeros ++ map bval (to_be_bytes 8 (8 * len)).

Definition sha1_z (bs : list Z) : list Z :=
  let padded := sha1_pad bs in
  let '(h0, h1, h2, h3, h4) :=
    fold_left compress (blocks (length padded) padded)
      (0x67452301, 0xEFCDAB89, 0x98BADCFE, 0x10325476, 0xC3D2E1F0) in
  map bval (to_be_bytes 4 h0 ++ to_be_bytes 4 h1 ++ to_be_bytes 4 h2
            ++ to_be_bytes 4 h3 ++ to_be_bytes 4 h4).

Definition sha1 (bs : list byte) : list byte := map zbyte (sha1_z (map bval bs)).

(** [Hmac::new(Sha1::new(), key)], [input], [result().code()] *)
Definition hmac_sha1 (key msg : list byte) : list byte :=
  let k := if (64 <? length key)%nat then sha1 key else key in
  let k := k ++ repeat x00 (64 - length k) in
  let ipad := map (fun b => zbyte (Z.lxor (bval b) 0x36)) k in
  let opad := map (fun b => zbyte (Z.lxor (bval b) 0x5C)) k in
  sha1 (opad ++ sha1 (ipad ++ msg)).

End Crypto.

Example crc32_check : Crypto.checksum_ieee [x31; x32; x33; x34; x35; x36; x37; x38; x39] = 0xCBF43926.
Proof. vm_compute. reflexivity. Qed.

Example sha1_abc : map bval (Crypto.sha1 [x61; x62; x63]) =
  [0xa9; 0x99; 0x3e; 0x36; 0x47; 0x06; 0x81; 0x6a; 0xba; 0x3e;
   0x25; 0x71; 0x78; 0x50; 0xc2; 0x6c; 0x9c; 0xd0; 0xd8; 0x9d].
Proof. vm_compute. reflexivity. Qed.

(** RFC 2202, test case 1. *)
Example hmac_sha1_rfc2202_1 :
  map bval (Crypto.hmac_sha1 (repeat x0b 20) [x48; x69; x20; x54; x68; x65; x72; x65]) =
  [0xb6; 0x17; 0x31; 0x86; 0x55; 0x05; 0x72; 0x64; 0xe2; 0x8b;
   0xc0; 0xb6; 0xfb; 0x37; 0x8c; 0x8e; 0xf1; 0x46; 0xbe; 0x00].
Proof. vm_compute. reflexivity. Qed.


(** *** nom combinators over a list of input tokens *)

Section Combinators.
Context {T : Type}.

(** [nom::combinator::all_consuming] *)
Definition all_consuming {A} (p : Parser (list T) A) : Parser (list T) A :=
  fun i =>
    match p i with
    | POk [] a => POk [] a
    | POk _ _ => PErr
    | PErr => PErr
    | PIncomplete => PIncomplete
    | PPanic => PPanic
    end.

(** [nom::combinator::opt] *)
Definition opt {A} (p : Parser (list T) A) : Parser (list T) (option A) :=
  fun i =>
    match p i with
    | POk r a => POk r (Some a)
    | PErr => POk i None
    | PIncomplete => PIncomplete
    | PPanic => PPanic
    end.

(** [nom::branch::alt] of two parsers; longer [alt]s nest. *)
Definition alt2 {A} (p q : Parser (list T) A) : Parser (list T) A :=
  fun i => match p i with PErr => q i | r => r end.

(** [nom::multi::many0]: stops on a recoverable error, refuses a parser
    that made no progress.  The loop runs at most [fuel] times; [many0]
    gives it one more round than there are input tokens, which is enough
    for every parser that returns a suffix of its input
    (lemma [many0_unfold]). *)
Fixpoint many0_fuel {A} (fuel : nat) (p : Parser (list T) A) (i : list T)
  : PRes (list T) (list A) :=
  match fuel with
  | O => POk i []
  | S f =>
      match p i with
      | PErr => POk i []
      | PIncomplete => PIncomplete
      | PPanic => PPanic
      | POk i1 o =>
          if Nat.eqb (List.length i1) (List.length i) then PErr
          else match many0_fuel f p i1 with
               | POk r os => POk r (o :: os)
               | PErr => PErr
               | PIncomplete => PIncomplete
               | PPanic => PPanic
               end
      end
  end.

Definition many0 {A} (p : Parser (list T) A) : Parser (list T) (list A) :=
  fun i => many0_fuel (S (List.length i)) p i.

(** [nom::multi::many1]: the first item, then the loop of [many0]. *)
Definition many1 {A} (p : Parser (list T) A) : Parser (list T) (list A) :=
  fun i =>
    match p i with
    | POk i1 o =>
        match many0 p i1 with
        | POk r os => POk r (o :: os)
        | PErr => PErr
        | PIncomplete => PIncomplete
        | PPanic => PPanic
        end
    | PErr => PErr
    | PIncomplete => PIncomplete
    | PPanic => PPanic
    end.

End Combinators.

(** *** Byte parsers of [nom::number] and [nom::bytes] *)

(** [be_u16] (complete) *)
Definition be_u16 : Parser (list byte) Z :=
  fun i => match i with b0 :: b1 :: r => POk r (bval b0 * 256 + bval b1) | _ => PErr end.

(** [take] (complete) *)
Definition take_bytes (n : nat) : Parser (list byte) (list byte) :=
  fun i => if (List.length i <? n)%nat then PErr else POk (skipn n i) (firstn n i).

Fixpoint bytes_eqb (a b : list byte) : bool :=
  match a, b with
  | [], [] => true
  | x :: a', y :: b' => Byte.eqb x y && bytes_eqb a' b'
  | _, _ => false
  end.

(** [tag] (complete) *)
Definition tag_bytes (t : list byte) : Parser (list byte) (list byte) :=
  fun i =>
    if bytes_eqb (firstn (List.length t) i) t
    then POk (skipn (List.length t) i) t else PErr.

(** [length_data(be_u16)]: too short an input is [Incomplete]. *)
Definition length_data : Parser (list byte) (list byte) :=
  n <- be_u16 ;;
  (fun i => if (List.length i <? Z.to_nat n)%nat then PIncomplete
            else POk (skipn (Z.to_nat n) i) (firstn (Z.to_nat n) i)).

(** [String::from_utf8(..).is_ok()] *)
Definition cont (b : byte) : bool := (0x80 <=? bval b) && (bval b <=? 0xBF).
Definition inr (lo hi : Z) (b : byte) : bool := (lo <=? bval b) && (bval b <=? hi).

Fixpoint utf8_valid (bs : list byte) : bool :=
  match bs with
  | [] => true
  | b0 :: r0 =>
      let v := bval b0 in
      if v <? 0x80 then utf8_valid r0
      else if inr 0xC2 0xDF b0 then
        match r0 with
        | b1 :: r1 => cont b1 && utf8_valid r1
        | _ => false
        end
      else if inr 0xE0 0xEF b0 then
        match r0 with
        | b1 :: b2 :: r2 =>
            (if v =? 0xE0 then inr 0xA0 0xBF b1
             else if v =? 0xED then inr 0x80 0x9F b1 else cont b1)
            && cont b2 && utf8_valid r2
        | _ => false
        end
      else if inr 0xF0 0xF4 b0 then
        match r0 with
        | b1 :: b2 :: b3 :: r3 =>
            (if v =? 0xF0 then inr 0x90 0xBF b1
             else if v =? 0xF4 then inr 0x80 0x8F b1 else cont b1)
            && cont b2 && cont b3 && utf8_valid r3
        | _ => false
        end
      else false
  end.

(** ** The STUN codec: [stun/src/lib.rs] *)

Module Stun.

Definition MAGIC_COOKIE : Z := 0x2112A442.
Definition FINGERPRINT_COOKIE : Z := 0x5354554E.

Inductive Method := Binding.

Inductive Class := Error | Indication | Request | Success.

Record Header := {
  class : Class;
  method : Method;
  length : Z;                 (* u16 *)
  transaction_id : list byte;
}.

Inductive IpAddr := V4 (a : Z) | V6 (a : Z).

(** [Username(String)] holds the UTF-8 bytes of the string. *)
Inductive Attribute :=
| ComprehensionOptional (v : list byte)
| Fingerprint (v : Z)
| MessageIntegrity (v : list byte)
| Priority (v : Z)
| Username (s : list byte)
| XorMappedAddress (address : IpAddr) (port : Z).

Record Message := { header : Header; attributes : list Attribute }.


(** [message_type]: the two bytes are read as bits [00 M11..M7 C1 M6..M4
    C0 M3..M0].  The [u8] shifts of the source keep only 8 bits. *)
Definition message_type : Parser (list byte) (Class * Method) :=
  fun i =>
    match i with
    | b0 :: b1 :: r =>
        let w := bval b0 * 256 + bval b1 in
        if negb (Z.shiftr w 14 =? 0) then PErr else
        let m_11_7 := Z.land (Z.shiftr w 9) 31 in
        let c_1 := Z.land (Z.shiftr w 8) 1 in
        let m_6_4 := Z.land (Z.shiftr w 5) 7 in
        let c_0 := Z.land (Z.shiftr w 4) 1 in
        let m_3_0 := Z.land w 15 in
        let c := Z.lor (Z.shiftl c_1 1) c_0 in
        let class :=
          match c with
          | 0 => Some Request
          | 1 => Some Indication
          | 2 => Some Success
          | 3 => Some Error
          | _ => None                                  (* unreachable!() *)
          end in
        let m := Z.lor (Z.lor (Z.land (Z.shiftl m_11_7 6) 255)
                              (Z.land (Z.shiftl m_6_4 3) 255)) m_3_0 in
        match class with
        | None => PPanic
        | Some cl => if m =? 1 then POk r (cl, Binding)
                     else PPanic                       (* unimplemented!() *)
        end
    | _ => PErr
    end.

Definition class_bits (c : Class) : Z :=
  match c with Request => 0 | Indication => 1 | Success => 2 | Error => 3 end.

Definition method_bits (m : Method) : Z := match m with Binding => 1 end.

(** [Header::to_bytes] *)
Definition header_to_bytes (h : Header) : list byte :=
  let c := class_bits h.(class) in
  let m := method_bits h.(method) in
  let c_0 := Z.land c 1 in
  let c_1 := Z.shiftr (Z.land c 2) 1 in
  let m_3_0 := Z.land m 15 in
  let m_6_4 := Z.shiftr (Z.land m 0x70) 4 in
  let m_11_7 := Z.shiftr (Z.land m 0xF80) 7 in
  let mt := Z.lor (Z.lor (Z.lor (Z.lor (Z.shiftl m_11_7 9) (Z.shiftl c_1 8))
                                (Z.shiftl m_6_4 5)) (Z.shiftl c_0 4)) m_3_0 in
  to_be_bytes 2 mt ++ to_be_bytes 2 h.(length) ++ to_be_bytes 4 MAGIC_COOKIE
  ++ h.(transaction_id).

(** [map_parser(take(2), message_type)] *)
Definition message_type_field : Parser (list byte) (Class * Method) :=
  bs <- take_bytes 2 ;;
  (fun r => match message_type bs with
            | POk _ cm => POk r cm
            | PErr => PErr
            | PIncomplete => PIncomplete
            | PPanic => PPanic
            end).

(** [header] (named apart from the record field [header]) *)
Definition parse_header : Parser (list byte) Header :=
  cm <- message_type_field ;;
  len <- be_u16 ;;
  _ <- tag_bytes (to_be_bytes 4 MAGIC_COOKIE) ;;
  tid <- take_bytes 12 ;;
  pret {| class := fst cm; method := snd cm; length := len; transaction_id := tid |}.

(** *** Attribute serializers *)

(** [u16::try_from(usize).unwrap()] *)
Definition u16_of_len (n : nat) : option Z :=
  if Z.of_nat n <? 65536 then Some (Z.of_nat n) else None.

Definition fingerprint_to_bytes (checksum : Z) : option (list byte) :=
  let checksum := to_be_bytes 4 checksum in
  let? len := u16_of_len (List.length checksum) in
  Some (to_be_bytes 2 0x8028 ++ to_be_bytes 2 len ++ checksum).

Definition message_integrity_to_bytes (code : list byte) : option (list byte) :=
  let? len := u16_of_len (List.length code) in
  Some (to_be_bytes 2 0x0008 ++ to_be_bytes 2 len ++ code).

Definition username_to_bytes (username : list byte) : option (list byte) :=
  let? len := u16_of_len (List.length username) in
  Some (to_be_bytes 2 0x0006 ++ to_be_bytes 2 len ++ username).

Definition xor_mapped_address_to_bytes (address : IpAddr) (port : Z) : option (list byte) :=
  let? fx :=
    match address with
    | V4 addr => Some (to_be_bytes 2 0x01, to_be_bytes 4 (Z.lxor addr MAGIC_COOKIE))
    | V6 _ => None                                     (* unimplemented!() *)
    end in
  let x_port_field := to_be_bytes 2 (Z.lxor port (Z.land (Z.shiftr MAGIC_COOKIE 16) 0xFFFF)) in
  let value_field := fst fx ++ x_port_field ++ snd fx in
  let? len := u16_of_len (List.length value_field) in
  Some (to_be_bytes 2 0x0020 ++ to_be_bytes 2 len ++ value_field).

(** [Attribute::to_bytes]: [ComprehensionOptional] and [Priority] hit
    [unimplemented!()]. *)
Definition attribute_to_bytes (a : Attribute) : option (list byte) :=
  match a with
  | Fingerprint checksum => fingerprint_to_bytes checksum
  | MessageIntegrity code => message_integrity_to_bytes code
  | Username u => username_to_bytes u
  | XorMappedAddress address port => xor_mapped_address_to_bytes address port
  | _ => None
  end.

(** *** Attribute parsers (applied to the value field) *)

Definition comprehension_optional : Parser (list byte) Attribute :=
  fun i => POk [] (ComprehensionOptional i).

(** [input.split_at(4)] panics on a shorter input. *)
Definition fingerprint : Parser (list byte) Attribute :=
  fun i => if (List.length i <? 4)%nat then PPanic
           else POk (skipn 4 i) (Fingerprint (from_be_bytes (firstn 4 i))).

Definition message_integrity : Parser (list byte) Attribute :=
  fun i => if (List.length i <? 20)%nat then PPanic
           else POk (skipn 20 i) (MessageIntegrity (firstn 20 i)).

Definition priority : Parser (list byte) Attribute :=
  fun i => if (List.length i <? 4)%nat then PPanic
           else POk (skipn 4 i) (Priority (from_be_bytes (firstn 4 i))).

(** [String::from_utf8(..).unwrap()] *)
Definition username : Parser (list byte) Attribute :=
  fun i => if utf8_valid i then POk [] (Username i) else PPanic.

Definition xor_mapped_address : Parser (list byte) Attribute :=
  family_field <- be_u16 ;;
  x_port_field <- be_u16 ;;
  (fun x_address_field =>
     let port := Z.lxor x_port_field (Z.land (Z.shiftr MAGIC_COOKIE 16) 0xFFFF) in
     if Z.land family_field 0xFF =? 0x01 then
       if (List.length x_address_field <? 4)%nat then PPanic
       else POk (skipn 4 x_address_field)
              (XorMappedAddress
                 (V4 (Z.lxor (from_be_bytes (firstn 4 x_address_field)) MAGIC_COOKIE)) port)
     else PPanic).                                     (* unimplemented!() *)

(** The dispatch of [attribute]; [None] is the [unimplemented!()] arm. *)
Definition attribute_parser (typ : Z) : option (Parser (list byte) Attribute) :=
  if typ =? 0x0006 then Some username
  else if typ =? 0x0008 then Some message_integrity
  else if typ =? 0x0020 then Some xor_mapped_address
  else if typ =? 0x0024 then Some priority
  else if (0x8000 <=? typ) && (typ <=? 0x8027) then Some comprehension_optional
  else if typ =? 0x8028 then Some fingerprint
  else if (0x8029 <=? typ) && (typ <=? 0xFFFF) then Some comprehension_optional
  else None.

(** [attribute]: type, length-prefixed value, then the padding, sliced
    out of the remainder with [remainder[0..pad_len]] (a panic when the
    remainder is shorter). *)
Definition attribute : Parser (list byte) Attribute :=
  fun input =>
    match (typ <- be_u16 ;; v <- length_data ;; pret (typ, v)) input with
    | POk remainder (typ_field, value_field) =>
        let pad_len := ((4 - List.length value_field mod 4) mod 4)%nat in
        if (List.length remainder <? pad_len)%nat then PPanic else
        let remainder := skipn pad_len remainder in
        match attribute_parser typ_field with
        | None => PPanic
        | Some parser =>
            match all_consuming parser value_field with
            | POk _ a => POk remainder a
            | PErr => PErr
            | PIncomplete => PIncomplete
            | PPanic => PPanic
            end
        end
    | PErr => PErr
    | PIncomplete => PIncomplete
    | PPanic => PPanic
    end.

(** [message]: the header, then [many0(attribute)]. *)
Definition message : Parser (list byte) Message :=
  h <- parse_header ;;
  attrs <- many0 attribute ;;
  pret {| header := h; attributes := attrs |}.

(** [Message::to_bytes] *)
Fixpoint attributes_to_bytes (attrs : list Attribute) : option (list byte) :=
  match attrs with
  | [] => Some []
  | a :: rest =>
      let? bs := attribute_to_bytes a in
      let? bs' := attributes_to_bytes rest in
      Some (bs ++ bs')
  end.

Definition message_to_bytes (m : Message) : option (list byte) :=
  let? attributes_bytes := attributes_to_bytes m.(attributes) in
  Some (header_to_bytes m.(header) ++ attributes_bytes).

(** *** The builder *)

(** [u16 += u16]; an overflow panics (debug build). *)
Definition u16_add (a b : Z) : option Z :=
  if a + b <? 65536 then Some (a + b) else None.

Definition set_length (m : Message) (len : Z) : Message :=
  {| header := {| class := m.(header).(class); method := m.(header).(method);
                  length := len; transaction_id := m.(header).(transaction_id) |};
     attributes := m.(attributes) |}.

Definition set_attributes (m : Message) (attrs : list Attribute) : Message :=
  {| header := m.(header); attributes := attrs |}.

Definition base (h : Header) : Message := {| header := h; attributes := [] |}.

(** The loop of [with_attributes] over [self.attributes]. *)
Fixpoint add_lengths (len : Z) (attrs : list Attribute) : option Z :=
  match attrs with
  | [] => Some len
  | a :: rest =>
      let? bs := attribute_to_bytes a in
      let? attribute_length := u16_of_len (List.length bs) in
      let? len' := u16_add len attribute_length in
      add_lengths len' rest
  end.

(** [with_attributes]: the loop runs over the attributes the message had
    before the call, then the list is replaced. *)
Definition with_attributes (m : Message) (new_attributes : list Attribute) : option Message :=
  let? len := add_lengths m.(header).(length) m.(attributes) in
  Some (set_attributes (set_length m len) new_attributes).

Definition and_attribute (m : Message) (attribute : Attribute) : option Message :=
  let? bs := attribute_to_bytes attribute in
  let? attribute_length := u16_of_len (List.length bs) in
  let? len := u16_add m.(header).(length) attribute_length in
  let m := set_length m len in
  Some (set_attributes m (m.(attributes) ++ [attribute])).

Definition with_message_integrity (m : Message) (key : list byte) : option Message :=
  let? len := u16_add m.(header).(length) 24 in
  let m := set_length m len in
  let? bs := message_to_bytes m in
  let code := Crypto.hmac_sha1 key bs in
  Some (set_attributes m (m.(attributes) ++ [MessageIntegrity code])).

Definition with_fingerprint (m : Message) : option Message :=
  let? len := u16_add m.(header).(length) 36 in
  let m := set_length m len in
  let? bs := message_to_bytes m in
  let checksum := Crypto.checksum_ieee bs in
  let value := Z.lxor checksum FINGERPRINT_COOKIE in
  Some (set_attributes m (m.(attributes) ++ [Fingerprint value])).

End Stun.


(** ** The TLV attributes of [stun/src/attribute/] *)

Module StunTlv.
Import Stun.

(** [error_code::NumericCode] *)
Inductive NumericCode :=
| TryAlternate | BadRequest | Unauthenticated | Forbidden | MobilityForbidden
| UnknownAttribute | AllocationMismatch | StaleNonce | AddressFamilyNotSupported
| WrongCredentials | UnsupportedTransportProtocol | PeerAddressFamilyMismatch
| ConnectionAlreadyExists | ConnectionTimeoutOrFailure | AllocationQuotaReached
| RoleConflict | ServerError | InsufficientCapacity.

Definition numeric_code_value (c : NumericCode) : Z :=
  match c with
  | TryAlternate => 300 | BadRequest => 400 | Unauthenticated => 401
  | Forbidden => 403 | MobilityForbidden => 405 | UnknownAttribute => 420
  | AllocationMismatch => 437 | StaleNonce => 438
  | AddressFamilyNotSupported => 440 | WrongCredentials => 441
  | UnsupportedTransportProtocol => 442 | PeerAddressFamilyMismatch => 443
  | ConnectionAlreadyExists => 446 | ConnectionTimeoutOrFailure => 447
  | AllocationQuotaReached => 486 | RoleConflict => 487 | ServerError => 500
  | InsufficientCapacity => 508
  end.

(** The attribute structs. *)
Inductive ComprehensionOptional := MkComprehensionOptional (typ : Z) (value : list byte).
Inductive ErrorCode := MkErrorCode (numeric_code : NumericCode) (reason_phrase : list byte).
Inductive Fingerprint := MkFingerprint (v : Z).
(** [MessageIntegrity([u8; 20])]: the list has 20 elements ([wf_attribute]). *)
Inductive MessageIntegrity := MkMessageIntegrity (buf : list byte).
Inductive Priority := MkPriority (v : Z).
Inductive Username := MkUsername (s : list byte).
Inductive XorMappedAddress := MkXorMappedAddress (address : IpAddr) (port : Z).
Inductive UseCandidate := MkUseCandidate.

(** The [Tlv] trait.  [length] and [value] return [None] where the source
    panics ([try_into().unwrap()] of a length above 65535,
    [unimplemented!()] for IPv6). *)
Class Tlv (A : Type) := {
  typ : A -> Z;
  tlv_length : A -> option Z;
  value : A -> option (list byte);
}.

(** The provided method [Tlv::to_bytes]. *)
Definition to_bytes {A} `{Tlv A} (a : A) : option (list byte) :=
  let? value_field := value a in
  let? length_field := tlv_length a in
  Some (to_be_bytes 2 (typ a) ++ to_be_bytes 2 length_field ++ value_field).

(** [value_field.resize(len + pad_len, 0)] with [pad_len = (4 - len % 4) % 4] *)
Definition pad4 (v : list byte) : list byte :=
  v ++ repeat x00 ((4 - List.length v mod 4) mod 4).

#[export] Instance Tlv_ComprehensionOptional : Tlv ComprehensionOptional := {
  typ a := let 'MkComprehensionOptional t _ := a in t;
  tlv_length a := let 'MkComprehensionOptional _ v := a in u16_of_len (List.length v);
  value a := let 'MkComprehensionOptional _ v := a in Some v;
}.

#[export] Instance Tlv_ErrorCode : Tlv ErrorCode := {
  typ _ := 0x0009;
  tlv_length a := let 'MkErrorCode _ r := a in u16_of_len (4 + List.length r);
  value a :=
    let 'MkErrorCode c r := a in
    let class_and_number := numeric_code_value c in
    let class := class_and_number / 100 in
    let number := class_and_number mod 100 in
    let class_and_number_encoded := Z.lor (Z.shiftl class 8) number in
    Some (pad4 (to_be_bytes 4 class_and_number_encoded ++ r));
}.

#[export] Instance Tlv_Fingerprint : Tlv Fingerprint := {
  typ _ := 0x8028;
  tlv_length _ := Some 4;
  value a := let 'MkFingerprint v := a in Some (to_be_bytes 4 (Z.lxor v FINGERPRINT_COOKIE));
}.

#[export] Instance Tlv_MessageIntegrity : Tlv MessageIntegrity := {
  typ _ := 0x0008;
  tlv_length _ := Some 20;
  value a := let 'MkMessageIntegrity b := a in Some b;
}.

#[export] Instance Tlv_Priority : Tlv Priority := {
  typ _ := 0x0024;
  tlv_length _ := Some 4;
  value a := let 'MkPriority v := a in Some (to_be_bytes 4 v);
}.

#[export] Instance Tlv_Username : Tlv Username := {
  typ _ := 0x0006;
  tlv_length a := let 'MkUsername s := a in u16_of_len (List.length s);
  value a := let 'MkUsername s := a in Some (pad4 s);
}.

Definition xor_mapped_address_value (a : XorMappedAddress) : option (list byte) :=
  let 'MkXorMappedAddress address port := a in
  match address with
  | V4 addr =>
      let family_field := to_be_bytes 2 0x01 in
      let x_address_field := to_be_bytes 4 (Z.lxor addr MAGIC_COOKIE) in
      let x_port_field := to_be_bytes 2 (Z.lxor port (Z.shiftr MAGIC_COOKIE 16)) in
      Some (family_field ++ x_port_field ++ x_address_field)
  | V6 _ => None                                       (* unimplemented!() *)
  end.

#[export] Instance Tlv_XorMappedAddress : Tlv XorMappedAddress := {
  typ _ := 0x0020;
  tlv_length a := let? v := xor_mapped_address_value a in u16_of_len (List.length v);
  value a := xor_mapped_address_value a;
}.

#[export] Instance Tlv_UseCandidate : Tlv UseCandidate := {
  typ _ := 0x0025;
  tlv_length _ := Some 0;
  value _ := Some [];
}.

(** [attribute::Attribute], whose methods delegate to the variant
    ([impl_enum::with_methods]).  [UseCandidate] implements [Tlv] but is
    not a variant of the enum. *)
Inductive Attribute :=
| AComprehensionOptional (a : ComprehensionOptional)
| AErrorCode (a : ErrorCode)
| AFingerprint (a : Fingerprint)
| AMessageIntegrity (a : MessageIntegrity)
| APriority (a : Priority)
| AUsername (a : Username)
| AXorMappedAddress (a : XorMappedAddress).

#[export] Instance Tlv_Attribute : Tlv Attribute := {
  typ a := match a with
           | AComprehensionOptional x => typ x | AErrorCode x => typ x
           | AFingerprint x => typ x | AMessageIntegrity x => typ x
           | APriority x => typ x | AUsername x => typ x
           | AXorMappedAddress x => typ x
           end;
  tlv_length a := match a with
           | AComprehensionOptional x => tlv_length x | AErrorCode x => tlv_length x
           | AFingerprint x => tlv_length x | AMessageIntegrity x => tlv_length x
           | APriority x => tlv_length x | AUsername x => tlv_length x
           | AXorMappedAddress x => tlv_length x
           end;
  value a := match a with
           | AComprehensionOptional x => value x | AErrorCode x => value x
           | AFingerprint x => value x | AMessageIntegrity x => value x
           | APriority x => value x | AUsername x => value x
           | AXorMappedAddress x => value x
           end;
}.

(** The invariant of the Rust type [[u8; 20]]. *)
Definition wf_attribute (a : Attribute) : Prop :=
  match a with
  | AMessageIntegrity (MkMessageIntegrity b) => List.length b = 20%nat
  | _ => True
  end.

End StunTlv.

(** *** The parsers of [stun/src/attribute/]

    Each reads a whole attribute, type and length included, from the
    front of the input. *)

Module StunTlvParse.
Import StunTlv.

(** [num_enum::TryFromPrimitive] for [NumericCode] *)
Definition numeric_code_try_from (v : Z) : option NumericCode :=
  if v =? 300 then Some TryAlternate
  else if v =? 400 then Some BadRequest
  else if v =? 401 then Some Unauthenticated
  else if v =? 403 then Some Forbidden
  else if v =? 405 then Some MobilityForbidden
  else if v =? 420 then Some UnknownAttribute
  else if v =? 437 then Some AllocationMismatch
  else if v =? 438 then Some StaleNonce
  else if v =? 440 then Some AddressFamilyNotSupported
  else if v =? 441 then Some WrongCredentials
  else if v =? 442 then Some UnsupportedTransportProtocol
  else if v =? 443 then Some PeerAddressFamilyMismatch
  else if v =? 446 then Some ConnectionAlreadyExists
  else if v =? 447 then Some ConnectionTimeoutOrFailure
  else if v =? 486 then Some AllocationQuotaReached
  else if v =? 487 then Some RoleConflict
  else if v =? 500 then Some ServerError
  else if v =? 508 then Some InsufficientCapacity
  else None.

(** [preceded(tag(TYPE.to_be_bytes()), length_data(be_u16))] *)
Definition tagged_value (typ : Z) : Parser (list byte) (list byte) :=
  _ <- tag_bytes (to_be_bytes 2 typ) ;; length_data.

(** [comprehension_optional::comprehension_optional] *)
Definition comprehension_optional : Parser (list byte) Attribute :=
  typ <- be_u16 ;;
  value_field <- length_data ;;
  pret (AComprehensionOptional (MkComprehensionOptional typ value_field)).

(** [error_code::error_code]: the [bits] parser reads 21 ignored bits,
    the 3-bit class and the 8-bit number from the first four bytes of the
    value (an error when the value is shorter); the reason phrase is the
    rest of the value, [String::from_utf8(..).unwrap()]. *)
Definition error_code : Parser (list byte) Attribute :=
  value_field <- tagged_value 0x0009 ;;
  (fun remainder =>
     if (List.length value_field <? 4)%nat then PErr else
     let w := from_be_bytes (firstn 4 value_field) in
     let value_remainder := skipn 4 value_field in
     let class := Z.land (Z.shiftr w 8) 7 in
     let number := Z.land w 0xFF in
     let class_and_number := class * 100 + number in
     match numeric_code_try_from class_and_number with
     | None => PErr                                  (* Error::InvalidErrorCode *)
     | Some numeric_code =>
         if utf8_valid value_remainder
         then POk remainder (AErrorCode (MkErrorCode numeric_code value_remainder))
         else PPanic
     end).

(** [fingerprint::fingerprint]: [try_into::<[u8; 4]>().unwrap()] *)
Definition fingerprint : Parser (list byte) Attribute :=
  value_field <- tagged_value 0x8028 ;;
  (fun remainder =>
     if Nat.eqb (List.length value_field) 4
     then POk remainder (AFingerprint (MkFingerprint
                (Z.lxor (from_be_bytes value_field) Stun.FINGERPRINT_COOKIE)))
     else PPanic).

(** [message_integrity::message_integrity]: [MessageIntegrity::try_from]
    refuses a value that is not 20 bytes long, as a parse error. *)
Definition message_integrity : Parser (list byte) Attribute :=
  value_field <- tagged_value 0x0008 ;;
  (fun remainder =>
     if Nat.eqb (List.length value_field) 20
     then POk remainder (AMessageIntegrity (MkMessageIntegrity value_field))
     else PErr).                                      (* InvalidMessageIntegrity *)

(** [priority::priority] *)
Definition priority : Parser (list byte) Attribute :=
  value_field <- tagged_value 0x0024 ;;
  (fun remainder =>
     if Nat.eqb (List.length value_field) 4
     then POk remainder (APriority (MkPriority (from_be_bytes value_field)))
     else PPanic).

(** [username::username]: the padding is sliced off the remainder
    ([&remainder[pad_len..]] panics when it is shorter). *)
Definition username : Parser (list byte) Attribute :=
  value_field <- tagged_value 0x0006 ;;
  (fun remainder =>
     let pad_len := ((4 - List.length value_field mod 4) mod 4)%nat in
     if (List.length remainder <? pad_len)%nat then PPanic else
     let remainder := skipn pad_len remainder in
     if utf8_valid value_field
     then POk remainder (AUsername (MkUsername value_field))
     else PPanic).

(** [xor_mapped_address::xor_mapped_address]: IPv6 and unknown families
    hit [unimplemented!()]. *)
Definition xor_mapped_address : Parser (list byte) Attribute :=
  value_field <- tagged_value 0x0020 ;;
  (fun remainder =>
     match (family_field <- be_u16 ;; x_port_field <- be_u16 ;;
            pret (family_field, x_port_field)) value_field with
     | POk x_address_field (family_field, x_port_field) =>
         let magic_cookie_upper_16 := Z.shiftr Stun.MAGIC_COOKIE 16 in
         let port := Z.lxor x_port_field magic_cookie_upper_16 in
         let family_field := Z.land family_field 0xFF in
         if family_field =? 0x01 then
           if (List.length x_address_field <? 4)%nat then PPanic
           else
             let address_bytes :=
               Z.lxor (from_be_bytes (firstn 4 x_address_field)) Stun.MAGIC_COOKIE in
             POk remainder (AXorMappedAddress (MkXorMappedAddress (Stun.V4 address_bytes) port))
         else PPanic
     | PErr => PErr
     | PIncomplete => PIncomplete
     | PPanic => PPanic
     end).

(** [attribute::attribute]: the type is peeked, then the chosen parser
    reads the whole attribute; a type below 0x8000 without a parser is
    [Error::UnimplementedAttribute]. *)
Definition attribute : Parser (list byte) Attribute :=
  fun input =>
    match be_u16 input with
    | POk _ attribute_type =>
        let parser :=
          if attribute_type =? 0x0006 then Some username
          else if attribute_type =? 0x0008 then Some message_integrity
          else if attribute_type =? 0x0009 then Some error_code
          else if attribute_type =? 0x0020 then Some xor_mapped_address
          else if attribute_type =? 0x0024 then Some priority
          else if attribute_type =? 0x8028 then Some fingerprint
          else if attribute_type >=? 0x8000 then Some comprehension_optional
          else None in
        match parser with
        | Some parser => parser input
        | None => PErr
        end
    | PErr => PErr
    | PIncomplete => PIncomplete
    | PPanic => PPanic
    end.

End StunTlvParse.


(** ** The ICE agent of [ice/src/lib.rs] *)

From Stdlib Require Strings.String.

Module Ice.
Import Stun Stdlib.Strings.String.

(** [ice::Error]; the [std::io::Error] source of [BindFailed] is left out. *)
Inductive Error :=
| BindFailed
| InvalidCandidate (msg : String.string)
| UnsupportedCandidateType (token : String.string)
| UnsupportedTransport (token : String.string).

(** [Result<T, E>] *)
Inductive result (T E : Type) := Ok (v : T) | Err (e : E).
Arguments Ok {T E} v.
Arguments Err {T E} e.

Inductive Transport := Udp | Tcp.

(** [impl FromStr for Transport] *)
Definition Transport_from_str (token : String.string) : result Transport Error :=
  if String.eqb token "udp"%string || String.eqb token "UDP"%string then Ok Udp
  else if String.eqb token "tcp"%string || String.eqb token "TCP"%string then Ok Tcp
  else Err (UnsupportedTransport token).

Inductive CandidateType := Host | ServerReflexive | Relayed | PeerReflexive.

Record SocketAddr := { ip : IpAddr; port : Z }.

Record LocalCandidate := { local_address : SocketAddr; local_ty : CandidateType }.
Record RemoteCandidate := { address : SocketAddr; ty : CandidateType }.

Record Agent := {
  username : String.string;
  password : String.string;
  local_addrs : list IpAddr;
  local_candidates : list LocalCandidate;
  remote_candidates : list RemoteCandidate;
}.

Section AddRemoteCandidate.

(** [sdp::Attribute] and [impl TryFrom<sdp::Attribute> for RemoteCandidate]
    (the attribute is printed and parsed with [candidate_attribute]); the
    agent does not depend on how the conversion works. *)
Variable SdpAttribute : Type.
Variable try_from : SdpAttribute -> result RemoteCandidate Error.

(** [Agent::add_remote_candidate(&mut self, ..)]: the new state of the
    agent and the returned [Result<(), Error>]. *)
Definition add_remote_candidate (self : Agent) (candidate_attribute : SdpAttribute)
  : Agent * result unit Error :=
  match try_from candidate_attribute with
  | Err e => (self, Err e)
  | Ok candidate =>
      ({| username := self.(username); password := self.(password);
          local_addrs := self.(local_addrs);
          local_candidates := self.(local_candidates);
          remote_candidates := self.(remote_candidates) ++ [candidate] |}, Ok tt)
  end.

End AddRemoteCandidate.

(** Modelled from the spec: [stun::Header::new(method, class,
    transaction_id)], called by the responder but not defined in the
    [stun] crate; the spec's reply header has the given method, class and
    transaction id, and a message built from it starts with length 0. *)
Definition Header_new (m : Method) (c : Class) (tid : list byte) : Header :=
  {| class := c; method := m; Stun.length := 0; transaction_id := tid |}.

Definition method_eqb (a b : Method) : bool :=
  match a, b with Binding, Binding => true end.

Definition class_eqb (a b : Class) : bool :=
  match a, b with
  | Stun.Error, Stun.Error | Indication, Indication | Request, Request
  | Success, Success => true
  | _, _ => false
  end.

(** The loop over [message.attributes] that keeps the first [Username]. *)
Fixpoint first_username (attrs : list Attribute) : option (list byte) :=
  match attrs with
  | [] => None
  | Username u :: _ => Some u
  | _ :: rest => first_username rest
  end.

(** What one iteration of the [udp_listener] loop does with a datagram. *)
Inductive Action :=
| Continue
| Send (reply : list byte) (dest : SocketAddr)
| Panic.

(** The body of the loop in [udp_listener], after [recv_from] returned
    [buf[..bytes_rcvd]] from [src_addr]. *)
Definition udp_listener_step (key : list byte) (datagram : list byte)
    (src_addr : SocketAddr) : Action :=
  match message datagram with
  | POk _ message =>
      if negb (method_eqb message.(header).(method) Binding)
         && negb (class_eqb message.(header).(class) Request)
      then Continue
      else
        match first_username message.(attributes) with
        | None => Continue
        | Some u =>
            let reply :=
              let? m := with_attributes
                          (base (Header_new Binding Success message.(header).(transaction_id)))
                          [Username u; XorMappedAddress src_addr.(ip) src_addr.(port)] in
              let? m := with_message_integrity m key in
              with_fingerprint m in
            match reply with
            | Some reply =>
                match message_to_bytes reply with
                | Some bytes => Send bytes src_addr
                | None => Panic
                end
            | None => Panic
            end
        end
  | _ => Panic                                          (* unwrap() *)
  end.

End Ice.


(** ** The SDP crate [sdp/src]

    A Rust [&str] is a sequence of Unicode scalar values; nom's [&str]
    parsers ([LocatedSpan<&str>] in the crate) step through it one [char]
    at a time.  A string is modelled as the list of its scalar values. *)

From Stdlib Require Import DecimalN.

Module Sdp.
Import Stdlib.Strings.String.

Definition str := list Z.

(** An ASCII literal of the source. *)
Fixpoint lit (s : String.string) : str :=
  match s with
  | String.EmptyString => []
  | String.String a s' => Z.of_N (Ascii.N_of_ascii a) :: lit s'
  end.
Arguments lit s%_string.

Definition crlf : str := [13; 10].

Fixpoint str_eqb (a b : str) : bool :=
  match a, b with
  | [], [] => true
  | x :: a', y :: b' => (x =? y) && str_eqb a' b'
  | _, _ => false
  end.

(** [char::is_whitespace]: the Unicode White_Space property. *)
Definition is_whitespace (c : Z) : bool :=
  ((9 <=? c) && (c <=? 13)) || (c =? 32) || (c =? 0x85) || (c =? 0xA0)
  || (c =? 0x1680) || ((0x2000 <=? c) && (c <=? 0x200A))
  || (c =? 0x2028) || (c =? 0x2029) || (c =? 0x202F) || (c =? 0x205F)
  || (c =? 0x3000).

Definition is_digit (c : Z) : bool := (48 <=? c) && (c <=? 57).

(** *** nom's [complete] character parsers *)

Fixpoint strip_prefix (t i : str) : option str :=
  match t, i with
  | [], _ => Some i
  | c :: t', d :: i' => if c =? d then strip_prefix t' i' else None
  | _ :: _, [] => None
  end.

(** [tag] *)
Definition tag (t : str) : Parser str str :=
  fun i => match strip_prefix t i with Some r => POk r t | None => PErr end.

Fixpoint take_while (p : Z -> bool) (i : str) : str * str :=
  match i with
  | [] => ([], [])
  | c :: r => if p c then let (a, b) := take_while p r in (c :: a, b) else ([], i)
  end.

(** [take_till1] *)
Definition take_till1 (stop : Z -> bool) : Parser str str :=
  fun i =>
    match take_while (fun c => negb (stop c)) i with
    | ([], _) => PErr
    | (a, r) => POk r a
    end.

(** [digit1] *)
Definition digit1 : Parser str str :=
  fun i =>
    match take_while is_digit i with
    | ([], _) => PErr
    | (a, r) => POk r a
    end.

(** [not_line_ending]: everything up to ["\n"] or ["\r\n"]; a ['\r']
    not followed by ['\n'] is an error. *)
Definition not_line_ending : Parser str str :=
  fun i =>
    let (a, r) := take_while (fun c => negb ((c =? 13) || (c =? 10))) i in
    match r with
    | c :: r' =>
        if c =? 13 then
          match r' with
          | d :: _ => if d =? 10 then POk r a else PErr
          | [] => PErr
          end
        else POk r a
    | [] => POk r a
    end.

(** [line_ending]: ["\n"] or ["\r\n"]. *)
Definition line_ending : Parser str str :=
  fun i =>
    match i with
    | c :: r =>
        if c =? 10 then POk r [10]
        else if c =? 13 then
          match r with
          | d :: r' => if d =? 10 then POk r' crlf else PErr
          | [] => PErr
          end
        else PErr
    | [] => PErr
    end.

(** [one_of] *)
Definition one_of (cs : str) : Parser str Z :=
  fun i =>
    match i with
    | c :: r => if existsb (Z.eqb c) cs then POk r c else PErr
    | [] => PErr
    end.

(** [nom::sequence] *)
Definition preceded {A B} (p : Parser str A) (q : Parser str B) : Parser str B :=
  _ <- p ;; q.

Definition terminated {A B} (p : Parser str A) (q : Parser str B) : Parser str A :=
  x <- p ;; _ <- q ;; pret x.

Definition delimited {A B C} (p : Parser str A) (q : Parser str B) (r : Parser str C)
  : Parser str B :=
  _ <- p ;; x <- q ;; _ <- r ;; pret x.

Definition separated_pair {A B C} (p : Parser str A) (sep : Parser str B)
    (q : Parser str C) : Parser str (A * C) :=
  x <- p ;; _ <- sep ;; y <- q ;; pret (x, y).

(** [Option::unwrap] inside a parser: [None] panics. *)
Definition unwrap {A} (o : option A) : Parser str A :=
  fun i => match o with Some a => POk i a | None => PPanic end.

(** *** Numbers *)

Definition digit_uint (c : Z) (u : Decimal.uint) : Decimal.uint :=
  if c =? 48 then Decimal.D0 u else if c =? 49 then Decimal.D1 u
  else if c =? 50 then Decimal.D2 u else if c =? 51 then Decimal.D3 u
  else if c =? 52 then Decimal.D4 u else if c =? 53 then Decimal.D5 u
  else if c =? 54 then Decimal.D6 u else if c =? 55 then Decimal.D7 u
  else if c =? 56 then Decimal.D8 u else Decimal.D9 u.

Fixpoint uint_of_digits (ds : str) : Decimal.uint :=
  match ds with
  | [] => Decimal.Nil
  | c :: r => digit_uint c (uint_of_digits r)
  end.

(** [uN::from_str_radix(digits, 10)] on the output of [digit1]; [None]
    is the overflow error. *)
Definition from_str_radix_u (bits : Z) (ds : str) : option Z :=
  let v := Z.of_N (N.of_uint (uint_of_digits ds)) in
  if v <? 2 ^ bits then Some v else None.

(** [i64::from_str_radix(sign ++ digits, 10)] *)
Definition from_str_radix_i64 (sign : option Z) (ds : str) : option Z :=
  let v := Z.of_N (N.of_uint (uint_of_digits ds)) in
  let v := match sign with Some c => if c =? 45 then - v else v | None => v end in
  if (- 2 ^ 63 <=? v) && (v <? 2 ^ 63) then Some v else None.

Fixpoint uint_chars (u : Decimal.uint) : str :=
  match u with
  | Decimal.Nil => []
  | Decimal.D0 u => 48 :: uint_chars u | Decimal.D1 u => 49 :: uint_chars u
  | Decimal.D2 u => 50 :: uint_chars u | Decimal.D3 u => 51 :: uint_chars u
  | Decimal.D4 u => 52 :: uint_chars u | Decimal.D5 u => 53 :: uint_chars u
  | Decimal.D6 u => 54 :: uint_chars u | Decimal.D7 u => 55 :: uint_chars u
  | Decimal.D8 u => 56 :: uint_chars u | Decimal.D9 u => 57 :: uint_chars u
  end.

(** [Display] of an unsigned integer. *)
Definition show_u (n : Z) : str := uint_chars (N.to_uint (Z.to_N n)).

(** [Display] of a signed integer. *)
Definition show_i (z : Z) : str := if z <? 0 then 45 :: show_u (- z) else show_u z.

Definition u8_ok (v : Z) : bool := (0 <=? v) && (v <? 2 ^ 8).
Definition u64_ok (v : Z) : bool := (0 <=? v) && (v <? 2 ^ 64).
Definition i64_ok (v : Z) : bool := (- 2 ^ 63 <=? v) && (v <? 2 ^ 63).

(** A string that [not_line_ending] reads back whole. *)
Definition line_text (s : str) : bool :=
  forallb (fun c => negb ((c =? 13) || (c =? 10))) s.

(** A string that [take_till1(|c| c == ' ')] reads back whole. *)
Definition field_token (s : str) : bool :=
  negb (str_eqb s []) && forallb (fun c => negb (c =? 32)) s.

(** An optional value printed as the empty string when absent. *)
Definition opt_string {A} (f : A -> str) (o : option A) : str :=
  match o with Some a => f a | None => [] end.

(** The lines [<x>=<text>\r\n] of [i=], [u=], [e=] and [p=]. *)
Definition text_line (t : str) : Parser str str :=
  delimited (tag t) not_line_ending line_ending.

Module version.
(** [Version(pub u8)] *)
Definition Version := Z.
Definition to_string (v : Version) : str := lit "v=" ++ show_u v ++ crlf.
Definition version : Parser str Version :=
  span <- delimited (tag (lit "v=")) digit1 line_ending ;;
  unwrap (from_str_radix_u 8 span).
End version.

Module origin.
Record Origin := {
  username : str;
  session_id : Z;
  session_version : Z;
  network_type : str;
  address_type : str;
  unicast_address : str;
}.
Definition to_string (o : Origin) : str :=
  lit "o=" ++ o.(username) ++ [32] ++ show_u o.(session_id) ++ [32] ++
  show_u o.(session_version) ++ [32] ++ o.(network_type) ++ [32] ++
  o.(address_type) ++ [32] ++ o.(unicast_address) ++ crlf.
Definition origin : Parser str Origin :=
  username <- preceded (tag (lit "o=")) (take_till1 (fun c => c =? 32)) ;;
  span <- preceded (tag (lit " ")) digit1 ;;
  session_id <- unwrap (from_str_radix_u 64 span) ;;
  span <- preceded (tag (lit " ")) digit1 ;;
  session_version <- unwrap (from_str_radix_u 64 span) ;;
  network_type <- preceded (tag (lit " ")) (take_till1 (fun c => c =? 32)) ;;
  address_type <- preceded (tag (lit " ")) (take_till1 (fun c => c =? 32)) ;;
  unicast_address <- delimited (tag (lit " ")) not_line_ending line_ending ;;
  pret {| username := username; session_id := session_id;
          session_version := session_version; network_type := network_type;
          address_type := address_type; unicast_address := unicast_address |}.
End origin.

Module session_name.
(** [SessionName { name: Cow<str> }] *)
Definition SessionName := str.
Definition to_string (name : SessionName) : str := lit "s=" ++ name ++ crlf.
Definition session_name : Parser str SessionName := text_line (lit "s=").
End session_name.

Module session_information.
(** [SessionInformation(pub String)] *)
Definition to_string (s : str) : str := lit "i=" ++ s ++ crlf.
Definition session_information : Parser str str := text_line (lit "i=").
End session_information.

Module uri.
(** [URI(pub String)] *)
Definition to_string (s : str) : str := lit "u=" ++ s ++ crlf.
Definition uri : Parser str str := text_line (lit "u=").
End uri.

Module email_address.
(** [EmailAddress(pub String)] *)
Definition to_string (s : str) : str := lit "e=" ++ s ++ crlf.
Definition email_address : Parser str str := text_line (lit "e=").
End email_address.

Module phone_number.
(** [PhoneNumber(pub String)] *)
Definition to_string (s : str) : str := lit "p=" ++ s ++ crlf.
Definition phone_number : Parser str str := text_line (lit "p=").
End phone_number.

Module connection.
Record Connection := {
  network_type : str;
  address_type : str;
  connection_address : str;
}.
Definition to_string (c : Connection) : str :=
  lit "c=" ++ c.(network_type) ++ [32] ++ c.(address_type) ++ [32] ++
  c.(connection_address) ++ crlf.
Definition connection : Parser str Connection :=
  network_type <- preceded (tag (lit "c=")) (take_till1 (fun c => c =? 32)) ;;
  address_type <- preceded (tag (lit " ")) (take_till1 (fun c => c =? 32)) ;;
  connection_address <- delimited (tag (lit " ")) not_line_ending line_ending ;;
  pret {| network_type := network_type; address_type := address_type;
          connection_address := connection_address |}.
End connection.

Module bandwidth.
Inductive BandwidthType := CT | AS | Experimental (x : str).
(** [impl Display for BandwidthType]: [CT] and [AS] print their [Debug] name. *)
Definition bandwidth_type_to_string (t : BandwidthType) : str :=
  match t with
  | Experimental x => lit "X-" ++ x
  | CT => lit "CT"
  | AS => lit "AS"
  end.
Record Bandwidth := { typ : BandwidthType; value : Z }.
Definition to_string (b : Bandwidth) : str :=
  lit "b=" ++ bandwidth_type_to_string b.(typ) ++ lit ":" ++ show_u b.(value) ++ crlf.
Definition bandwidth_type : Parser str BandwidthType :=
  pmap (fun span => if str_eqb span (lit "CT") then CT
                    else if str_eqb span (lit "AS") then AS
                    else Experimental span)
    (preceded (tag (lit "b="))
       (alt2 (tag (lit "CT"))
          (alt2 (tag (lit "AS"))
             (preceded (tag (lit "X-")) (take_till1 (fun c => c =? 58)))))).
Definition bandwidth_value : Parser str Z :=
  s <- delimited (tag (lit ":")) digit1 line_ending ;;
  unwrap (from_str_radix_u 64 s).
Definition bandwidth : Parser str Bandwidth :=
  typ <- bandwidth_type ;; value <- bandwidth_value ;;
  pret {| typ := typ; value := value |}.
End bandwidth.

Module time_description.
Record Timing := { start_time : Z; stop_time : Z }.
Definition timing_to_string (t : Timing) : str :=
  lit "t=" ++ show_u t.(start_time) ++ [32] ++ show_u t.(stop_time) ++ crlf.
(** [timing] (renamed: [timing] is also the field of [TimeDescription]) *)
Definition parse_timing : Parser str Timing :=
  span <- preceded (tag (lit "t=")) digit1 ;;
  start_time <- unwrap (from_str_radix_u 64 span) ;;
  span <- delimited (tag (lit " ")) digit1 line_ending ;;
  stop_time <- unwrap (from_str_radix_u 64 span) ;;
  pret {| start_time := start_time; stop_time := stop_time |}.

Record Repeat := { interval : Z; active_duration : Z; offsets : list Z }.
Definition repeat_to_string (r : Repeat) : str :=
  lit "r=" ++ show_u r.(interval) ++ [32] ++ show_u r.(active_duration) ++
  flat_map (fun o => [32] ++ show_u o) r.(offsets) ++ crlf.
Definition offset : Parser str Z :=
  span <- preceded (tag (lit " ")) digit1 ;;
  unwrap (from_str_radix_u 64 span).
Definition repeat : Parser str Repeat :=
  span <- preceded (tag (lit "r=")) digit1 ;;
  interval <- unwrap (from_str_radix_u 64 span) ;;
  span <- preceded (tag (lit " ")) digit1 ;;
  active_duration <- unwrap (from_str_radix_u 64 span) ;;
  offsets <- terminated (many1 offset) line_ending ;;
  pret {| interval := interval; active_duration := active_duration; offsets := offsets |}.

Record TimeDescription := { timing : Timing; repeat_times : list Repeat }.
Definition base (timing : Timing) : TimeDescription :=
  {| timing := timing; repeat_times := [] |}.
Definition with_repeat_times (t : TimeDescription) (repeat_times : list Repeat) :=
  {| timing := t.(timing); repeat_times := repeat_times |}.
Definition and_repeat_time (t : TimeDescription) (repeat_time : Repeat) :=
  {| timing := t.(timing); repeat_times := t.(repeat_times) ++ [repeat_time] |}.
Definition to_string (t : TimeDescription) : str :=
  timing_to_string t.(timing) ++ flat_map repeat_to_string t.(repeat_times).
Definition time_description : Parser str TimeDescription :=
  timing <- parse_timing ;; repeat_times <- many0 repeat ;;
  pret {| timing := timing; repeat_times := repeat_times |}.
End time_description.

Module time_zone.
Record Adjustment := { time : Z; offset : Z }.
(** [impl Display for Adjustment]: the offset is printed in whole hours
    ([i64] division truncates toward zero). *)
Definition adjustment_to_string (a : Adjustment) : str :=
  let offset_hours := Z.quot a.(offset) 3600 in
  let units := if offset_hours =? 0 then [] else lit "h" in
  show_u a.(time) ++ [32] ++ show_i offset_hours ++ units.
(** [offset] (renamed: [offset] is also the field of [Adjustment]); the
    multiplication [offset *= ..] overflows with a panic. *)
Definition parse_offset : Parser str Z :=
  sign <- opt (one_of (lit "+-")) ;;
  value_span <- digit1 ;;
  units <- opt (one_of (lit "dhms")) ;;
  offset <- unwrap (from_str_radix_i64 sign value_span) ;;
  mult <- unwrap (match units with
                  | Some c =>
                      if c =? 100 then Some 86400 else if c =? 104 then Some 3600
                      else if c =? 109 then Some 60 else if c =? 115 then Some 1
                      else None                          (* unreachable!() *)
                  | None => Some 1
                  end) ;;
  unwrap (if i64_ok (offset * mult) then Some (offset * mult) else None).
Definition adjustment : Parser str Adjustment :=
  pr <- separated_pair digit1 (tag (lit " ")) parse_offset ;;
  let '(span, offset) := pr in
  time <- unwrap (from_str_radix_u 64 span) ;;
  pret {| time := time; offset := offset |}.
Record TimeZone := { adjustments : list Adjustment }.
(** [impl Display for TimeZone]: an empty list is a [fmt::Error], which
    makes [to_string] panic ([None]). *)
Definition to_string (t : TimeZone) : option str :=
  match t.(adjustments) with
  | [] => None
  | a :: rest =>
      Some (lit "z=" ++ adjustment_to_string a ++
            flat_map (fun a => [32] ++ adjustment_to_string a) rest ++ crlf)
  end.
Definition time_zone : Parser str TimeZone :=
  adjustments <- preceded (tag (lit "z="))
                   (many1 (terminated adjustment (alt2 (tag (lit " ")) line_ending))) ;;
  pret {| adjustments := adjustments |}.
End time_zone.

Module encryption_key.
Inductive RetrievalMethod := Base64 | Clear | Prompt | URI.
Definition method_to_string (m : RetrievalMethod) : str :=
  match m with
  | Base64 => lit "base64" | Clear => lit "clear"
  | Prompt => lit "prompt" | URI => lit "uri"
  end.
Record EncryptionKey := { method : RetrievalMethod; data : option str }.
Definition to_string (k : EncryptionKey) : str :=
  lit "k=" ++ method_to_string k.(method) ++
  match k.(data) with Some s => lit ":" ++ s | None => [] end ++ crlf.
Definition encryption_key : Parser str EncryptionKey :=
  pr <-
     delimited (tag (lit "k="))
       (m <- alt2 (tag (lit "base64")) (alt2 (tag (lit "clear"))
               (alt2 (tag (lit "prompt")) (tag (lit "uri")))) ;;
        d <- opt (preceded (tag (lit ":")) not_line_ending) ;;
        pret (m, d))
       line_ending ;;
  let '(method_span, data_opt) := pr in
  method <- unwrap (if str_eqb method_span (lit "base64") then Some Base64
                    else if str_eqb method_span (lit "clear") then Some Clear
                    else if str_eqb method_span (lit "prompt") then Some Prompt
                    else if str_eqb method_span (lit "uri") then Some URI
                    else None) ;;                     (* unreachable!() *)
  pret {| method := method; data := data_opt |}.
End encryption_key.

Module attribute.
Inductive Attribute := Property (p : str) | Value (k v : str).
Definition to_string (a : Attribute) : str :=
  match a with
  | Property p => lit "a=" ++ p ++ crlf
  | Value k v => lit "a=" ++ k ++ lit ":" ++ v ++ crlf
  end.
Definition property_attribute : Parser str Attribute :=
  pmap Property not_line_ending.
Definition value_attribute : Parser str Attribute :=
  k <- take_till1 (fun c => (c =? 58) || is_whitespace c) ;;
  v <- preceded (tag (lit ":")) not_line_ending ;;
  pret (Value k v).
Definition attribute : Parser str Attribute :=
  delimited (tag (lit "a=")) (alt2 value_attribute property_attribute) line_ending.
End attribute.

Module media_description.
Import connection bandwidth encryption_key attribute.
Inductive MediaType := Application | Audio | Message | Text | Video.
Definition media_type_to_string (t : MediaType) : str :=
  match t with
  | Application => lit "application" | Audio => lit "audio"
  | Message => lit "message" | Text => lit "text" | Video => lit "video"
  end.
Record Media := { typ : MediaType; port : Z; protocol : str; format : str }.
Definition media_to_string (m : Media) : str :=
  lit "m=" ++ media_type_to_string m.(typ) ++ [32] ++ show_u m.(port) ++ [32] ++
  m.(protocol) ++ [32] ++ m.(format) ++ crlf.
(** [media] (renamed: [media] is also the field of [MediaDescription]) *)
Definition parse_media : Parser str Media :=
  span <- preceded (tag (lit "m="))
            (alt2 (tag (lit "application")) (alt2 (tag (lit "audio"))
              (alt2 (tag (lit "message")) (alt2 (tag (lit "text")) (tag (lit "video")))))) ;;
  typ <- unwrap (if str_eqb span (lit "application") then Some Application
                 else if str_eqb span (lit "audio") then Some Audio
                 else if str_eqb span (lit "message") then Some Message
                 else if str_eqb span (lit "text") then Some Text
                 else if str_eqb span (lit "video") then Some Video
                 else None) ;;                        (* unreachable!() *)
  span <- preceded (tag (lit " ")) digit1 ;;
  port <- unwrap (from_str_radix_u 64 span) ;;
  protocol <- preceded (tag (lit " ")) (take_till1 (fun c => c =? 32)) ;;
  format <- delimited (tag (lit " ")) not_line_ending line_ending ;;
  pret {| typ := typ; port := port; protocol := protocol; format := format |}.

Record MediaDescription := {
  media : Media;
  title : option str;
  connection : option Connection;
  bandwidths : list Bandwidth;
  encryption_key : option EncryptionKey;
  attributes : list Attribute;
}.
Definition base (media : Media) : MediaDescription :=
  {| media := media; title := None; connection := None; bandwidths := [];
     encryption_key := None; attributes := [] |}.
Definition and_attribute (m : MediaDescription) (a : Attribute) : MediaDescription :=
  {| media := m.(media); title := m.(title); connection := m.(connection);
     bandwidths := m.(bandwidths); encryption_key := m.(encryption_key);
     attributes := m.(attributes) ++ [a] |}.
Definition to_string (m : MediaDescription) : str :=
  media_to_string m.(media) ++
  opt_string session_information.to_string m.(title) ++
  opt_string connection.to_string m.(connection) ++
  flat_map bandwidth.to_string m.(bandwidths) ++
  opt_string encryption_key.to_string m.(encryption_key) ++
  flat_map attribute.to_string m.(attributes).
Definition media_description : Parser str MediaDescription :=
  media <- parse_media ;;
  title <- opt session_information.session_information ;;
  connection <- opt connection.connection ;;
  bandwidths <- many0 bandwidth.bandwidth ;;
  encryption_key <- opt encryption_key.encryption_key ;;
  attributes <- many0 attribute.attribute ;;
  pret {| media := media; title := title; connection := connection;
          bandwidths := bandwidths; encryption_key := encryption_key;
          attributes := attributes |}.
End media_description.

Module session_description.
Import version origin connection bandwidth time_description time_zone encryption_key
  attribute media_description.
Record SessionDescription := {
  version : Version;
  origin : Origin;
  session_name : str;
  session_information : option str;
  uri : option str;
  email_addresses : list str;
  phone_numbers : list str;
  connection : option Connection;
  bandwidths : list Bandwidth;
  time_description : TimeDescription;
  time_zone : option TimeZone;
  encryption_key : option EncryptionKey;
  attributes : list Attribute;
  media_descriptions : list MediaDescription;
}.

Definition base (version : Version) (origin : Origin) (session_name : str)
    (time_description : TimeDescription) : SessionDescription :=
  {| version := version; origin := origin; session_name := session_name;
     session_information := None; uri := None; email_addresses := [];
     phone_numbers := []; connection := None; bandwidths := [];
     time_description := time_description; time_zone := None;
     encryption_key := None; attributes := []; media_descriptions := [] |}.

Definition set_time_zone (s : SessionDescription) (t : option TimeZone) :=
  {| version := s.(version); origin := s.(origin); session_name := s.(session_name);
     session_information := s.(session_information); uri := s.(uri);
     email_addresses := s.(email_addresses); phone_numbers := s.(phone_numbers);
     connection := s.(connection); bandwidths := s.(bandwidths);
     time_description := s.(time_description); time_zone := t;
     encryption_key := s.(encryption_key); attributes := s.(attributes);
     media_descriptions := s.(media_descriptions) |}.

Definition with_attributes (s : SessionDescription) (attributes : list Attribute) :=
  {| version := s.(version); origin := s.(origin); session_name := s.(session_name);
     session_information := s.(session_information); uri := s.(uri);
     email_addresses := s.(email_addresses); phone_numbers := s.(phone_numbers);
     connection := s.(connection); bandwidths := s.(bandwidths);
     time_description := s.(time_description); time_zone := s.(time_zone);
     encryption_key := s.(encryption_key); attributes := attributes;
     media_descriptions := s.(media_descriptions) |}.

(** [impl Display for SessionDescription]; [None] when [to_string] of the
    time zone panics. *)
Definition to_string (s : SessionDescription) : option str :=
  let? time_zone_string :=
    match s.(time_zone) with Some t => time_zone.to_string t | None => Some [] end in
  Some (version.to_string s.(version) ++
        origin.to_string s.(origin) ++
        session_name.to_string s.(session_name) ++
        opt_string session_information.to_string s.(session_information) ++
        opt_string uri.to_string s.(uri) ++
        flat_map email_address.to_string s.(email_addresses) ++
        flat_map phone_number.to_string s.(phone_numbers) ++
        opt_string connection.to_string s.(connection) ++
        flat_map bandwidth.to_string s.(bandwidths) ++
        time_description.to_string s.(time_description) ++
        time_zone_string ++
        opt_string encryption_key.to_string s.(encryption_key) ++
        flat_map attribute.to_string s.(attributes) ++
        flat_map media_description.to_string s.(media_descriptions)).

Definition session_description : Parser str SessionDescription :=
  version <- version.version ;;
  origin <- origin.origin ;;
  session_name <- session_name.session_name ;;
  session_information <- opt session_information.session_information ;;
  uri <- opt uri.uri ;;
  email_addresses <- many0 email_address.email_address ;;
  phone_numbers <- many0 phone_number.phone_number ;;
  connection <- opt connection.connection ;;
  bandwidths <- many0 bandwidth.bandwidth ;;
  time_description <- time_description.time_description ;;
  time_zone <- opt time_zone.time_zone ;;
  encryption_key <- opt encryption_key.encryption_key ;;
  attributes <- many0 attribute.attribute ;;
  media_descriptions <- many0 media_description.media_description ;;
  pret {| version := version; origin := origin; session_name := session_name;
          session_information := session_information; uri := uri;
          email_addresses := email_addresses; phone_numbers := phone_numbers;
          connection := connection; bandwidths := bandwidths;
          time_description := time_description; time_zone := time_zone;
          encryption_key := encryption_key; attributes := attributes;
          media_descriptions := media_descriptions |}.

(** [SessionDescription::from_str]: [POk [] x] is [Ok(x)], [PErr] is
    [Err(InvalidSessionDescription)]. *)
Definition from_str (s : str) : PRes str SessionDescription :=
  all_consuming session_description s.
End session_description.

End Sdp.

(** ** ICE candidates: the candidate grammar of [ice/src/lib.rs] *)

Module IceCandidate.
Import Sdp Stdlib.Strings.String.

(** nom's [recognize]: the consumed part of the input. *)
Definition recognize {A} (p : Parser str A) : Parser str str :=
  fun i =>
    match p i with
    | POk r _ => POk r (firstn (List.length i - List.length r) i)
    | PErr => PErr
    | PIncomplete => PIncomplete
    | PPanic => PPanic
    end.

(** nom's [many_m_n(m, n, p)]: at most [n] items; an error before the
    [m]-th item is an error; a parser that made no progress is refused. *)
Fixpoint many_m_n {A} (m n : nat) (p : Parser str A) (i : str) : PRes str (list A) :=
  match n with
  | O => POk i []
  | S n' =>
      match p i with
      | POk i1 o =>
          if Nat.eqb (List.length i1) (List.length i) then PErr
          else match many_m_n (m - 1) n' p i1 with
               | POk r os => POk r (o :: os)
               | PErr => PErr
               | PIncomplete => PIncomplete
               | PPanic => PPanic
               end
      | PErr => if (0 <? m)%nat then PErr else POk i []
      | PIncomplete => PIncomplete
      | PPanic => PPanic
      end
  end.

(** nom's [count(p, n)] *)
Fixpoint count {A} (p : Parser str A) (n : nat) : Parser str (list A) :=
  match n with
  | O => pret []
  | S n' => x <- p ;; xs <- count p n' ;; pret (x :: xs)
  end.

Definition pair {A B} (p : Parser str A) (q : Parser str B) : Parser str (A * B) :=
  x <- p ;; y <- q ;; pret (x, y).

(** nom's [char(c)] *)
Definition char (c : Z) : Parser str Z :=
  fun i => match i with d :: r => if d =? c then POk r c else PErr | [] => PErr end.

(** nom's [none_of] *)
Definition none_of (cs : str) : Parser str Z :=
  fun i =>
    match i with
    | c :: r => if existsb (Z.eqb c) cs then PErr else POk r c
    | [] => PErr
    end.

(** The [Err] of the closure of [map_res] is a parse error. *)
Definition map_res_opt {A} (o : option A) : Parser str A :=
  fun i => match o with Some a => POk i a | None => PErr end.

(** [char::is_ascii_alphanumeric], the test of [alphanumeric1]. *)
Definition is_alphanum (c : Z) : bool :=
  ((48 <=? c) && (c <=? 57)) || ((65 <=? c) && (c <=? 90)) || ((97 <=? c) && (c <=? 122)).

(** [alphanumeric1] *)
Definition alphanumeric1 : Parser str str := take_till1 (fun c => negb (is_alphanum c)).

Definition ICE_CHARS : str :=
  lit "abcdefghijklmnopqrstuvwxyzABCDEFGHIJKLMNOPQRSTUVWXYZ1234567890+/".

(** [one_of(ICE_CHARS)] with [ICE_CHARS: &[u8]]: nom's
    [FindToken<char> for &[u8]] looks the character up as [token as u8]. *)
Definition one_of_ice_char : Parser str Z :=
  fun i =>
    match i with
    | c :: r => if existsb (Z.eqb (c mod 256)) ICE_CHARS then POk r c else PErr
    | [] => PErr
    end.

(** [Foundation(String)] *)
Definition Foundation := str.

Definition foundation : Parser str Foundation :=
  terminated (many_m_n 1 32 one_of_ice_char) (char 32).

(** [ComponentId(u16)] *)
Definition component_id : Parser str Z :=
  digits <- terminated (recognize (many_m_n 1 5 digit1)) (char 32) ;;
  map_res_opt (from_str_radix_u 16 digits).

Definition token : Parser str str :=
  recognize (many1 (alt2 alphanumeric1 (recognize (many1 (one_of (lit "-.!%*_+`'~")))))).

(** An ASCII [&str] as a Rocq string. *)
Fixpoint to_string (s : str) : String.string :=
  match s with
  | [] => String.EmptyString
  | c :: s' => String.String (Ascii.ascii_of_N (Z.to_N c)) (to_string s')
  end.

Definition transport : Parser str Ice.Transport :=
  t <- terminated token (char 32) ;;
  map_res_opt (match Ice.Transport_from_str (to_string t) with
               | Ice.Ok v => Some v
               | Ice.Err _ => None
               end).

(** [Priority(u32)] *)
Definition priority : Parser str Z :=
  digits <- terminated (recognize (many_m_n 1 10 digit1)) (char 32) ;;
  map_res_opt (from_str_radix_u 32 digits).

(** Splits a string at every [c]. *)
Fixpoint split_on (c : Z) (s : str) : list str :=
  match s with
  | [] => [[]]
  | d :: s' =>
      if d =? c then [] :: split_on c s'
      else match split_on c s' with
           | w :: ws => (d :: w) :: ws
           | [] => [[d]]
           end
  end.

(** An octet of [Ipv4Addr::from_str]: one to three digits, no leading
    zero, at most 255. *)
Definition ipv4_octet (ds : str) : option Z :=
  match ds with
  | [] => None
  | d :: rest =>
      if forallb is_digit ds && (List.length ds <=? 3)%nat
         && negb ((d =? 48) && negb (Nat.eqb (List.length rest) 0))
      then from_str_radix_u 8 ds
      else None
  end.

(** [IpAddr::from_str] on a string of digits and dots: the IPv6 parser
    needs a colon and fails on it, the IPv4 parser reads four octets. *)
Definition ipv4_from_str (s : str) : option Z :=
  match split_on 46 s with
  | [a; b; c; d] =>
      let? a := ipv4_octet a in let? b := ipv4_octet b in
      let? c := ipv4_octet c in let? d := ipv4_octet d in
      Some (a * 2 ^ 24 + b * 2 ^ 16 + c * 2 ^ 8 + d)
  | _ => None
  end.

Definition ipv4_address : Parser str Stun.IpAddr :=
  addr <- recognize (pair (count (terminated digit1 (char 46)) 3) digit1) ;;
  map_res_opt (match ipv4_from_str addr with Some a => Some (Stun.V4 a) | None => None end).

Definition port : Parser str Z :=
  digits <- recognize (many_m_n 1 5 digit1) ;;
  map_res_opt (from_str_radix_u 16 digits).

Definition connection_address_and_port : Parser str Ice.SocketAddr :=
  a <- terminated ipv4_address (char 32) ;;
  p <- terminated port (char 32) ;;
  pret {| Ice.ip := a; Ice.port := p |}.

(** [impl FromStr for CandidateType] *)
Definition CandidateType_from_str (token : String.string) : Ice.result Ice.CandidateType Ice.Error :=
  if String.eqb token "host"%string then Ice.Ok Ice.Host
  else if String.eqb token "srflx"%string then Ice.Ok Ice.ServerReflexive
  else if String.eqb token "relay"%string then Ice.Ok Ice.Relayed
  else if String.eqb token "prflx"%string then Ice.Ok Ice.PeerReflexive
  else Ice.Err (Ice.UnsupportedCandidateType token).

Definition candidate_type : Parser str Ice.CandidateType :=
  t <- preceded (tag (lit "typ ")) token ;;
  map_res_opt (match CandidateType_from_str (to_string t) with
               | Ice.Ok v => Some v
               | Ice.Err _ => None
               end).

Definition related_address_and_port : Parser str Ice.SocketAddr :=
  a <- preceded (tag (lit " raddr ")) ipv4_address ;;
  p <- preceded (tag (lit " rport ")) port ;;
  pret {| Ice.ip := a; Ice.port := p |}.

(** [ExtensionAttribute(String, String)] *)
Definition extension_attribute : Parser str (str * str) :=
  pair (preceded (char 32) (many1 (none_of [32; 13; 10])))
       (preceded (char 32) (many1 (none_of [32; 13; 10]))).

(** [candidate], with [RemoteCandidate::from_tuple]. *)
Definition candidate : Parser str Ice.RemoteCandidate :=
  _ <- foundation ;;
  _ <- component_id ;;
  _ <- transport ;;
  _ <- priority ;;
  address <- connection_address_and_port ;;
  ty <- candidate_type ;;
  _ <- opt related_address_and_port ;;
  _ <- many0 extension_attribute ;;
  pret {| Ice.address := address; Ice.ty := ty |}.

(** [impl FromStr for RemoteCandidate]; [None] is
    [Err(Error::InvalidCandidate(..))], whose message (nom's error text)
    is not modelled. *)
Definition RemoteCandidate_from_str (s : str) : option Ice.RemoteCandidate :=
  match all_consuming candidate s with POk _ c => Some c | _ => None end.

Definition candidate_attribute : Parser str Ice.RemoteCandidate :=
  delimited (tag (lit "a=candidate:")) candidate (tag crlf).

(** [impl TryFrom<sdp::Attribute> for RemoteCandidate]; [None] as in
    [RemoteCandidate_from_str]. *)
Definition RemoteCandidate_try_from (a : attribute.Attribute) : option Ice.RemoteCandidate :=
  match all_consuming candidate_attribute (attribute.to_string a) with
  | POk _ c => Some c
  | _ => None
  end.

(** [Display for Ipv4Addr] *)
Definition ipv4_to_string (a : Z) : str :=
  show_u (Z.shiftr a 24) ++ lit "." ++ show_u (Z.land (Z.shiftr a 16) 255) ++ lit "."
  ++ show_u (Z.land (Z.shiftr a 8) 255) ++ lit "." ++ show_u (Z.land a 255).

(** [encode_as_sdp]; [None] for an IPv6 address, whose [Display] is not
    modelled. *)
Definition encode_as_sdp (foundation : Z) (candidate : Ice.SocketAddr) : option attribute.Attribute :=
  let component_id := 1 in
  let ip_precedence := 65535 in
  let priority := 2 ^ 24 * 126 + 2 ^ 8 * ip_precedence + 256 - component_id in
  match candidate.(Ice.ip) with
  | Stun.V4 a =>
      let v := show_u foundation ++ lit " " ++ show_u component_id ++ lit " " ++ lit "udp"
               ++ lit " " ++ show_u priority ++ lit " " ++ ipv4_to_string a ++ lit " "
               ++ show_u candidate.(Ice.port) ++ lit " typ host" in
      Some (attribute.Value (lit "candidate") v)
  | Stun.V6 _ => None
  end.

(** [Agent::candidate_attributes]: the local candidates, numbered from 0. *)
Fixpoint encode_all (f : Z) (cs : list Ice.LocalCandidate) : option (list attribute.Attribute) :=
  match cs with
  | [] => Some []
  | c :: cs' =>
      let? a := encode_as_sdp f c.(Ice.local_address) in
      let? rest := encode_all (f + 1) cs' in
      Some (a :: rest)
  end.

Definition candidate_attributes (self : Ice.Agent) : option (list attribute.Attribute) :=
  encode_all 0 self.(Ice.local_candidates).

End IceCandidate.

(** * Properties *)

Definition pres_map {I A B} (f : A -> B) (r : PRes I A) : PRes I B :=
  match r with
  | POk i a => POk i (f a)
  | PErr => PErr
  | PIncomplete => PIncomplete
  | PPanic => PPanic
  end.

Module StunFacts.
Import Stun.

Lemma sha1_length (bs : list byte) : List.length (Crypto.sha1 bs) = 20%nat.
Proof.
  unfold Crypto.sha1, Crypto.sha1_z.
  destruct (fold_left _ _ _) as [[[[h0 h1] h2] h3] h4].
  rewrite !length_map, !length_app, !to_be_bytes_length. reflexivity.
Qed.

Lemma hmac_sha1_length (k m : list byte) : List.length (Crypto.hmac_sha1 k m) = 20%nat.
Proof. unfold Crypto.hmac_sha1. apply sha1_length. Qed.

Definition h0 : Header :=
  {| class := Request; method := Binding; length := 0; transaction_id := repeat x00 12 |}.

(** The bytes of [h0] followed by a PRIORITY attribute. *)
Definition c2_input : list byte :=
  header_to_bytes h0 ++ [x00; x24; x00; x04; xde; xad; xbe; xef].

(** ** C2 *)

(** C2 (counterexample): the header of [c2_input] declares an empty
    attribute section, yet the parser reads the eight bytes that follow
    as a PRIORITY attribute and returns an empty remainder. *)
Lemma message_reads_past_declared_length :
  message c2_input = POk [] {| header := h0; attributes := [Priority 0xDEADBEEF] |}.
Proof. vm_compute. reflexivity. Qed.

(** C2 (amended): the message parser does not use the header's length
    field: changing the two length bytes of the input changes only the
    [length] of the parsed header; the attributes read and the remainder
    returned (and every failure) are the same. *)
Theorem message_ignores_length_field (b0 b1 l0 l1 l0' l1' : byte) (rest : list byte) :
  message (b0 :: b1 :: l0 :: l1 :: rest) =
  pres_map (fun m => set_length m (bval l0 * 256 + bval l1))
           (message (b0 :: b1 :: l0' :: l1' :: rest)).
Proof.
  unfold message, parse_header, message_type_field, pbind.
  change (take_bytes 2 (b0 :: b1 :: ?l :: ?l' :: rest)) with (POk (l :: l' :: rest) [b0; b1] : PRes (list byte) (list byte)).
  cbn -[many0 attribute tag_bytes to_be_bytes message_type bval take_bytes].
  destruct (message_type [b0; b1]) as [? [c m]| | |]; try reflexivity.
  cbn -[many0 attribute tag_bytes to_be_bytes bval take_bytes].
  match goal with |- context [tag_bytes ?t rest] => destruct (tag_bytes t rest) as [r1 ?| | |] end;
    try reflexivity.
  destruct (take_bytes 12 r1) as [r2 tid| | |]; try reflexivity.
  cbn -[many0 attribute].
  destruct (many0 attribute r2) as [r3 attrs| | |]; reflexivity.
Qed.


(** ** C3 *)

(** C3 (code_bug): [with_fingerprint] adds 36 to the length field, while
    the FINGERPRINT attribute it appends serializes to 8 bytes; the stored
    value is the CRC-32 of the serialization with that length, XORed with
    0x5354554E. *)
Theorem with_fingerprint_adds_36 (m : Message) (bs : list byte) :
  m.(header).(length) + 36 < 65536 ->
  message_to_bytes (set_length m (m.(header).(length) + 36)) = Some bs ->
  with_fingerprint m =
    Some (set_attributes (set_length m (m.(header).(length) + 36))
            (m.(attributes) ++
             [Fingerprint (Z.lxor (Crypto.checksum_ieee bs) FINGERPRINT_COOKIE)]))
  /\ option_map (@List.length byte)
       (attribute_to_bytes (Fingerprint (Z.lxor (Crypto.checksum_ieee bs) FINGERPRINT_COOKIE)))
     = Some 8%nat.
Proof.
  intros Hlen Hbs. split.
  - unfold with_fingerprint, u16_add.
    rewrite (proj2 (Z.ltb_lt _ _) Hlen), Hbs. reflexivity.
  - reflexivity.
Qed.

Lemma with_fingerprint_adds_36_witness :
  with_fingerprint (base h0) =
    Some (set_attributes (set_length (base h0) 36)
            [Fingerprint (Z.lxor (Crypto.checksum_ieee
                                    (header_to_bytes (set_length (base h0) 36).(header)))
                                 FINGERPRINT_COOKIE)])
  /\ option_map (@List.length byte)
       (attribute_to_bytes
          (Fingerprint (Z.lxor (Crypto.checksum_ieee
                                  (header_to_bytes (set_length (base h0) 36).(header)))
                               FINGERPRINT_COOKIE)))
     = Some 8%nat.
Proof.
  apply (with_fingerprint_adds_36 (base h0)
           (header_to_bytes (set_length (base h0) 36).(header))).
  - vm_compute. reflexivity.
  - reflexivity.
Defined.

(** ** C4 *)

Definition knuth : list byte := [x6b; x6e; x75; x74; x68].

(** C4 (code_bug): [with_attributes] adds up the serialized lengths of
    the attributes the message held before the call, not of the new ones;
    on [base h] that adds nothing, and [with_message_integrity] then yields
    [h.length + 24] (24 for a zero-length header, not 36). *)
Theorem knuth_integrity_length (h : Header) (k : list byte) :
  h.(length) + 24 < 65536 ->
  option_map (fun m => m.(header).(length))
    (let? m := with_attributes (base h) [Username knuth] in
     with_message_integrity m k)
  = Some (h.(length) + 24).
Proof.
  intros Hlen.
  unfold with_attributes, with_message_integrity, u16_add. simpl.
  rewrite (proj2 (Z.ltb_lt _ _) Hlen). reflexivity.
Qed.

Lemma knuth_integrity_length_witness :
  0 + 24 < 65536 /\
  option_map (fun m => m.(header).(length))
    (let? m := with_attributes (base h0) [Username knuth] in
     with_message_integrity m [])
  = Some 24.
Proof.
  split; [lia|].
  apply (knuth_integrity_length h0 []). vm_compute. reflexivity.
Defined.

(** ** C5 *)

(** C5: on a message with a zero length field and no attributes,
    [with_message_integrity k] sets the length to 24 and appends one
    MESSAGE-INTEGRITY attribute: the 20-byte HMAC-SHA1, keyed with [k], of
    the serialization of the message whose length field is already 24. *)
Theorem with_message_integrity_base (h : Header) (k : list byte) :
  h.(length) = 0 ->
  exists bs,
    message_to_bytes (set_length (base h) 24) = Some bs /\
    with_message_integrity (base h) k =
      Some {| header := (set_length (base h) 24).(header);
              attributes := [MessageIntegrity (Crypto.hmac_sha1 k bs)] |} /\
    List.length (Crypto.hmac_sha1 k bs) = 20%nat.
Proof.
  intros H0.
  exists (header_to_bytes (set_length (base h) 24).(header)).
  split; [|split].
  - unfold message_to_bytes. simpl. rewrite app_nil_r. reflexivity.
  - unfold with_message_integrity, u16_add. simpl. rewrite H0. simpl.
    rewrite app_nil_r. reflexivity.
  - apply hmac_sha1_length.
Qed.

Lemma with_message_integrity_base_witness :
  exists bs,
    message_to_bytes (set_length (base h0) 24) = Some bs /\
    with_message_integrity (base h0) [x6b; x65; x79] =
      Some {| header := (set_length (base h0) 24).(header);
              attributes := [MessageIntegrity (Crypto.hmac_sha1 [x6b; x65; x79] bs)] |} /\
    List.length (Crypto.hmac_sha1 [x6b; x65; x79] bs) = 20%nat.
Proof. apply (with_message_integrity_base h0). reflexivity. Defined.

(** ** C8 *)

(** The header of [h0] with the method field set to 0x002. *)
Definition c8_method_input : list byte :=
  [x00; x02; x00; x00; x21; x12; xa4; x42] ++ repeat x00 12.

(** A USERNAME attribute holding the single byte 0xFF (not UTF-8). *)
Definition c8_username_input : list byte :=
  header_to_bytes h0 ++ [x00; x06; x00; x01; xff; x00; x00; x00].

(** A FINGERPRINT attribute declaring a 2-byte value. *)
Definition c8_fingerprint_input : list byte :=
  header_to_bytes h0 ++ [x80; x28; x00; x02; xde; xad; x00; x00].

(** C8 (code_bug): the message parser panics, instead of returning an
    error, on an unknown method, on a USERNAME that is not UTF-8 and on a
    FINGERPRINT shorter than 4 bytes. *)
Theorem message_panics_on_malformed_input :
  message c8_method_input = PPanic /\
  message c8_username_input = PPanic /\
  message c8_fingerprint_input = PPanic.
Proof. vm_compute. repeat split. Qed.

End StunFacts.

Module StunTlvFacts.
Import Stun StunTlv.

Definition round4 (z : Z) : Z := (z + 3) / 4 * 4.

Lemma pad_round (n : nat) :
  Z.of_nat (n + (4 - n mod 4) mod 4) = round4 (Z.of_nat n).
Proof.
  unfold round4.
  pose proof (Nat.div_mod n 4%nat ltac:(lia)) as Hd.
  pose proof (Nat.mod_upper_bound n 4%nat ltac:(lia)) as Hr.
  destruct (n mod 4)%nat as [|[|[|[|r]]]] eqn:E; [| | | | lia]; simpl.
  - rewrite <- (Z.div_unique_pos (Z.of_nat n + 3) 4 (Z.of_nat (n / 4)%nat) 3) by lia. lia.
  - rewrite <- (Z.div_unique_pos (Z.of_nat n + 3) 4 (Z.of_nat (n / 4)%nat + 1) 0) by lia. lia.
  - rewrite <- (Z.div_unique_pos (Z.of_nat n + 3) 4 (Z.of_nat (n / 4)%nat + 1) 1) by lia. lia.
  - rewrite <- (Z.div_unique_pos (Z.of_nat n + 3) 4 (Z.of_nat (n / 4)%nat + 1) 2) by lia. lia.
Qed.

Lemma pad4_length (v : list byte) :
  Z.of_nat (List.length (pad4 v)) = round4 (Z.of_nat (List.length v)).
Proof. unfold pad4. rewrite length_app, repeat_length. apply pad_round. Qed.

Lemma from_to_be_bytes_2 (n : Z) :
  0 <= n < 65536 -> from_be_bytes (to_be_bytes 2 n) = n.
Proof.
  intros Hn. unfold from_be_bytes. simpl.
  rewrite !bval_zbyte, Z.shiftr_div_pow2 by lia.
  change (2 ^ 8) with 256. Z.div_mod_to_equations. lia.
Qed.

Lemma header_fields (t len : Z) (v : list byte) :
  firstn 2 (skipn 2 (to_be_bytes 2 t ++ to_be_bytes 2 len ++ v)) = to_be_bytes 2 len.
Proof. reflexivity. Qed.

Lemma to_bytes_shape {A} `{Tlv A} (a : A) (bs : list byte) :
  to_bytes a = Some bs ->
  exists v len, value a = Some v /\ tlv_length a = Some len /\
    bs = to_be_bytes 2 (typ a) ++ to_be_bytes 2 len ++ v.
Proof.
  unfold to_bytes. destruct (value a) as [v|]; [|discriminate].
  destruct (tlv_length a) as [len|]; [|discriminate].
  intros E. injection E as <-. eauto.
Qed.

Lemma u16_of_len_some (n : nat) (z : Z) :
  u16_of_len n = Some z -> z = Z.of_nat n /\ z < 65536.
Proof.
  unfold u16_of_len. destruct (Z.of_nat n <? 65536) eqn:E; [|discriminate].
  intros H; injection H as <-. apply Z.ltb_lt in E. lia.
Qed.


(** A COMPREHENSION-OPTIONAL value is written without padding; the
    property below is stated for values whose length is a multiple of 4. *)
Definition co_padded (a : Attribute) : Prop :=
  match a with
  | AComprehensionOptional (MkComprehensionOptional _ v) => (List.length v mod 4 = 0)%nat
  | _ => True
  end.

Lemma tlv_frame (t len : Z) (v : list byte) :
  0 <= len < 65536 -> Z.of_nat (List.length v) = round4 len ->
  Z.of_nat (List.length (to_be_bytes 2 t ++ to_be_bytes 2 len ++ v)) = 4 + round4 len /\
  from_be_bytes (firstn 2 (skipn 2 (to_be_bytes 2 t ++ to_be_bytes 2 len ++ v))) = len.
Proof.
  intros Hr Hv. rewrite header_fields, from_to_be_bytes_2 by exact Hr.
  rewrite !length_app, !to_be_bytes_length. split; [lia | reflexivity].
Qed.

(** C6 (corrected): for every attribute of the [Tlv] version whose
    [to_bytes] does not panic, other than a COMPREHENSION-OPTIONAL value of
    a length that is not a multiple of 4, [to_bytes] has length
    [4 + round4 (length a)] and its 16-bit length field decodes to the
    unrounded [length a]; USE-CANDIDATE too. *)
Theorem tlv_to_bytes_length :
  (forall (a : Attribute) (bs : list byte),
     wf_attribute a -> co_padded a -> to_bytes a = Some bs ->
     exists len, tlv_length a = Some len /\
       Z.of_nat (List.length bs) = 4 + round4 len /\
       from_be_bytes (firstn 2 (skipn 2 bs)) = len) /\
  (forall bs : list byte, to_bytes MkUseCandidate = Some bs ->
     exists len, tlv_length MkUseCandidate = Some len /\
       Z.of_nat (List.length bs) = 4 + round4 len /\
       from_be_bytes (firstn 2 (skipn 2 bs)) = len).
Proof.
  split.
  - intros a bs Hwf Hco Hbs.
    destruct (to_bytes_shape a bs Hbs) as (v & len & Hv & Hl & ->).
    exists len. split; [exact Hl|]. apply tlv_frame.
    + destruct a as [[t w]|[c r]|[f]|[b]|[p]|[s]|[[ad|ad] port]]; simpl in Hl, Hv;
        first [ discriminate | injection Hl as <-; lia
              | apply u16_of_len_some in Hl; lia
              | cbn in Hl; first [injection Hl as <-; lia | apply u16_of_len_some in Hl; lia] ].
    + destruct a as [[t w]|[c r]|[f]|[b]|[p]|[s]|[[ad|ad] port]]; simpl in Hl, Hv; cbv beta iota delta [wf_attribute co_padded] in Hwf, Hco;
        try discriminate; injection Hv as <-.
      * apply u16_of_len_some in Hl as [-> _].
        rewrite <- pad_round, Hco. simpl. rewrite Nat.add_0_r. reflexivity.
      * apply u16_of_len_some in Hl as [-> _].
        rewrite pad4_length. cbn [List.length app]. reflexivity.
      * injection Hl as <-. reflexivity.
      * injection Hl as <-. rewrite Hwf. reflexivity.
      * injection Hl as <-. reflexivity.
      * apply u16_of_len_some in Hl as [-> _]. apply pad4_length.
      * cbn in Hl |- *. injection Hl as <-. reflexivity.
  - intros bs Hbs. injection Hbs as <-. exists 0. repeat split.
Qed.

Lemma tlv_to_bytes_length_witness :
  exists len, tlv_length (AUsername (MkUsername [x6b; x6e; x75; x74; x68])) = Some len /\
    Z.of_nat (List.length [x00; x06; x00; x05; x6b; x6e; x75; x74; x68; x00; x00; x00]) =
      4 + round4 len /\
    from_be_bytes (firstn 2 (skipn 2
      [x00; x06; x00; x05; x6b; x6e; x75; x74; x68; x00; x00; x00])) = len.
Proof.
  apply (proj1 tlv_to_bytes_length); [exact I | exact I | vm_compute; reflexivity].
Defined.

(** C6 counterexamples: a one-byte COMPREHENSION-OPTIONAL value is
    written as 5 bytes, not 4 + 4; an IPv6 XOR-MAPPED-ADDRESS panics. *)
Lemma tlv_to_bytes_length_counterexample :
  to_bytes (AComprehensionOptional (MkComprehensionOptional 0x8022 [xaa]))
    = Some [x80; x22; x00; x01; xaa] /\
  tlv_length (AComprehensionOptional (MkComprehensionOptional 0x8022 [xaa])) = Some 1 /\
  4 + round4 1 = 8 /\
  to_bytes (AXorMappedAddress (MkXorMappedAddress (V6 1) 3478)) = None.
Proof. vm_compute. repeat split. Qed.

End StunTlvFacts.

Module IceFacts.
Import Stun Ice Stdlib.Strings.String.

(** A Binding Indication carrying USERNAME "a". *)
Definition c7_input : list byte :=
  [x00; x11; x00; x08; x21; x12; xa4; x42] ++ repeat x00 12 ++
  [x00; x06; x00; x01; x61; x00; x00; x00].

Definition c7_src : SocketAddr := {| ip := V4 0xC0A80002; port := 50000 |}.

(** C7 (code_bug): the responder skips a message only when its method is
    not Binding AND its class is not Request; a Binding Indication with a
    USERNAME attribute is answered. *)
Theorem responder_replies_to_indication :
  (exists rest m, message c7_input = POk rest m /\
     m.(header).(class) = Indication /\ m.(header).(method) = Binding) /\
  exists reply, udp_listener_step [x70; x77] c7_input c7_src = Send reply c7_src.
Proof.
  split.
  - vm_compute. eauto.
  - vm_compute. eauto.
Qed.

(** C9 (corrected): [Transport::from_str] accepts exactly the tokens
    "udp", "UDP", "tcp" and "TCP"; every other token, "Udp" among them,
    fails with [UnsupportedTransport]. *)
Theorem transport_from_str_spec (token : String.string) :
  (Transport_from_str token = Ok Udp <->
     token = "udp"%string \/ token = "UDP"%string) /\
  (Transport_from_str token = Ok Tcp <->
     token = "tcp"%string \/ token = "TCP"%string) /\
  (Transport_from_str token = Err (UnsupportedTransport token) <->
     ~ In token ["udp"%string; "UDP"%string; "tcp"%string; "TCP"%string]).
Proof.
  unfold Transport_from_str.
  destruct (String.eqb_spec token "udp"%string) as [->|H1]; [simpl; intuition congruence|].
  destruct (String.eqb_spec token "UDP"%string) as [->|H2]; [simpl; intuition congruence|].
  destruct (String.eqb_spec token "tcp"%string) as [->|H3]; [simpl; intuition congruence|].
  destruct (String.eqb_spec token "TCP"%string) as [->|H4]; [simpl; intuition congruence|].
  simpl. intuition congruence.
Qed.

(** C9 counterexample: "Udp" is refused. *)
Lemma transport_from_str_mixed_case :
  Transport_from_str "Udp"%string = Err (UnsupportedTransport "Udp"%string) /\
  Transport_from_str "tcP"%string = Err (UnsupportedTransport "tcP"%string).
Proof. split; reflexivity. Qed.

(** C10: [add_remote_candidate] either appends the converted candidate to
    [remote_candidates], keeping the other fields, and returns [Ok], or
    returns the conversion's error with the agent unchanged; this holds
    for every conversion function. *)
Theorem add_remote_candidate_spec (SdpAttribute : Type)
    (try_from : SdpAttribute -> result RemoteCandidate Error)
    (self : Agent) (a : SdpAttribute) :
  (exists c, try_from a = Ok c /\
     add_remote_candidate SdpAttribute try_from self a =
       ({| username := self.(username); password := self.(password);
           local_addrs := self.(local_addrs);
           local_candidates := self.(local_candidates);
           remote_candidates := self.(remote_candidates) ++ [c] |}, Ok tt)) \/
  (exists e, try_from a = Err e /\
     add_remote_candidate SdpAttribute try_from self a = (self, Err e)).
Proof.
  unfold add_remote_candidate.
  destruct (try_from a) as [c|e]; [left; exists c | right; exists e]; auto.
Qed.

End IceFacts.

(** * SDP: printing and parsing session descriptions *)

Module SdpFacts.
Import Sdp.
Import Stdlib.Strings.String.
Open Scope list_scope. Open Scope Z_scope.

Lemma take_while_app (p : Z -> bool) (a r : str) (c : Z) :
  forallb p a = true -> p c = false -> take_while p (a ++ c :: r) = (a, c :: r).
Proof.
  induction a as [|x a IH]; simpl; intros Ha Hc.
  - rewrite Hc. reflexivity.
  - apply andb_prop in Ha as [Hx Ha]. rewrite Hx, IH by assumption. reflexivity.
Qed.

Lemma take_till1_app (stop : Z -> bool) (a r : str) (c : Z) :
  a <> [] -> forallb (fun x => negb (stop x)) a = true -> stop c = true ->
  take_till1 stop (a ++ c :: r) = POk (c :: r) a.
Proof.
  intros Hne Ha Hc. unfold take_till1.
  rewrite take_while_app by (rewrite ?Hc; auto).
  destruct a; [congruence | reflexivity].
Qed.

Lemma uint_chars_digits (u : Decimal.uint) :
  forallb is_digit (uint_chars u) = true.
Proof. induction u; simpl; auto. Qed.

Lemma uint_of_chars (u : Decimal.uint) : uint_of_digits (uint_chars u) = u.
Proof. induction u; simpl; rewrite ?IHu; reflexivity. Qed.

Lemma show_u_nonempty (n : Z) : show_u n <> [].
Proof.
  unfold show_u. destruct (Z.to_N n) as [|p] eqn:E; [discriminate|].
  intros H. pose proof (DecimalN.Unsigned.of_to (N.pos p)) as Hp.
  destruct (N.to_uint (N.pos p)); discriminate.
Qed.

Lemma digit1_show (n : Z) (c : Z) (r : str) :
  is_digit c = false -> digit1 (show_u n ++ c :: r) = POk (c :: r) (show_u n).
Proof.
  intros Hc. unfold digit1. rewrite take_while_app by (apply uint_chars_digits || assumption).
  destruct (show_u n) eqn:E; [exfalso; exact (show_u_nonempty n E) | reflexivity].
Qed.

Lemma from_str_radix_show (bits n : Z) :
  0 <= n < 2 ^ bits -> from_str_radix_u bits (show_u n) = Some n.
Proof.
  intros Hn. unfold from_str_radix_u, show_u.
  rewrite uint_of_chars, DecimalN.Unsigned.of_to, Z2N.id by lia.
  rewrite (proj2 (Z.ltb_lt n _)) by lia. reflexivity.
Qed.

Lemma not_line_ending_app (s r : str) :
  line_text s = true -> not_line_ending (s ++ 13 :: 10 :: r) = POk (13 :: 10 :: r) s.
Proof.
  intros Hs. unfold not_line_ending. rewrite take_while_app by (exact Hs || reflexivity).
  reflexivity.
Qed.

Lemma pbind_ok {A B} (p : Parser str A) (f : A -> Parser str B) i r a :
  p i = POk r a -> pbind p f i = f a r.
Proof. unfold pbind. intros ->. reflexivity. Qed.

Lemma pbind_err {A B} (p : Parser str A) (f : A -> Parser str B) i :
  p i = PErr -> pbind p f i = PErr.
Proof. unfold pbind. intros ->. reflexivity. Qed.

Lemma tag_app (t r : str) : tag t (t ++ r) = POk r t.
Proof.
  unfold tag. induction t as [|c t IH]; simpl; [reflexivity|].
  rewrite Z.eqb_refl. destruct (strip_prefix t (t ++ r)); congruence.
Qed.


Lemma tag_ok (t i r : str) : strip_prefix t i = Some r -> tag t i = POk r t.
Proof. unfold tag. intros ->. reflexivity. Qed.

Lemma preceded_ok {A B} (p : Parser str A) (q : Parser str B) i r1 a r2 b :
  p i = POk r1 a -> q r1 = POk r2 b -> preceded p q i = POk r2 b.
Proof. unfold preceded, pbind. intros -> ->. reflexivity. Qed.

Lemma delimited_ok {A B C} (p : Parser str A) (q : Parser str B) (s : Parser str C) i r1 a r2 b r3 c :
  p i = POk r1 a -> q r1 = POk r2 b -> s r2 = POk r3 c -> delimited p q s i = POk r3 b.
Proof. unfold delimited, pbind, pret. intros -> -> ->. reflexivity. Qed.

Lemma line_ending_crlf (r : str) : line_ending (13 :: 10 :: r) = POk r crlf.
Proof. reflexivity. Qed.


Lemma take_till1_token (a r : str) :
  field_token a = true -> take_till1 (fun c => c =? 32) (a ++ 32 :: r) = POk (32 :: r) a.
Proof.
  unfold field_token. intros H. apply andb_prop in H as [H1 H2].
  apply take_till1_app; [destruct a; discriminate | exact H2 | reflexivity].
Qed.

Lemma unwrap_radix (bits n : Z) (i : str) :
  0 <= n < 2 ^ bits -> unwrap (from_str_radix_u bits (show_u n)) i = POk i n.
Proof. intros H. unfold unwrap. rewrite from_str_radix_show by exact H. reflexivity. Qed.

Lemma pret_ok {A} (a : A) (i : str) : pret a i = POk i a.
Proof. reflexivity. Qed.

Definition hd_nondigit (s : str) : bool :=
  match s with [] => true | c :: _ => negb (is_digit c) end.

Lemma digit1_show' (n : Z) (r : str) :
  hd_nondigit r = true -> digit1 (show_u n ++ r) = POk r (show_u n).
Proof.
  destruct r as [|c r]; intros Hc.
  - unfold digit1. rewrite app_nil_r.
    assert (E : forall s, forallb is_digit s = true -> take_while is_digit s = (s, [])).
    { induction s as [|x s IH]; simpl; [reflexivity|].
      intros H; apply andb_prop in H as [H1 H2]; rewrite H1, IH by exact H2; reflexivity. }
    rewrite E by apply uint_chars_digits.
    destruct (show_u n) eqn:En; [exfalso; exact (show_u_nonempty n En) | reflexivity].
  - apply digit1_show. simpl in Hc. destruct (is_digit c); [discriminate | reflexivity].
Qed.

Ltac psub :=
  first
  [ apply tag_ok; reflexivity
  | apply line_ending_crlf
  | apply not_line_ending_app; assumption
  | apply take_till1_token; assumption
  | apply digit1_show; reflexivity
  | apply digit1_show'; reflexivity
  | apply unwrap_radix; assumption
  | eapply preceded_ok; [psub | psub]
  | eapply delimited_ok; [psub | psub | psub] ].

Ltac pstep := erewrite pbind_ok by psub; cbv beta.

Ltac pnorm := repeat rewrite <- app_assoc; unfold crlf; cbn [app].

Ltac split_wf :=
  repeat match goal with
  | H : (_ && _) = true |- _ => apply andb_prop in H; destruct H
  | H : u64_ok _ = true |- _ => unfold u64_ok in H; apply andb_prop in H; destruct H
  | H : u8_ok _ = true |- _ => unfold u8_ok in H; apply andb_prop in H; destruct H
  | H : (_ <=? _) = true |- _ => apply Z.leb_le in H
  | H : (_ <? _) = true |- _ => apply Z.ltb_lt in H
  end.

Definition origin_wf (o : origin.Origin) : bool :=
  field_token o.(origin.username) && u64_ok o.(origin.session_id) &&
  u64_ok o.(origin.session_version) && field_token o.(origin.network_type) &&
  field_token o.(origin.address_type) && line_text o.(origin.unicast_address).

Lemma version_ok (v : version.Version) (r : str) :
  u8_ok v = true -> version.version (version.to_string v ++ r) = POk r v.
Proof.
  intros H. split_wf. unfold version.version, version.to_string. pnorm.
  pstep. apply unwrap_radix. lia.
Qed.

Lemma origin_ok (o : origin.Origin) (r : str) :
  origin_wf o = true -> origin.origin (origin.to_string o ++ r) = POk r o.
Proof.
  unfold origin_wf. intros H. split_wf.
  unfold origin.origin, origin.to_string. pnorm.
  pstep. pstep. erewrite pbind_ok by (apply unwrap_radix; lia). cbv beta.
  pstep. erewrite pbind_ok by (apply unwrap_radix; lia). cbv beta.
  pstep. pstep. pstep. destruct o; reflexivity.
Qed.

Lemma text_line_ok (t s r : str) :
  line_text s = true -> text_line t (t ++ s ++ crlf ++ r) = POk r s.
Proof.
  intros Hs. unfold text_line. eapply delimited_ok; [apply tag_app | | apply line_ending_crlf].
  apply not_line_ending_app; exact Hs.
Qed.

Lemma session_name_ok (s r : str) :
  line_text s = true -> session_name.session_name (session_name.to_string s ++ r) = POk r s.
Proof. intros H. unfold session_name.to_string. rewrite <- !app_assoc. apply text_line_ok, H. Qed.

Lemma session_information_ok (s r : str) :
  line_text s = true ->
  session_information.session_information (session_information.to_string s ++ r) = POk r s.
Proof. intros H. unfold session_information.to_string. rewrite <- !app_assoc. apply text_line_ok, H. Qed.

Lemma uri_ok (s r : str) :
  line_text s = true -> uri.uri (uri.to_string s ++ r) = POk r s.
Proof. intros H. unfold uri.to_string. rewrite <- !app_assoc. apply text_line_ok, H. Qed.

Lemma email_address_ok (s r : str) :
  line_text s = true -> email_address.email_address (email_address.to_string s ++ r) = POk r s.
Proof. intros H. unfold email_address.to_string. rewrite <- !app_assoc. apply text_line_ok, H. Qed.

Lemma phone_number_ok (s r : str) :
  line_text s = true -> phone_number.phone_number (phone_number.to_string s ++ r) = POk r s.
Proof. intros H. unfold phone_number.to_string. rewrite <- !app_assoc. apply text_line_ok, H. Qed.

Definition connection_wf (c : connection.Connection) : bool :=
  field_token c.(connection.network_type) && field_token c.(connection.address_type) &&
  line_text c.(connection.connection_address).

Lemma connection_ok (c : connection.Connection) (r : str) :
  connection_wf c = true -> connection.connection (connection.to_string c ++ r) = POk r c.
Proof.
  unfold connection_wf. intros H. split_wf.
  unfold connection.connection, connection.to_string. pnorm.
  pstep. pstep. pstep. destruct c; reflexivity.
Qed.

Lemma opt_some {A} (p : Parser str A) i r x : p i = POk r x -> opt p i = POk r (Some x).
Proof. unfold opt. intros ->. reflexivity. Qed.

Lemma opt_none {A} (p : Parser str A) i : p i = PErr -> opt p i = POk i None.
Proof. unfold opt. intros ->. reflexivity. Qed.

Lemma opt_print {A} (p : Parser str A) (pr : A -> str) (o : option A) (r : str) :
  (forall x, o = Some x -> p (pr x ++ r) = POk r x) -> (o = None -> p r = PErr) ->
  opt p (opt_string pr o ++ r) = POk r o.
Proof.
  destruct o as [x|]; simpl; intros H1 H2.
  - apply opt_some, H1. reflexivity.
  - apply opt_none, H2. reflexivity.
Qed.

Lemma alt2_err {A} (p q : Parser str A) i : p i = PErr -> alt2 p q i = q i.
Proof. unfold alt2. intros ->. reflexivity. Qed.

Lemma alt2_ok {A} (p q : Parser str A) i r x : p i = POk r x -> alt2 p q i = POk r x.
Proof. unfold alt2. intros ->. reflexivity. Qed.

Lemma length_flat_map_le {A} (pr : A -> str) (xs : list A) (r : str) :
  (forall x, In x xs -> pr x <> []) ->
  (List.length xs <= List.length (flat_map pr xs ++ r))%nat.
Proof.
  induction xs as [|x xs IH]; simpl; intros H; [lia|].
  rewrite <- app_assoc, length_app.
  assert (List.length (pr x) <> 0%nat) by (destruct (pr x) eqn:E; [exfalso; apply (H x); [left; reflexivity | exact E] | simpl; lia]).
  specialize (IH (fun y Hy => H y (or_intror Hy))). lia.
Qed.

Section ManyPrint.
Context {A : Type} (p : Parser str A) (pr : A -> str) (P : str -> Prop).

Lemma flat_map_P (xs : list A) (r : str) :
  (forall x r', In x xs -> P r' -> P (pr x ++ r')) -> P r -> P (flat_map pr xs ++ r).
Proof.
  induction xs as [|x xs IH]; simpl; intros H Hr; [exact Hr|].
  rewrite <- app_assoc. apply H; [left; reflexivity|].
  apply IH; [intros; apply H; [right|]; assumption | exact Hr].
Qed.

Lemma many0_fuel_print (xs : list A) (r : str) (fuel : nat) :
  (forall x r', In x xs -> P r' -> p (pr x ++ r') = POk r' x) ->
  (forall x, In x xs -> pr x <> []) ->
  (forall x r', In x xs -> P r' -> P (pr x ++ r')) ->
  P r -> p r = PErr -> (List.length xs < fuel)%nat ->
  many0_fuel fuel p (flat_map pr xs ++ r) = POk r xs.
Proof.
  revert fuel. induction xs as [|x xs IH]; intros fuel Hp Hne Hcl Hr Hend Hf.
  - destruct fuel as [|f]; [simpl in Hf; lia|]. simpl. rewrite Hend. reflexivity.
  - destruct fuel as [|f]; [simpl in Hf; lia|]. simpl flat_map. rewrite <- app_assoc.
    cbn [many0_fuel].
    rewrite (Hp x (flat_map pr xs ++ r)); [| left; reflexivity
      | apply flat_map_P; [intros; apply Hcl; [right|]; assumption | exact Hr]].
    assert (List.length (pr x) <> 0%nat) by (destruct (pr x) eqn:E; [exfalso; apply (Hne x); [left; reflexivity | exact E] | simpl; lia]).
    assert (Hlen : Nat.eqb (List.length (flat_map pr xs ++ r))
                     (List.length (pr x ++ flat_map pr xs ++ r)) = false)
      by (apply Nat.eqb_neq; rewrite (length_app (pr x)); lia).
    rewrite Hlen.
    rewrite IH; auto.
    + intros; apply Hp; [right|]; assumption.
    + intros; apply Hne; right; assumption.
    + intros; apply Hcl; [right|]; assumption.
    + simpl in Hf; lia.
Qed.

Lemma many0_print (xs : list A) (r : str) :
  (forall x r', In x xs -> P r' -> p (pr x ++ r') = POk r' x) ->
  (forall x, In x xs -> pr x <> []) ->
  (forall x r', In x xs -> P r' -> P (pr x ++ r')) ->
  P r -> p r = PErr ->
  many0 p (flat_map pr xs ++ r) = POk r xs.
Proof.
  intros Hp Hne Hcl Hr Hend. unfold many0. apply many0_fuel_print; try assumption.
  pose proof (length_flat_map_le pr xs r Hne). lia.
Qed.

Lemma many1_print (x : A) (xs : list A) (r : str) :
  (forall y r', In y (x :: xs) -> P r' -> p (pr y ++ r') = POk r' y) ->
  (forall y, In y (x :: xs) -> pr y <> []) ->
  (forall y r', In y (x :: xs) -> P r' -> P (pr y ++ r')) ->
  P r -> p r = PErr ->
  many1 p (flat_map pr (x :: xs) ++ r) = POk r (x :: xs).
Proof.
  intros Hp Hne Hcl Hr Hend. simpl flat_map. rewrite <- app_assoc. unfold many1.
  rewrite Hp.
  - rewrite many0_print; auto.
    + intros; apply Hp; [right|]; assumption.
    + intros; apply Hne; right; assumption.
    + intros; apply Hcl; [right|]; assumption.
  - left; reflexivity.
  - apply flat_map_P; [intros; apply Hcl; [right|]; assumption | exact Hr].
Qed.

End ManyPrint.

Definition bandwidth_type_wf (t : bandwidth.BandwidthType) : bool :=
  match t with
  | bandwidth.Experimental x =>
      negb (str_eqb x []) && forallb (fun c => negb (c =? 58)) x &&
      negb (str_eqb x (lit "CT")) && negb (str_eqb x (lit "AS"))
  | _ => true
  end.

Definition bandwidth_wf (b : bandwidth.Bandwidth) : bool :=
  bandwidth_type_wf b.(bandwidth.typ) && u64_ok b.(bandwidth.value).

Lemma bandwidth_type_ok (t : bandwidth.BandwidthType) (X : str) :
  bandwidth_type_wf t = true ->
  bandwidth.bandwidth_type (lit "b=" ++ bandwidth.bandwidth_type_to_string t ++ lit ":" ++ X)
  = POk (lit ":" ++ X) t.
Proof.
  destruct t as [| |x]; intros H; [reflexivity | reflexivity |].
  unfold bandwidth_type_wf in H. split_wf.
  unfold bandwidth.bandwidth_type, pmap.
  erewrite pbind_ok.
  2:{ eapply preceded_ok; [apply tag_ok; reflexivity|].
      rewrite alt2_err by reflexivity. rewrite alt2_err by reflexivity.
      eapply preceded_ok; [apply tag_ok; reflexivity|].
      apply take_till1_app; [destruct x; discriminate | exact H2 | reflexivity]. }
  unfold pret. apply negb_true_iff in H0, H1. rewrite H0, H1. reflexivity.
Qed.

Lemma bandwidth_ok (b : bandwidth.Bandwidth) (r : str) :
  bandwidth_wf b = true -> bandwidth.bandwidth (bandwidth.to_string b ++ r) = POk r b.
Proof.
  destruct b as [t v]. unfold bandwidth_wf. cbn [bandwidth.typ bandwidth.value].
  intros H. apply andb_prop in H as [Ht Hv]. split_wf.
  unfold bandwidth.bandwidth, bandwidth.to_string. cbn [bandwidth.typ bandwidth.value].
  pnorm.
  erewrite pbind_ok by (apply bandwidth_type_ok; exact Ht). cbv beta.
  erewrite pbind_ok.
  2:{ unfold bandwidth.bandwidth_value. pstep. apply unwrap_radix. lia. }
  reflexivity.
Qed.

Definition timing_wf (t : time_description.Timing) : bool :=
  u64_ok t.(time_description.start_time) && u64_ok t.(time_description.stop_time).

Lemma timing_ok (t : time_description.Timing) (r : str) :
  timing_wf t = true ->
  time_description.parse_timing (time_description.timing_to_string t ++ r) = POk r t.
Proof.
  unfold timing_wf. intros H. split_wf.
  unfold time_description.parse_timing, time_description.timing_to_string. pnorm.
  pstep. erewrite pbind_ok by (apply unwrap_radix; lia). cbv beta.
  pstep. erewrite pbind_ok by (apply unwrap_radix; lia). cbv beta.
  destruct t; reflexivity.
Qed.

Definition nonempty {A} (l : list A) : bool := match l with [] => false | _ :: _ => true end.

Definition repeat_wf (rp : time_description.Repeat) : bool :=
  u64_ok rp.(time_description.interval) && u64_ok rp.(time_description.active_duration) &&
  nonempty rp.(time_description.offsets) && forallb u64_ok rp.(time_description.offsets).

Lemma offset_ok (o : Z) (r : str) :
  u64_ok o = true -> hd_nondigit r = true ->
  time_description.offset ([32] ++ show_u o ++ r) = POk r o.
Proof.
  intros H Hr. split_wf. unfold time_description.offset.
  erewrite pbind_ok.
  2:{ eapply preceded_ok; [apply tag_ok; reflexivity | apply digit1_show'; exact Hr]. }
  apply unwrap_radix. lia.
Qed.

Lemma repeat_ok (rp : time_description.Repeat) (r : str) :
  repeat_wf rp = true ->
  time_description.repeat (time_description.repeat_to_string rp ++ r) = POk r rp.
Proof.
  destruct rp as [iv ad offs]. unfold repeat_wf. cbn [time_description.interval
    time_description.active_duration time_description.offsets].
  intros H. apply andb_prop in H as [H Hoffs]. apply andb_prop in H as [H Hne]. split_wf.
  unfold time_description.repeat, time_description.repeat_to_string.
  cbn [time_description.interval time_description.active_duration time_description.offsets].
  destruct offs as [|o os]; [discriminate|].
  rewrite <- !app_assoc. unfold crlf. cbn [app].
  pstep. erewrite pbind_ok by (apply unwrap_radix; lia). cbv beta.
  pstep. erewrite pbind_ok by (apply unwrap_radix; lia). cbv beta.
  erewrite pbind_ok.
  2:{ unfold terminated. erewrite pbind_ok.
      2:{ apply (many1_print _ (fun o => 32 :: show_u o) (fun s => hd_nondigit s = true)).
          - intros y r' Hy Hr'. apply offset_ok; [|exact Hr'].
            rewrite forallb_forall in Hoffs. apply Hoffs, Hy.
          - intros y _. discriminate.
          - intros y r' _ _. reflexivity.
          - reflexivity.
          - reflexivity. }
      erewrite pbind_ok by apply line_ending_crlf. reflexivity. }
  reflexivity.
Qed.

Definition hd_not (c : Z) (s : str) : bool :=
  match s with [] => true | d :: _ => negb (d =? c) end.

Lemma tag_err (c : Z) (t s : str) : hd_not c s = true -> tag (c :: t) s = PErr.
Proof.
  destruct s as [|d s]; simpl; intros H; [reflexivity|].
  unfold tag. simpl. rewrite Z.eqb_sym. apply negb_true_iff in H. rewrite H. reflexivity.
Qed.

Ltac perr :=
  unfold text_line, preceded, delimited, pmap, terminated, separated_pair;
  repeat (apply pbind_err); apply tag_err; assumption.

Definition time_description_wf (td : time_description.TimeDescription) : bool :=
  timing_wf td.(time_description.timing) &&
  forallb repeat_wf td.(time_description.repeat_times).

Lemma repeat_err (r : str) : hd_not 114 r = true -> time_description.repeat r = PErr.
Proof. intros H. unfold time_description.repeat. perr. Qed.

Lemma time_description_ok (td : time_description.TimeDescription) (r : str) :
  time_description_wf td = true -> hd_not 114 r = true ->
  time_description.time_description (time_description.to_string td ++ r) = POk r td.
Proof.
  destruct td as [tm rps]. unfold time_description_wf.
  cbn [time_description.timing time_description.repeat_times].
  intros H Hr. apply andb_prop in H as [Ht Hrps].
  unfold time_description.time_description, time_description.to_string.
  cbn [time_description.timing time_description.repeat_times]. rewrite <- app_assoc.
  erewrite pbind_ok by (apply timing_ok; exact Ht). cbv beta.
  erewrite pbind_ok.
  2:{ apply (many0_print _ _ (fun _ => True)).
      - intros y r' Hy _. apply repeat_ok. rewrite forallb_forall in Hrps. apply Hrps, Hy.
      - intros y _. unfold time_description.repeat_to_string. discriminate.
      - auto.
      - exact I.
      - apply repeat_err, Hr. }
  reflexivity.
Qed.

(** Time zones. *)

Definition adjustment_wf (a : time_zone.Adjustment) : bool :=
  u64_ok a.(time_zone.time) && i64_ok a.(time_zone.offset) &&
  (Z.rem a.(time_zone.offset) 3600 =? 0).

Definition time_zone_wf (tz : time_zone.TimeZone) : bool :=
  nonempty tz.(time_zone.adjustments) && forallb adjustment_wf tz.(time_zone.adjustments).

Lemma show_u_head (n : Z) : exists d t, show_u n = d :: t /\ is_digit d = true.
Proof.
  pose proof (uint_chars_digits (N.to_uint (Z.to_N n))) as H.
  pose proof (show_u_nonempty n) as Hne. unfold show_u in *.
  destruct (uint_chars (N.to_uint (Z.to_N n))) as [|d t]; [congruence|].
  exists d, t. simpl in H. apply andb_prop in H as [H _]. auto.
Qed.

Lemma one_of_sign_show (n : Z) (Y : str) : one_of (lit "+-") (show_u n ++ Y) = PErr.
Proof.
  destruct (show_u_head n) as (d & t & E & Hd). rewrite E. unfold is_digit in Hd.
  apply andb_prop in Hd as [H1 H2]. apply Z.leb_le in H1. apply Z.leb_le in H2.
  simpl. destruct (Z.eqb_spec d 43); [lia|]. destruct (Z.eqb_spec d 45); [lia|]. reflexivity.
Qed.

Lemma from_str_radix_i64_pos (n : Z) :
  0 <= n < 2 ^ 63 -> from_str_radix_i64 None (show_u n) = Some n.
Proof.
  intros Hn. unfold from_str_radix_i64, show_u.
  rewrite uint_of_chars, DecimalN.Unsigned.of_to, Z2N.id by lia.
  replace ((- 2 ^ 63 <=? n) && (n <? 2 ^ 63)) with true by (symmetry; apply andb_true_iff; split; [apply Z.leb_le | apply Z.ltb_lt]; lia).
  reflexivity.
Qed.

Lemma from_str_radix_i64_neg (n : Z) :
  0 <= n <= 2 ^ 63 -> from_str_radix_i64 (Some 45) (show_u n) = Some (- n).
Proof.
  intros Hn. unfold from_str_radix_i64, show_u.
  rewrite uint_of_chars, DecimalN.Unsigned.of_to, Z2N.id by lia. rewrite Z.eqb_refl.
  replace ((- 2 ^ 63 <=? - n) && (- n <? 2 ^ 63)) with true by (symmetry; apply andb_true_iff; split; [apply Z.leb_le | apply Z.ltb_lt]; lia).
  reflexivity.
Qed.

Lemma parse_offset_ok (h c : Z) (X : str) :
  - 2 ^ 63 <= h * 3600 < 2 ^ 63 -> is_digit c = false ->
  existsb (Z.eqb c) (lit "dhms") = false ->
  time_zone.parse_offset
    (show_i h ++ (if h =? 0 then [] else lit "h") ++ c :: X) = POk (c :: X) (h * 3600).
Proof.
  intros Hr Hc Hu. unfold time_zone.parse_offset.
  destruct (Z.ltb_spec h 0) as [Hneg|Hpos].
  - unfold show_i. rewrite (proj2 (Z.ltb_lt h 0) Hneg).
    replace (h =? 0) with false by (symmetry; apply Z.eqb_neq; lia).
    erewrite pbind_ok by (apply opt_some; reflexivity). cbv beta.
    erewrite pbind_ok by (apply digit1_show; reflexivity). cbv beta.
    erewrite pbind_ok by (apply opt_some; reflexivity). cbv beta.
    erewrite pbind_ok by (unfold unwrap; rewrite from_str_radix_i64_neg by lia; reflexivity).
    cbv beta. erewrite pbind_ok by reflexivity. cbv beta.
    replace (- - h * 3600) with (h * 3600) by lia.
    unfold unwrap, i64_ok.
    replace ((- 2 ^ 63 <=? h * 3600) && (h * 3600 <? 2 ^ 63)) with true by (symmetry; apply andb_true_iff; split; [apply Z.leb_le | apply Z.ltb_lt]; lia).
    reflexivity.
  - destruct (Z.eqb_spec h 0) as [Hz|Hnz].
    + subst h. cbn [Z.mul].
      erewrite pbind_ok by (apply opt_none; reflexivity). cbv beta.
      erewrite pbind_ok by (apply (digit1_show 0); exact Hc). cbv beta.
      erewrite pbind_ok by (apply opt_none; unfold one_of; rewrite Hu; reflexivity). cbv beta.
      reflexivity.
    + unfold show_i. rewrite (proj2 (Z.ltb_ge h 0) Hpos).
      erewrite pbind_ok by (apply opt_none; apply one_of_sign_show). cbv beta.
      erewrite pbind_ok by (apply digit1_show; reflexivity). cbv beta.
      erewrite pbind_ok by (apply opt_some; reflexivity). cbv beta.
      erewrite pbind_ok by (unfold unwrap; rewrite from_str_radix_i64_pos by lia; reflexivity).
      cbv beta. erewrite pbind_ok by reflexivity. cbv beta.
      unfold unwrap, i64_ok.
      replace ((- 2 ^ 63 <=? h * 3600) && (h * 3600 <? 2 ^ 63)) with true by (symmetry; apply andb_true_iff; split; [apply Z.leb_le | apply Z.ltb_lt]; lia).
      reflexivity.
Qed.

Lemma adjustment_ok (a : time_zone.Adjustment) (c : Z) (X : str) :
  adjustment_wf a = true -> is_digit c = false -> existsb (Z.eqb c) (lit "dhms") = false ->
  time_zone.adjustment (time_zone.adjustment_to_string a ++ c :: X) = POk (c :: X) a.
Proof.
  destruct a as [t off]. unfold adjustment_wf, i64_ok.
  cbn [time_zone.time time_zone.offset]. intros H Hc Hu. split_wf.
  match goal with Hm : (Z.rem _ _ =? 0) = true |- _ => apply Z.eqb_eq in Hm; rename Hm into Hrem end.
  pose proof (Z.quot_rem off 3600 ltac:(lia)) as Hq.
  rewrite Hrem, Z.add_0_r in Hq.
  unfold time_zone.adjustment, time_zone.adjustment_to_string, separated_pair.
  cbn [time_zone.time time_zone.offset]. rewrite <- !app_assoc.
  erewrite pbind_ok.
  2:{ erewrite pbind_ok by (apply digit1_show; reflexivity). cbv beta.
      erewrite pbind_ok by (apply tag_ok; reflexivity). cbv beta.
      erewrite pbind_ok by (apply parse_offset_ok; [lia | exact Hc | exact Hu]). cbv beta.
      reflexivity. }
  cbv beta iota.
  erewrite pbind_ok by (apply unwrap_radix; lia). cbv beta.
  unfold pret. do 2 f_equal. lia.
Qed.

Definition tz_item : Parser str time_zone.Adjustment :=
  terminated time_zone.adjustment (alt2 (tag (lit " ")) line_ending).

Lemma tz_item_sp (a : time_zone.Adjustment) (X : str) :
  adjustment_wf a = true -> tz_item (time_zone.adjustment_to_string a ++ [32] ++ X) = POk X a.
Proof.
  intros H. unfold tz_item, terminated.
  erewrite pbind_ok by (apply adjustment_ok; [exact H | reflexivity | reflexivity]).
  erewrite pbind_ok by (apply alt2_ok, tag_ok; reflexivity). reflexivity.
Qed.

Lemma tz_item_end (a : time_zone.Adjustment) (r : str) :
  adjustment_wf a = true -> tz_item (time_zone.adjustment_to_string a ++ crlf ++ r) = POk r a.
Proof.
  intros H. unfold tz_item, terminated.
  erewrite pbind_ok by (apply adjustment_ok; [exact H | reflexivity | reflexivity]).
  erewrite pbind_ok.
  2:{ rewrite alt2_err by reflexivity. apply line_ending_crlf. }
  reflexivity.
Qed.

Lemma digit1_err (r : str) : hd_nondigit r = true -> digit1 r = PErr.
Proof.
  destruct r as [|c r]; [reflexivity|]. simpl. intros H. unfold digit1. simpl.
  destruct (is_digit c); [discriminate|reflexivity].
Qed.

Lemma tz_item_err (r : str) : hd_nondigit r = true -> tz_item r = PErr.
Proof.
  intros H. unfold tz_item, terminated, time_zone.adjustment, separated_pair.
  repeat apply pbind_err. apply digit1_err, H.
Qed.

Section SepPrint.
Context {A : Type} (p : Parser str A) (pr : A -> str) (sp e r : str) (Q : A -> Prop).
Hypothesis Hsp : forall x X, Q x -> p (pr x ++ sp ++ X) = POk X x.
Hypothesis Hend : forall x, Q x -> p (pr x ++ e ++ r) = POk r x.
Hypothesis Hspne : sp <> [].
Hypothesis Hene : e <> [].
Hypothesis Herr : p r = PErr.

Lemma many0_sep_fuel (rest : list A) (a : A) (fuel : nat) :
  Q a -> Forall Q rest -> (List.length rest < fuel)%nat ->
  many0_fuel fuel p (pr a ++ flat_map (fun b => sp ++ pr b) rest ++ e ++ r) = POk r (a :: rest).
Proof.
  revert a fuel. induction rest as [|b rest IH]; intros a fuel Ha Hrest Hf;
    (destruct fuel as [|f]; [simpl in Hf; lia|]); cbn [flat_map app many0_fuel].
  - rewrite Hend by exact Ha.
    assert (Hl : Nat.eqb (List.length r) (List.length (pr a ++ e ++ r)) = false).
    { apply Nat.eqb_neq. rewrite !length_app. destruct e; [congruence|simpl; lia]. }
    rewrite Hl. destruct f; [reflexivity|]. cbn [many0_fuel]. rewrite Herr. reflexivity.
  - inversion Hrest as [|? ? Hb Hrest']; subst.
    rewrite <- !app_assoc. rewrite Hsp by exact Ha.
    assert (Hl : Nat.eqb (List.length (pr b ++ flat_map (fun b => sp ++ pr b) rest ++ e ++ r))
                   (List.length (pr a ++ sp ++ pr b ++ flat_map (fun b => sp ++ pr b) rest ++ e ++ r)) = false).
    { apply Nat.eqb_neq. rewrite (length_app (pr a)), (length_app sp).
      destruct sp; [congruence|simpl; lia]. }
    rewrite Hl. rewrite IH by (auto; simpl in Hf; lia). reflexivity.
Qed.

Lemma many1_sep (a : A) (rest : list A) :
  Q a -> Forall Q rest ->
  many1 p (pr a ++ flat_map (fun b => sp ++ pr b) rest ++ e ++ r) = POk r (a :: rest).
Proof.
  intros Ha Hrest. unfold many1. destruct rest as [|b rest]; cbn [flat_map app].
  - rewrite Hend by exact Ha. unfold many0. cbn [many0_fuel]. rewrite Herr. reflexivity.
  - inversion Hrest as [|? ? Hb Hrest']; subst.
    rewrite <- !app_assoc. rewrite Hsp by exact Ha.
    unfold many0. rewrite many0_sep_fuel; auto.
    pose proof (length_flat_map_le (fun b => sp ++ pr b) rest (e ++ r)) as Hle.
    rewrite length_app. 
    assert (List.length rest <= List.length (flat_map (fun b => sp ++ pr b) rest ++ e ++ r))%nat
      by (apply Hle; intros y _; destruct sp; [congruence | discriminate]).
    lia.
Qed.
End SepPrint.

Lemma time_zone_ok (tz : time_zone.TimeZone) (s r : str) :
  time_zone.to_string tz = Some s -> time_zone_wf tz = true -> hd_nondigit r = true ->
  time_zone.time_zone (s ++ r) = POk r tz.
Proof.
  destruct tz as [[|a rest]]; intros Hs; [discriminate|].
  assert (Hs' : s = lit "z=" ++ time_zone.adjustment_to_string a ++
                    flat_map (fun a => [32] ++ time_zone.adjustment_to_string a) rest ++ crlf)
    by (injection Hs; intros E; first [exact E | symmetry; exact E]).
  subst s. clear Hs. unfold time_zone_wf. cbn [time_zone.adjustments nonempty andb forallb].
  intros H Hr. apply andb_prop in H as [Ha Hrest].
  unfold time_zone.time_zone. rewrite <- !app_assoc.
  erewrite pbind_ok.
  2:{ eapply preceded_ok; [apply tag_app|].
      apply (many1_sep _ _ [32] crlf r (fun a => adjustment_wf a = true)).
      - intros x X Hx. apply tz_item_sp, Hx.
      - intros x Hx. apply tz_item_end, Hx.
      - discriminate.
      - discriminate.
      - apply tz_item_err, Hr.
      - exact Ha.
      - apply Forall_forall. intros x Hx. rewrite forallb_forall in Hrest. apply Hrest, Hx. }
  reflexivity.
Qed.

Definition opt_wf {A} (f : A -> bool) (o : option A) : bool :=
  match o with Some x => f x | None => true end.

Definition encryption_key_wf (k : encryption_key.EncryptionKey) : bool :=
  opt_wf line_text k.(encryption_key.data).

Lemma encryption_key_ok (k : encryption_key.EncryptionKey) (r : str) :
  encryption_key_wf k = true ->
  encryption_key.encryption_key (encryption_key.to_string k ++ r) = POk r k.
Proof.
  destruct k as [m [s|]]; destruct m; unfold encryption_key_wf; cbn [encryption_key.data opt_wf]; intros H;
  unfold encryption_key.encryption_key, encryption_key.to_string;
  cbn [encryption_key.method encryption_key.data]; rewrite <- !app_assoc;
  (erewrite pbind_ok;
   [ | eapply delimited_ok; [apply tag_ok; reflexivity | | apply line_ending_crlf];
       (erewrite pbind_ok by reflexivity); cbv beta;
       (erewrite pbind_ok by
          ((apply opt_some; eapply preceded_ok; [apply tag_ok; reflexivity | apply not_line_ending_app; exact H])
           || (apply opt_none; reflexivity)));
       reflexivity ]);
  reflexivity.
Qed.

Definition attribute_wf (a : attribute.Attribute) : bool :=
  match a with
  | attribute.Property p => line_text p && forallb (fun c => negb (c =? 58)) p
  | attribute.Value k v =>
      negb (str_eqb k []) && forallb (fun c => negb ((c =? 58) || is_whitespace c)) k &&
      line_text v
  end.

Lemma take_while_key_stop (p X : str) :
  forallb (fun c => negb (c =? 58)) p = true ->
  exists a c Y, take_while (fun c => negb ((c =? 58) || is_whitespace c)) (p ++ 13 :: X)
                = (a, c :: Y) /\ c <> 58.
Proof.
  induction p as [|x p IH]; simpl; intros H.
  - exists [], 13, X. split; [reflexivity | lia].
  - apply andb_prop in H as [Hx Hp]. destruct (negb ((x =? 58) || is_whitespace x)).
    + destruct (IH Hp) as (a & c & Y & E & Hc). rewrite E. exists (x :: a), c, Y. auto.
    + exists [], x, (p ++ 13 :: X). split; [reflexivity|].
      apply negb_true_iff, Z.eqb_neq in Hx. exact Hx.
Qed.

Lemma value_attribute_err (p X : str) :
  forallb (fun c => negb (c =? 58)) p = true ->
  attribute.value_attribute (p ++ 13 :: X) = PErr.
Proof.
  intros H. destruct (take_while_key_stop p X H) as (a & c & Y & E & Hc).
  unfold attribute.value_attribute, pbind, take_till1 at 1. rewrite E.
  destruct a; [reflexivity|].
  assert (E2 : tag (lit ":") (c :: Y) = PErr).
  { apply tag_err. simpl. apply negb_true_iff, Z.eqb_neq. exact Hc. }
  unfold preceded, pbind. rewrite E2. reflexivity.
Qed.

Lemma attribute_ok (a : attribute.Attribute) (r : str) :
  attribute_wf a = true -> attribute.attribute (attribute.to_string a ++ r) = POk r a.
Proof.
  destruct a as [p|k v]; simpl attribute_wf; intros H; split_wf;
  unfold attribute.attribute, attribute.to_string; rewrite <- !app_assoc.
  - eapply delimited_ok; [apply tag_app | | apply line_ending_crlf].
    rewrite alt2_err by (apply value_attribute_err; assumption).
    unfold attribute.property_attribute, pmap.
    erewrite pbind_ok by (apply not_line_ending_app; assumption). reflexivity.
  - eapply delimited_ok; [apply tag_app | | apply line_ending_crlf].
    apply alt2_ok. unfold attribute.value_attribute.
    erewrite pbind_ok.
    2:{ apply take_till1_app; [destruct k; discriminate | assumption | reflexivity]. }
    erewrite pbind_ok.
    2:{ eapply preceded_ok; [apply tag_ok; reflexivity | apply not_line_ending_app; assumption]. }
    reflexivity.
Qed.

Definition media_wf (m : media_description.Media) : bool :=
  u64_ok m.(media_description.port) && field_token m.(media_description.protocol) &&
  line_text m.(media_description.format).

Lemma parse_media_ok (m : media_description.Media) (r : str) :
  media_wf m = true ->
  media_description.parse_media (media_description.media_to_string m ++ r) = POk r m.
Proof.
  destruct m as [t port proto fmt]. unfold media_wf.
  cbn [media_description.port media_description.protocol media_description.format].
  intros H. split_wf.
  unfold media_description.parse_media, media_description.media_to_string.
  cbn [media_description.typ media_description.port media_description.protocol
       media_description.format].
  pnorm.
  destruct t; cbn [media_description.media_type_to_string];
  (erewrite pbind_ok by (eapply preceded_ok; [apply tag_ok; reflexivity | reflexivity]));
  cbv beta; (erewrite pbind_ok by reflexivity); cbv beta;
  pstep; (erewrite pbind_ok by (apply unwrap_radix; lia)); cbv beta;
  pstep; pstep; reflexivity.
Qed.

(** Which line may come next: the first character of the rest of the
    input is one of [cs], or the input has ended. *)
Definition hd_in (cs : list Z) (s : str) : bool :=
  match s with [] => true | c :: _ => existsb (Z.eqb c) cs end.

Lemma hd_in_not (cs : list Z) (c : Z) (s : str) :
  hd_in cs s = true -> existsb (Z.eqb c) cs = false -> hd_not c s = true.
Proof.
  destruct s as [|d s]; simpl; intros H1 H2; [reflexivity|].
  apply negb_true_iff. destruct (Z.eqb_spec d c) as [->|]; [congruence|reflexivity].
Qed.

Lemma hd_in_nondigit (cs : list Z) (s : str) :
  hd_in cs s = true -> forallb (fun c => negb (is_digit c)) cs = true -> hd_nondigit s = true.
Proof.
  destruct s as [|d s]; simpl; intros H1 H2; [reflexivity|].
  apply existsb_exists in H1 as (x & Hx & Exd). apply Z.eqb_eq in Exd. subst x.
  rewrite forallb_forall in H2. apply H2, Hx.
Qed.

Lemma hd_in_incl (cs cs' : list Z) (s : str) :
  hd_in cs s = true -> forallb (fun c => existsb (Z.eqb c) cs') cs = true -> hd_in cs' s = true.
Proof.
  destruct s as [|d s]; simpl; intros H1 H2; [reflexivity|].
  apply existsb_exists in H1 as (x & Hx & Exd). apply Z.eqb_eq in Exd. subst x.
  rewrite forallb_forall in H2. apply H2, Hx.
Qed.

Lemma hd_in_head (cs : list Z) (c : Z) (s r : str) :
  (exists t, s = c :: t) -> existsb (Z.eqb c) cs = true -> hd_in cs (s ++ r) = true.
Proof. intros [t ->] H. exact H. Qed.

Lemma hd_in_opt {A} (cs : list Z) (c : Z) (f : A -> str) (o : option A) (r : str) :
  (forall x, exists t, f x = c :: t) -> existsb (Z.eqb c) cs = true -> hd_in cs r = true ->
  hd_in cs (opt_string f o ++ r) = true.
Proof. destruct o as [x|]; simpl; intros Hf Hc Hr; [apply (hd_in_head cs c); [apply Hf | exact Hc] | exact Hr]. Qed.

Lemma hd_in_flat {A} (cs : list Z) (c : Z) (f : A -> str) (xs : list A) (r : str) :
  (forall x, exists t, f x = c :: t) -> existsb (Z.eqb c) cs = true -> hd_in cs r = true ->
  hd_in cs (flat_map f xs ++ r) = true.
Proof.
  destruct xs as [|x xs]; simpl; intros Hf Hc Hr; [exact Hr|].
  rewrite <- app_assoc. apply (hd_in_head cs c); [apply Hf | exact Hc].
Qed.

Ltac hd_letter := let x := fresh in intros x; try destruct x; eexists; reflexivity.

Ltac hd_solve :=
  first
  [ assumption
  | eapply hd_in_incl; [eassumption | reflexivity]
  | eapply hd_in_opt; [hd_letter | reflexivity | hd_solve]
  | eapply hd_in_flat; [hd_letter | reflexivity | hd_solve]
  | eapply hd_in_head; [eexists; reflexivity | reflexivity] ].

Lemma session_information_err (s : str) :
  hd_not 105 s = true -> session_information.session_information s = PErr.
Proof. intros H. unfold session_information.session_information. perr. Qed.

Lemma uri_err (s : str) : hd_not 117 s = true -> uri.uri s = PErr.
Proof. intros H. unfold uri.uri. perr. Qed.

Lemma email_address_err (s : str) : hd_not 101 s = true -> email_address.email_address s = PErr.
Proof. intros H. unfold email_address.email_address. perr. Qed.

Lemma phone_number_err (s : str) : hd_not 112 s = true -> phone_number.phone_number s = PErr.
Proof. intros H. unfold phone_number.phone_number. perr. Qed.

Lemma connection_err (s : str) : hd_not 99 s = true -> connection.connection s = PErr.
Proof. intros H. unfold connection.connection. perr. Qed.

Lemma bandwidth_err (s : str) : hd_not 98 s = true -> bandwidth.bandwidth s = PErr.
Proof. intros H. unfold bandwidth.bandwidth, bandwidth.bandwidth_type. perr. Qed.

Lemma time_zone_err (s : str) : hd_not 122 s = true -> time_zone.time_zone s = PErr.
Proof. intros H. unfold time_zone.time_zone. perr. Qed.

Lemma encryption_key_err (s : str) : hd_not 107 s = true -> encryption_key.encryption_key s = PErr.
Proof. intros H. unfold encryption_key.encryption_key. perr. Qed.

Lemma attribute_err (s : str) : hd_not 97 s = true -> attribute.attribute s = PErr.
Proof. intros H. unfold attribute.attribute. perr. Qed.

Lemma media_description_err (s : str) :
  hd_not 109 s = true -> media_description.media_description s = PErr.
Proof. intros H. unfold media_description.media_description, media_description.parse_media. perr. Qed.

Ltac split_and :=
  repeat match goal with H : (_ && _) = true |- _ => apply andb_prop in H; destruct H end.

Ltac fa_in :=
  match goal with
  | Hy : In ?y ?l, Hf : forallb ?f ?l = true |- _ =>
      rewrite forallb_forall in Hf; apply Hf, Hy
  end.

Ltac opt_step okl errl cs :=
  apply opt_print;
  [ intros ? ->; apply okl; assumption
  | intros ->; apply errl; apply (hd_in_not cs); [hd_solve | reflexivity] ].

Ltac many_step okl errl cs :=
  apply (many0_print _ _ (fun _ => True));
  [ let y := fresh in let Hy := fresh in intros y ? Hy _; apply okl; fa_in
  | let y := fresh in intros y _; try destruct y; discriminate
  | auto
  | exact I
  | apply errl; apply (hd_in_not cs); [hd_solve | reflexivity] ].

Definition media_description_wf (md : media_description.MediaDescription) : bool :=
  media_wf md.(media_description.media) &&
  opt_wf line_text md.(media_description.title) &&
  opt_wf connection_wf md.(media_description.connection) &&
  forallb bandwidth_wf md.(media_description.bandwidths) &&
  opt_wf encryption_key_wf md.(media_description.encryption_key) &&
  forallb attribute_wf md.(media_description.attributes).

Lemma media_description_ok (md : media_description.MediaDescription) (r : str) :
  media_description_wf md = true -> hd_in [109] r = true ->
  media_description.media_description (media_description.to_string md ++ r) = POk r md.
Proof.
  destruct md as [m ti co bs ek ats]. unfold media_description_wf.
  cbn [media_description.media media_description.title media_description.connection
       media_description.bandwidths media_description.encryption_key
       media_description.attributes].
  intros H Hr. split_and.
  unfold media_description.media_description, media_description.to_string.
  cbn [media_description.media media_description.title media_description.connection
       media_description.bandwidths media_description.encryption_key
       media_description.attributes].
  rewrite <- !app_assoc.
  erewrite pbind_ok by (apply parse_media_ok; assumption). cbv beta.
  erewrite pbind_ok by (opt_step session_information_ok session_information_err [99;98;107;97;109]).
  cbv beta.
  erewrite pbind_ok by (opt_step connection_ok connection_err [98;107;97;109]). cbv beta.
  erewrite pbind_ok by (many_step bandwidth_ok bandwidth_err [107;97;109]). cbv beta.
  erewrite pbind_ok by (opt_step encryption_key_ok encryption_key_err [97;109]). cbv beta.
  erewrite pbind_ok by (many_step attribute_ok attribute_err [109]).
  reflexivity.
Qed.

Definition session_description_wf (x : session_description.SessionDescription) : bool :=
  u8_ok x.(session_description.version) &&
  origin_wf x.(session_description.origin) &&
  line_text x.(session_description.session_name) &&
  opt_wf line_text x.(session_description.session_information) &&
  opt_wf line_text x.(session_description.uri) &&
  forallb line_text x.(session_description.email_addresses) &&
  forallb line_text x.(session_description.phone_numbers) &&
  opt_wf connection_wf x.(session_description.connection) &&
  forallb bandwidth_wf x.(session_description.bandwidths) &&
  time_description_wf x.(session_description.time_description) &&
  opt_wf time_zone_wf x.(session_description.time_zone) &&
  opt_wf encryption_key_wf x.(session_description.encryption_key) &&
  forallb attribute_wf x.(session_description.attributes) &&
  forallb media_description_wf x.(session_description.media_descriptions).

Definition time_zone_string (tz : option time_zone.TimeZone) : option str :=
  match tz with Some t => time_zone.to_string t | None => Some [] end.

Lemma time_zone_part (tz : option time_zone.TimeZone) (tzs R : str) :
  opt_wf time_zone_wf tz = true -> time_zone_string tz = Some tzs ->
  hd_in [107;97;109] R = true ->
  opt time_zone.time_zone (tzs ++ R) = POk R tz.
Proof.
  destruct tz as [t|]; simpl; intros Hw Hs HR.
  - apply opt_some. apply time_zone_ok; [exact Hs | exact Hw |].
    apply (hd_in_nondigit [107;97;109]); [exact HR | reflexivity].
  - injection Hs as <-. apply opt_none. apply time_zone_err.
    apply (hd_in_not [107;97;109]); [exact HR | reflexivity].
Qed.

Lemma time_zone_head (tz : option time_zone.TimeZone) (tzs R : str) :
  time_zone_string tz = Some tzs -> hd_in [122;107;97;109] R = true ->
  hd_in [122;107;97;109] (tzs ++ R) = true.
Proof.
  destruct tz as [[[|a rest]]|]; simpl; intros Hs HR; try discriminate.
  - injection Hs as <-. reflexivity.
  - injection Hs as <-. exact HR.
Qed.

Lemma time_zone_string_some (tz : option time_zone.TimeZone) :
  opt_wf time_zone_wf tz = true -> exists tzs, time_zone_string tz = Some tzs.
Proof.
  destruct tz as [[[|a rest]]|]; simpl; intros H; [discriminate | eexists; reflexivity | eexists; reflexivity].
Qed.

Lemma session_description_parse (x : session_description.SessionDescription) (s r : str) :
  session_description_wf x = true -> session_description.to_string x = Some s ->
  hd_in [] r = true ->
  session_description.session_description (s ++ r) = POk r x.
Proof.
  destruct x as [v o sn si u es ps c bs td tz k ats mds].
  unfold session_description_wf, session_description.to_string.
  cbn [session_description.version session_description.origin session_description.session_name
       session_description.session_information session_description.uri
       session_description.email_addresses session_description.phone_numbers
       session_description.connection session_description.bandwidths
       session_description.time_description session_description.time_zone
       session_description.encryption_key session_description.attributes
       session_description.media_descriptions].
  intros H Hs Hr. split_and.
  change (match tz with Some t => time_zone.to_string t | None => Some [] end)
    with (time_zone_string tz) in Hs.
  destruct (time_zone_string tz) as [tzs|] eqn:Etz; [|discriminate].
  assert (Hs' : s = version.to_string v ++ origin.to_string o ++ session_name.to_string sn ++
      opt_string session_information.to_string si ++ opt_string uri.to_string u ++
      flat_map email_address.to_string es ++ flat_map phone_number.to_string ps ++
      opt_string connection.to_string c ++ flat_map bandwidth.to_string bs ++
      time_description.to_string td ++ tzs ++
      opt_string encryption_key.to_string k ++ flat_map attribute.to_string ats ++
      flat_map media_description.to_string mds)
    by (injection Hs; intros E; first [exact E | symmetry; exact E]).
  subst s. clear Hs.
  unfold session_description.session_description. rewrite <- !app_assoc.
  erewrite pbind_ok by (apply version_ok; assumption). cbv beta.
  erewrite pbind_ok by (apply origin_ok; assumption). cbv beta.
  erewrite pbind_ok by (apply session_name_ok; assumption). cbv beta.
  erewrite pbind_ok by (opt_step session_information_ok session_information_err [117;101;112;99;98;116]).
  cbv beta.
  erewrite pbind_ok by (opt_step uri_ok uri_err [101;112;99;98;116]). cbv beta.
  erewrite pbind_ok by (many_step email_address_ok email_address_err [112;99;98;116]). cbv beta.
  erewrite pbind_ok by (many_step phone_number_ok phone_number_err [99;98;116]). cbv beta.
  erewrite pbind_ok by (opt_step connection_ok connection_err [98;116]). cbv beta.
  erewrite pbind_ok by (many_step bandwidth_ok bandwidth_err [116]). cbv beta.
  erewrite pbind_ok.
  2:{ apply time_description_ok; [assumption|].
      apply (hd_in_not [122;107;97;109]); [|reflexivity].
      apply (time_zone_head tz); [exact Etz | hd_solve]. }
  cbv beta.
  erewrite pbind_ok by (apply (time_zone_part tz); [assumption | exact Etz | hd_solve]). cbv beta.
  erewrite pbind_ok by (opt_step encryption_key_ok encryption_key_err [97;109]). cbv beta.
  erewrite pbind_ok by (many_step attribute_ok attribute_err [109]). cbv beta.
  erewrite pbind_ok.
  2:{ apply (many0_print _ _ (fun r' => hd_in [109] r' = true)).
      - intros y r' Hy Hr'. apply media_description_ok; [fa_in | exact Hr'].
      - intros y _. discriminate.
      - intros y r' _ _. reflexivity.
      - apply (hd_in_incl []); [exact Hr | reflexivity].
      - apply media_description_err. apply (hd_in_not []); [exact Hr | reflexivity]. }
  reflexivity.
Qed.

Lemma time_zone_string_ok (x : session_description.SessionDescription) :
  session_description_wf x = true -> exists s, session_description.to_string x = Some s.
Proof.
  destruct x as [v o sn si u es ps c bs td tz k ats mds].
  unfold session_description_wf, session_description.to_string.
  cbn [session_description.time_zone]. intros H. split_and.
  destruct (time_zone_string_some tz) as [tzs Etz]; [assumption|].
  change (match tz with Some t => time_zone.to_string t | None => Some [] end)
    with (time_zone_string tz). rewrite Etz. eexists. reflexivity.
Qed.

(** Session descriptions for the examples below: the one of the crate's
    own [display_session_description] test, with a time zone line added. *)
Definition example_origin : origin.Origin :=
  {| origin.username := lit "-"; origin.session_id := 1433832402044130222;
     origin.session_version := 3; origin.network_type := lit "IN";
     origin.address_type := lit "IP4"; origin.unicast_address := lit "127.0.0.1" |}.

Definition example_base : session_description.SessionDescription :=
  session_description.base 0 example_origin (lit "-")
    (time_description.base {| time_description.start_time := 0;
                              time_description.stop_time := 0 |}).

Definition example_session : session_description.SessionDescription :=
  {| session_description.version := 0;
     session_description.origin := example_origin;
     session_description.session_name := lit "-";
     session_description.session_information := None;
     session_description.uri := None;
     session_description.email_addresses := [];
     session_description.phone_numbers := [];
     session_description.connection :=
       Some {| connection.network_type := lit "IN"; connection.address_type := lit "IP4";
               connection.connection_address := lit "127.0.0.1" |};
     session_description.bandwidths := [];
     session_description.time_description :=
       time_description.base {| time_description.start_time := 0;
                                time_description.stop_time := 0 |};
     session_description.time_zone :=
       Some {| time_zone.adjustments :=
                 [ {| time_zone.time := 2882844526; time_zone.offset := -3600 |};
                   {| time_zone.time := 2898848070; time_zone.offset := 0 |} ] |};
     session_description.encryption_key := None;
     session_description.attributes :=
       [ attribute.Property (lit "recvonly");
         attribute.Value (lit "group") (lit "BUNDLE 0 1");
         attribute.Value (lit "msid-semantic") (lit " WMS stream") ];
     session_description.media_descriptions :=
       [ media_description.base
           {| media_description.typ := media_description.Audio;
              media_description.port := 49170;
              media_description.protocol := lit "RTP/AVP";
              media_description.format := lit "0" |};
         media_description.and_attribute
           (media_description.base
              {| media_description.typ := media_description.Video;
                 media_description.port := 51372;
                 media_description.protocol := lit "RTP/AVP";
                 media_description.format := lit "99" |})
           (attribute.Value (lit "rtpmap") (lit "99 h263-1998/90000")) ] |}.

Definition half_hour_zone : time_zone.TimeZone :=
  {| time_zone.adjustments := [ {| time_zone.time := 0; time_zone.offset := 1800 |} ] |}.

Definition zero_zone : time_zone.TimeZone :=
  {| time_zone.adjustments := [ {| time_zone.time := 0; time_zone.offset := 0 |} ] |}.

(** C1: whenever every string field of [x] reads back whole from its line
    ([session_description_wf]), the text [x.to_string()] exists and
    [SessionDescription::from_str] gives back exactly [x]. *)
Theorem to_string_from_str (x : session_description.SessionDescription) :
  session_description_wf x = true ->
  exists s, session_description.to_string x = Some s /\
            session_description.from_str s = POk [] x.
Proof.
  intros H. destruct (time_zone_string_ok x H) as [s Hs]. exists s. split; [exact Hs|].
  unfold session_description.from_str, all_consuming.
  rewrite <- (app_nil_r s). rewrite (session_description_parse x s [] H Hs eq_refl).
  reflexivity.
Qed.

Lemma to_string_from_str_witness :
  session_description_wf example_session = true /\
  exists s, session_description.to_string example_session = Some s /\
            session_description.from_str s = POk [] example_session.
Proof.
  split; [vm_compute; reflexivity|].
  apply (to_string_from_str example_session). vm_compute. reflexivity.
Defined.

Lemma to_string_from_str_counterexample :
  (* a time zone offset of half an hour is printed as [0] and read back as 0 *)
  (exists s, session_description.to_string
               (session_description.set_time_zone example_base (Some half_hour_zone)) = Some s /\
             session_description.from_str s =
             POk [] (session_description.set_time_zone example_base (Some zero_zone))) /\
  half_hour_zone <> zero_zone /\
  (* an empty time zone makes [to_string] panic *)
  session_description.to_string
    (session_description.set_time_zone example_base (Some {| time_zone.adjustments := [] |}))
  = None /\
  (* an attribute key with a space comes back as a property *)
  (exists s, session_description.to_string
               (session_description.with_attributes example_base
                  [attribute.Value (lit "a b") (lit "x")]) = Some s /\
             session_description.from_str s =
             POk [] (session_description.with_attributes example_base
                       [attribute.Property (lit "a b:x")])).
Proof.
  split; [eexists; split; [vm_compute; reflexivity | vm_compute; reflexivity]|].
  split; [unfold half_hour_zone, zero_zone; intros E; injection E; lia|].
  split; [vm_compute; reflexivity|].
  eexists; split; [vm_compute; reflexivity | vm_compute; reflexivity].
Qed.

End SdpFacts.


Module StunExtra.
Import Stun.

Lemma pbind_okb {I A B} (p : Parser I A) (f : A -> Parser I B) i r a :
  p i = POk r a -> pbind p f i = f a r.
Proof. unfold pbind. intros ->. reflexivity. Qed.

Lemma from_be_bytes_app (l : list byte) (b : byte) :
  from_be_bytes (l ++ [b]) = from_be_bytes l * 256 + bval b.
Proof. unfold from_be_bytes. rewrite fold_left_app. reflexivity. Qed.

Lemma from_to_be_bytes (k : nat) (n : Z) :
  from_be_bytes (to_be_bytes k n) = n mod 2 ^ (8 * Z.of_nat k).
Proof.
  revert n; induction k as [|k IH]; intros n; [simpl; rewrite Z.mod_1_r; reflexivity|].
  cbn [to_be_bytes]. rewrite from_be_bytes_app, IH, bval_zbyte, Z.shiftr_div_pow2 by lia.
  replace (8 * Z.of_nat (S k)) with (8 * Z.of_nat k + 8) by lia.
  rewrite Z.pow_add_r by lia. change (2 ^ 8) with 256.
  rewrite (Z.mul_comm (2 ^ (8 * Z.of_nat k)) 256).
  rewrite Z.rem_mul_r by (try apply Z.pow_nonzero; lia).
  lia.
Qed.

Lemma from_to_be_bytes_id (k : nat) (n : Z) :
  0 <= n < 2 ^ (8 * Z.of_nat k) -> from_be_bytes (to_be_bytes k n) = n.
Proof. intros H. rewrite from_to_be_bytes. apply Z.mod_small, H. Qed.

Lemma bytes_eqb_refl (l : list byte) : bytes_eqb l l = true.
Proof. induction l; simpl; [reflexivity|]. destruct a; exact IHl. Qed.

Lemma to_be_bytes_2 (n : Z) : to_be_bytes 2 n = [zbyte (Z.shiftr n 8); zbyte n].
Proof. reflexivity. Qed.

Lemma be_u16_to_be_mod (n : Z) (r : list byte) :
  be_u16 (to_be_bytes 2 n ++ r) = POk r (n mod 65536).
Proof.
  pose proof (from_to_be_bytes 2 n) as E.
  rewrite to_be_bytes_2 in *. unfold from_be_bytes in E. simpl in E. simpl. rewrite E. reflexivity.
Qed.

Lemma be_u16_to_be (n : Z) (r : list byte) :
  0 <= n < 65536 -> be_u16 (to_be_bytes 2 n ++ r) = POk r n.
Proof. intros H. rewrite be_u16_to_be_mod, Z.mod_small by exact H. reflexivity. Qed.

Lemma take_bytes_app (l r : list byte) (n : nat) :
  List.length l = n -> take_bytes n (l ++ r) = POk r l.
Proof.
  intros <-. unfold take_bytes. rewrite length_app.
  replace (List.length l + List.length r <? List.length l)%nat with false
    by (symmetry; apply Nat.ltb_ge; lia).
  rewrite firstn_app, skipn_app, firstn_all, skipn_all, !Nat.sub_diag, firstn_O, app_nil_r.
  reflexivity.
Qed.

Lemma tag_bytes_app (t r : list byte) : tag_bytes t (t ++ r) = POk r t.
Proof.
  unfold tag_bytes. rewrite firstn_app, firstn_all, Nat.sub_diag, firstn_O, app_nil_r.
  rewrite bytes_eqb_refl, skipn_app, skipn_all, Nat.sub_diag. reflexivity.
Qed.

Lemma header_read (h : Header) (r : list byte) :
  0 <= h.(length) < 65536 -> List.length h.(transaction_id) = 12%nat ->
  parse_header (header_to_bytes h ++ r) = POk r h.
Proof.
  destruct h as [c m len tid]; cbn [Stun.length transaction_id]; intros Hl Ht.
  unfold parse_header, header_to_bytes. cbn [class method Stun.length transaction_id].
  rewrite <- !app_assoc.
  erewrite pbind_okb.
  2:{ unfold message_type_field. erewrite pbind_okb by (apply take_bytes_app; reflexivity).
      destruct c, m; reflexivity. }
  erewrite pbind_okb by (apply be_u16_to_be; exact Hl).
  erewrite pbind_okb by apply tag_bytes_app.
  erewrite pbind_okb by (apply take_bytes_app; exact Ht).
  destruct c, m; reflexivity.
Qed.

Lemma lxor_mod (a b n : Z) : 0 <= n -> Z.lxor a b mod 2 ^ n = Z.lxor (a mod 2 ^ n) (b mod 2 ^ n).
Proof.
  intros Hn. apply Z.bits_inj'. intros i Hi. rewrite Z.lxor_spec.
  destruct (Z.lt_ge_cases i n).
  - rewrite !Z.mod_pow2_bits_low by lia. apply Z.lxor_spec.
  - rewrite !Z.mod_pow2_bits_high by lia. reflexivity.
Qed.

Lemma lxor_back (a c n : Z) : 0 <= n -> 0 <= a < 2 ^ n -> 0 <= c < 2 ^ n ->
  Z.lxor (Z.lxor a c mod 2 ^ n) c = a.
Proof.
  intros Hn Ha Hc. rewrite lxor_mod, !Z.mod_small by lia.
  rewrite Z.lxor_assoc, Z.lxor_nilpotent, Z.lxor_0_r. reflexivity.
Qed.

Definition frame : Parser (list byte) (Z * list byte) :=
  typ <- be_u16 ;; v <- length_data ;; pret (typ, v).

Lemma frame_read (t : Z) (v r : list byte) :
  0 <= t < 65536 -> Z.of_nat (List.length v) < 65536 ->
  frame (to_be_bytes 2 t ++ to_be_bytes 2 (Z.of_nat (List.length v)) ++ v ++ r) = POk r (t, v).
Proof.
  intros Ht Hv. unfold frame.
  erewrite pbind_okb by (apply be_u16_to_be; exact Ht).
  unfold length_data.
  erewrite pbind_okb.
  2:{ erewrite pbind_okb by (apply be_u16_to_be; lia).
      rewrite Nat2Z.id, length_app.
      replace (List.length v + List.length r <? List.length v)%nat with false
        by (symmetry; apply Nat.ltb_ge; lia).
      rewrite firstn_app, firstn_all, Nat.sub_diag, firstn_O, app_nil_r.
      rewrite skipn_app, skipn_all, Nat.sub_diag. reflexivity. }
  reflexivity.
Qed.

Lemma attribute_frame (t : Z) (v r : list byte) (p : Parser (list byte) Attribute) (a : Attribute) :
  0 <= t < 65536 -> Z.of_nat (List.length v) < 65536 -> (List.length v mod 4 = 0)%nat ->
  attribute_parser t = Some p -> p v = POk [] a ->
  attribute (to_be_bytes 2 t ++ to_be_bytes 2 (Z.of_nat (List.length v)) ++ v ++ r) = POk r a.
Proof.
  intros Ht Hv Hm Hp Hpv. unfold attribute. fold frame. rewrite frame_read by assumption.
  rewrite Hm. cbn -[attribute_parser]. rewrite Hp. unfold all_consuming. rewrite Hpv. reflexivity.
Qed.

(** Attributes that [Attribute::to_bytes] writes and [attribute] reads
    back: no [unimplemented!()] arm, values in range, a USERNAME that is
    valid UTF-8 and needs no padding, MESSAGE-INTEGRITY of 20 bytes. *)
Definition attr_wf (a : Attribute) : bool :=
  match a with
  | Fingerprint v => (0 <=? v) && (v <? 2 ^ 32)
  | MessageIntegrity code => Nat.eqb (List.length code) 20
  | Username u =>
      utf8_valid u && (Z.of_nat (List.length u) <? 65536) && Nat.eqb (List.length u mod 4) 0
  | XorMappedAddress (V4 addr) port =>
      (0 <=? addr) && (addr <? 2 ^ 32) && (0 <=? port) && (port <? 65536)
  | _ => false
  end.

Lemma u16_of_len_ok (n : nat) : Z.of_nat n < 65536 -> u16_of_len n = Some (Z.of_nat n).
Proof.
  intros H. unfold u16_of_len. replace (Z.of_nat n <? 65536) with true by (symmetry; apply Z.ltb_lt; lia).
  reflexivity.
Qed.

Lemma attribute_bytes (a : Attribute) :
  attr_wf a = true ->
  exists t v p, attribute_to_bytes a = Some (to_be_bytes 2 t ++ to_be_bytes 2 (Z.of_nat (List.length v)) ++ v) /\
    0 <= t < 65536 /\ Z.of_nat (List.length v) < 65536 /\ (List.length v mod 4 = 0)%nat /\
    attribute_parser t = Some p /\ p v = POk [] a.
Proof.
  destruct a as [v|v|code|v|u|[addr|addr] port]; simpl attr_wf; intros H; try discriminate.
  - (* FINGERPRINT *)
    apply andb_prop in H as [H1 H2]. apply Z.leb_le in H1. apply Z.ltb_lt in H2.
    exists 0x8028, (to_be_bytes 4 v), fingerprint. repeat split; try lia; try reflexivity.
    unfold fingerprint.
    rewrite firstn_all2, skipn_all2 by (rewrite to_be_bytes_length; lia).
    rewrite from_to_be_bytes_id by (simpl; lia). rewrite to_be_bytes_length. reflexivity.
  - (* MESSAGE-INTEGRITY *)
    apply Nat.eqb_eq in H.
    exists 0x0008, code, message_integrity. repeat split; try lia; try reflexivity.
    + unfold attribute_to_bytes, message_integrity_to_bytes. rewrite H. reflexivity.
    + rewrite H. reflexivity.
    + unfold message_integrity. rewrite H. cbn -[firstn skipn].
      rewrite firstn_all2, skipn_all2 by lia. reflexivity.
  - (* USERNAME *)
    apply andb_prop in H as [H H3]. apply andb_prop in H as [H1 H2].
    apply Z.ltb_lt in H2. apply Nat.eqb_eq in H3.
    exists 0x0006, u, username. repeat split; try lia; try assumption; try reflexivity.
    + unfold attribute_to_bytes, username_to_bytes. rewrite u16_of_len_ok by exact H2. reflexivity.
    + unfold username. rewrite H1. reflexivity.
  - (* XOR-MAPPED-ADDRESS *)
    apply andb_prop in H as [H H4]. apply andb_prop in H as [H H3]. apply andb_prop in H as [H1 H2].
    apply Z.leb_le in H1. apply Z.ltb_lt in H2. apply Z.leb_le in H3. apply Z.ltb_lt in H4.
    exists 0x0020, (to_be_bytes 2 0x01 ++ to_be_bytes 2 (Z.lxor port (Z.land (Z.shiftr MAGIC_COOKIE 16) 0xFFFF))
                    ++ to_be_bytes 4 (Z.lxor addr MAGIC_COOKIE)), xor_mapped_address.
    repeat split; try lia; try reflexivity.
    unfold xor_mapped_address.
    erewrite pbind_okb by (apply be_u16_to_be; lia).
    erewrite pbind_okb by apply be_u16_to_be_mod.
    cbv beta.
    rewrite firstn_all2, skipn_all2 by (rewrite to_be_bytes_length; lia).
    rewrite from_to_be_bytes, to_be_bytes_length.
    change (8 * Z.of_nat 4) with 32.
    change (Z.land (Z.shiftr MAGIC_COOKIE 16) 0xFFFF) with 0x2112.
    change 65536 with (2 ^ 16).
    rewrite !lxor_back by (unfold MAGIC_COOKIE; lia).
    reflexivity.
Qed.

Lemma attribute_read (a : Attribute) (b : list byte) :
  attr_wf a = true -> attribute_to_bytes a = Some b ->
  (forall r, attribute (b ++ r) = POk r a) /\ (4 <= List.length b)%nat.
Proof.
  intros Ha Hb. destruct (attribute_bytes a Ha) as (t & v & p & E & Ht & Hv & Hm & Hp & Hpv).
  rewrite E in Hb. injection Hb. intros Eb. subst b. split.
  - intros r. idtac. apply (attribute_frame t v r p a); assumption.
  - simpl. rewrite ?length_app. simpl. lia.
Qed.

Lemma attributes_read (attrs : list Attribute) (bs : list byte) (fuel : nat) :
  forallb attr_wf attrs = true -> attributes_to_bytes attrs = Some bs ->
  (List.length attrs < fuel)%nat ->
  many0_fuel fuel attribute bs = POk [] attrs /\ (List.length attrs <= List.length bs)%nat.
Proof.
  revert bs fuel. induction attrs as [|a attrs IH]; intros bs fuel Hwf Hbs Hf;
    (destruct fuel as [|f]; [simpl in Hf; lia|]).
  - injection Hbs as <-. split; reflexivity.
  - simpl in Hwf. apply andb_prop in Hwf as [Ha Hrest].
    simpl in Hbs. destruct (attribute_to_bytes a) as [b|] eqn:Eb; [|discriminate].
    destruct (attributes_to_bytes attrs) as [bs'|] eqn:Ebs; [|discriminate].
    injection Hbs as <-.
    destruct (attribute_read a b Ha Eb) as [Hr Hl].
    destruct (IH bs' f Hrest eq_refl ltac:(simpl in Hf; lia)) as [IH1 IH2].
    cbn [many0_fuel]. rewrite Hr.
    replace (Nat.eqb (List.length bs') (List.length (b ++ bs'))) with false
      by (symmetry; apply Nat.eqb_neq; rewrite length_app; lia).
    rewrite IH1. split; [reflexivity|]. rewrite length_app. simpl. lia.
Qed.

(** A Binding Request with a USERNAME and an XOR-MAPPED-ADDRESS. *)
Definition example_message : Message :=
  {| header := {| class := Request; method := Binding; Stun.length := 20;
                  transaction_id := repeat x01 12 |};
     attributes := [Username [x61; x62; x63; x64]; XorMappedAddress (V4 0xC0A80002) 50000] |}.

Definition example_message_bytes : list byte :=
  Eval vm_compute in
    match message_to_bytes example_message with Some bs => bs | None => [] end.

(** Round trip of messages: for a 16-bit header length, a 12-byte
    transaction id and well-formed attributes, [message] reads the bytes
    written by [Message::to_bytes] back as the same message, consuming
    them all. *)
Theorem message_round_trip (m : Message) (bs : list byte) :
  0 <= m.(header).(length) < 65536 -> List.length m.(header).(transaction_id) = 12%nat ->
  forallb attr_wf m.(attributes) = true ->
  message_to_bytes m = Some bs -> message bs = POk [] m.
Proof.
  destruct m as [h attrs]; cbn [header attributes]. intros Hl Ht Hwf Hbs.
  unfold message_to_bytes in Hbs. cbn [header attributes] in Hbs.
  destruct (attributes_to_bytes attrs) as [abs|] eqn:E; [|discriminate].
  injection Hbs as <-. unfold message.
  erewrite pbind_okb by (apply header_read; assumption).
  erewrite pbind_okb.
  2:{ unfold many0. apply (attributes_read attrs abs); [exact Hwf | exact E |].
      pose proof (proj2 (attributes_read attrs abs (S (List.length attrs)) Hwf E ltac:(lia))). lia. }
  reflexivity.
Qed.

Lemma message_round_trip_witness :
  0 <= example_message.(header).(length) < 65536 /\
  List.length example_message.(header).(transaction_id) = 12%nat /\
  forallb attr_wf example_message.(attributes) = true /\
  message_to_bytes example_message = Some example_message_bytes /\
  message example_message_bytes = POk [] example_message.
Proof.
  do 4 (split; [first [vm_compute; reflexivity | simpl; lia] |]).
  apply message_round_trip; [simpl; lia | reflexivity | vm_compute; reflexivity | vm_compute; reflexivity].
Defined.

(** USERNAME is written without padding but read with padding: after the
    unpadded value, [attribute] skips up to three more bytes to reach a
    multiple of four, and panics when fewer bytes remain. *)
Theorem username_padding_read (u b r : list byte) :
  utf8_valid u = true -> username_to_bytes u = Some b ->
  attribute (b ++ r) =
    let pad_len := ((4 - List.length u mod 4) mod 4)%nat in
    if (List.length r <? pad_len)%nat then PPanic
    else POk (skipn pad_len r) (Username u).
Proof.
  intros Hu Hb. unfold username_to_bytes, u16_of_len in Hb.
  destruct (Z.of_nat (List.length u) <? 65536) eqn:Hl; [|discriminate].
  apply Z.ltb_lt in Hl.
  assert (Eb : b = to_be_bytes 2 0x0006 ++ to_be_bytes 2 (Z.of_nat (List.length u)) ++ u)
    by (injection Hb; intros E; first [exact (eq_sym E) | exact E]).
  subst b. rewrite <- !app_assoc. unfold attribute. fold frame.
  rewrite frame_read by (first [lia | exact Hl]).
  cbv zeta. destruct (List.length r <? (4 - List.length u mod 4) mod 4)%nat; [reflexivity|].
  cbn -[skipn Nat.modulo Nat.sub]. unfold all_consuming, username. rewrite Hu. reflexivity.
Qed.

Lemma username_padding_read_witness :
  utf8_valid [x6b; x6e; x75; x74; x68] = true /\
  username_to_bytes [x6b; x6e; x75; x74; x68] =
    Some [x00; x06; x00; x05; x6b; x6e; x75; x74; x68] /\
  attribute ([x00; x06; x00; x05; x6b; x6e; x75; x74; x68] ++ [x80; x28; x00; x04; xde; xad; xbe; xef])
    = POk [x04; xde; xad; xbe; xef] (Username [x6b; x6e; x75; x74; x68]).
Proof.
  split; [reflexivity|]. split; [reflexivity|].
  exact (username_padding_read [x6b; x6e; x75; x74; x68] [x00; x06; x00; x05; x6b; x6e; x75; x74; x68]
           [x80; x28; x00; x04; xde; xad; xbe; xef] eq_refl eq_refl).
Defined.

(** Round trip of the header: [header] reads back the bytes written by
    [Header::to_bytes], for a 16-bit length and a 12-byte transaction id,
    and leaves what follows them. *)
Theorem header_round_trip (h : Header) (r : list byte) :
  0 <= h.(length) < 65536 -> List.length h.(transaction_id) = 12%nat ->
  parse_header (header_to_bytes h ++ r) = POk r h.
Proof. intros Hl Ht. apply header_read; assumption. Qed.

Definition example_header : Header :=
  {| class := Success; method := Binding; Stun.length := 44; transaction_id := repeat x2a 12 |}.

Lemma header_round_trip_witness :
  0 <= example_header.(length) < 65536 /\ List.length example_header.(transaction_id) = 12%nat
  /\ parse_header (header_to_bytes example_header ++ [x00; x06]) = POk [x00; x06] example_header.
Proof.
  split; [simpl; lia|]. split; [reflexivity|].
  apply header_round_trip; [simpl; lia | reflexivity].
Defined.

Lemma bytes_eqb_eq (a b : list byte) : bytes_eqb a b = true -> a = b.
Proof.
  revert b; induction a as [|x a IH]; intros [|y b]; simpl; try discriminate; [reflexivity|].
  intros H. apply andb_prop in H as [H1 H2]. apply Byte.byte_dec_bl in H1. subst y.
  rewrite (IH b H2). reflexivity.
Qed.

(** A header whose bytes 4 to 7 are not the magic cookie is refused
    with a parse error. *)
Theorem header_wrong_cookie (h : Header) (c rest : list byte) :
  0 <= h.(length) < 65536 -> List.length c = 4%nat -> c <> to_be_bytes 4 MAGIC_COOKIE ->
  parse_header (firstn 4 (header_to_bytes h) ++ c ++ rest) = PErr.
Proof.
  destruct h as [cl m len tid]; cbn [Stun.length]; intros Hl Hc Hne.
  unfold header_to_bytes. cbv zeta. cbn [class method Stun.length transaction_id].
  rewrite (app_assoc (to_be_bytes 2 _) (to_be_bytes 2 len)), firstn_app, length_app,
    !to_be_bytes_length. cbn [Nat.add Nat.sub].
  rewrite firstn_O, app_nil_r, firstn_all2 by (rewrite length_app, !to_be_bytes_length; lia).
  unfold parse_header. rewrite <- !app_assoc.
  erewrite pbind_okb.
  2:{ unfold message_type_field. erewrite pbind_okb by (apply take_bytes_app; reflexivity).
      destruct cl, m; reflexivity. }
  erewrite pbind_okb by (apply be_u16_to_be; exact Hl).
  unfold pbind at 1. unfold tag_bytes. rewrite to_be_bytes_length.
  rewrite firstn_app, Hc, Nat.sub_diag, firstn_O, app_nil_r, firstn_all2 by lia.
  destruct (bytes_eqb c (to_be_bytes 4 MAGIC_COOKIE)) eqn:E; [|reflexivity].
  apply bytes_eqb_eq in E. contradiction.
Qed.

Lemma header_wrong_cookie_witness :
  parse_header (firstn 4 (header_to_bytes example_header) ++ [x21; x12; xa4; x43] ++ repeat x2a 12)
  = PErr.
Proof.
  apply header_wrong_cookie; [simpl; lia | reflexivity | vm_compute; discriminate].
Defined.

(** The first two bits of a STUN message are zero: an input whose first
    byte is 0x40 or above is refused with a parse error. *)
Theorem header_nonzero_leading_bits (b0 b1 : byte) (rest : list byte) :
  64 <= bval b0 -> parse_header (b0 :: b1 :: rest) = PErr.
Proof.
  intros Hb.
  assert (E : message_type_field ([b0; b1] ++ rest) = PErr).
  { unfold message_type_field. erewrite pbind_okb by (apply take_bytes_app; reflexivity).
    unfold message_type. pose proof (bval_range b0). pose proof (bval_range b1).
    rewrite Z.shiftr_div_pow2 by lia. change (2 ^ 14) with 16384.
    replace ((bval b0 * 256 + bval b1) / 16384 =? 0) with false; [reflexivity|].
    symmetry. apply Z.eqb_neq. intros E.
    assert (bval b0 * 256 + bval b1 < 16384) by (apply Z.div_small_iff in E; lia). lia. }
  unfold parse_header, pbind at 1. change (b0 :: b1 :: rest) with ([b0; b1] ++ rest).
  rewrite E. reflexivity.
Qed.

Lemma header_nonzero_leading_bits_witness :
  parse_header (x47 :: x45 :: [x54; x20; x2f]) = PErr.
Proof. apply header_nonzero_leading_bits. vm_compute. discriminate. Defined.

(** In a message, an attribute with a comprehension-required type that
    [attribute] does not know (below 0x8000, none of USERNAME,
    MESSAGE-INTEGRITY, XOR-MAPPED-ADDRESS, PRIORITY) makes [message]
    panic ([unimplemented!()]). *)
Theorem message_unknown_required_panics (h : Header) (t : Z) (v r : list byte) :
  0 <= h.(length) < 65536 -> List.length h.(transaction_id) = 12%nat ->
  0 <= t < 0x8000 -> t <> 0x0006 -> t <> 0x0008 -> t <> 0x0020 -> t <> 0x0024 ->
  Z.of_nat (List.length v) < 65536 ->
  message (header_to_bytes h ++ to_be_bytes 2 t ++ to_be_bytes 2 (Z.of_nat (List.length v)) ++ v ++ r)
  = PPanic.
Proof.
  intros Hl Htid Ht H6 H8 H20 H24 Hv. unfold message.
  erewrite pbind_okb by (apply header_read; assumption).
  assert (Hp : attribute_parser t = None).
  { unfold attribute_parser.
    replace (t =? 6) with false by (symmetry; apply Z.eqb_neq; lia).
    replace (t =? 8) with false by (symmetry; apply Z.eqb_neq; lia).
    replace (t =? 0x20) with false by (symmetry; apply Z.eqb_neq; lia).
    replace (t =? 0x24) with false by (symmetry; apply Z.eqb_neq; lia).
    replace (0x8000 <=? t) with false by (symmetry; apply Z.leb_gt; lia).
    replace (t =? 0x8028) with false by (symmetry; apply Z.eqb_neq; lia).
    replace (0x8029 <=? t) with false by (symmetry; apply Z.leb_gt; lia).
    reflexivity. }
  assert (Ha : attribute (to_be_bytes 2 t ++ to_be_bytes 2 (Z.of_nat (List.length v)) ++ v ++ r) = PPanic).
  { unfold attribute. fold frame. rewrite frame_read by (first [lia | exact Hv]).
    cbv zeta. destruct (List.length r <? _)%nat; [reflexivity|]. rewrite Hp. reflexivity. }
  unfold pbind at 1, many0. cbn [many0_fuel]. rewrite Ha. reflexivity.
Qed.

Lemma message_unknown_required_panics_witness :
  message (header_to_bytes example_header ++ to_be_bytes 2 0x0025
           ++ to_be_bytes 2 (Z.of_nat (List.length (@nil byte))) ++ [] ++ []) = PPanic.
Proof.
  apply message_unknown_required_panics; [simpl; lia | reflexivity | lia | lia | lia | lia | lia | simpl; lia].
Defined.

(** [with_attributes] adds to the header length the lengths of the
    attributes the message had before the call: on a message built by
    [base] it replaces the attributes and leaves the header as it was. *)
Theorem with_attributes_base (h : Header) (attrs : list Attribute) :
  with_attributes (base h) attrs = Some {| header := h; attributes := attrs |}.
Proof. destruct h. reflexivity. Qed.

(** The header length is the byte length of the attributes. *)
Definition length_consistent (m : Message) : Prop :=
  exists abs, attributes_to_bytes m.(attributes) = Some abs
              /\ m.(header).(length) = Z.of_nat (List.length abs).

Lemma attributes_to_bytes_app (l1 l2 : list Attribute) (b1 b2 : list byte) :
  attributes_to_bytes l1 = Some b1 -> attributes_to_bytes l2 = Some b2 ->
  attributes_to_bytes (l1 ++ l2) = Some (b1 ++ b2).
Proof.
  revert b1; induction l1 as [|a l1 IH]; intros b1 H1 H2; simpl in *.
  - injection H1 as <-. exact H2.
  - destruct (attribute_to_bytes a) as [ba|]; [|discriminate].
    destruct (attributes_to_bytes l1) as [bl|] eqn:E; [|discriminate].
    injection H1 as <-. rewrite (IH bl eq_refl H2), app_assoc. reflexivity.
Qed.

(** [and_attribute] keeps the header length equal to the byte length of
    the attributes, and keeps the class, method and transaction id. *)
Theorem and_attribute_length_consistent (m m' : Message) (a : Attribute) :
  length_consistent m -> and_attribute m a = Some m' ->
  length_consistent m' /\ m'.(header).(class) = m.(header).(class)
  /\ m'.(header).(method) = m.(header).(method)
  /\ m'.(header).(transaction_id) = m.(header).(transaction_id)
  /\ m'.(attributes) = m.(attributes) ++ [a].
Proof.
  intros [abs [Habs Hlen]] H. unfold and_attribute in H.
  destruct (attribute_to_bytes a) as [bs|] eqn:Ebs; [|discriminate].
  unfold u16_of_len in H. destruct (Z.of_nat (List.length bs) <? 65536); [|discriminate].
  unfold u16_add in H. destruct (m.(header).(length) + Z.of_nat (List.length bs) <? 65536); [|discriminate].
  injection H as <-. cbn. refine (conj _ (conj eq_refl (conj eq_refl (conj eq_refl eq_refl)))).
  exists (abs ++ bs). split.
  - apply attributes_to_bytes_app; [exact Habs|]. simpl. rewrite Ebs, app_nil_r. reflexivity.
  - rewrite Hlen, length_app. unfold set_attributes, set_length. cbn [header Stun.length]. lia.
Qed.

Lemma and_attribute_length_consistent_witness :
  length_consistent (set_length (base example_header) 0)
  /\ exists m', and_attribute (set_length (base example_header) 0) (Username [x61; x62; x63; x64]) = Some m'
  /\ length_consistent m'.
Proof.
  assert (H0 : length_consistent (set_length (base example_header) 0)) by (exists []; split; reflexivity).
  split; [exact H0|].
  eexists. split; [vm_compute; reflexivity|].
  exact (proj1 (and_attribute_length_consistent _ _ (Username [x61; x62; x63; x64]) H0 eq_refl)).
Defined.

End StunExtra.


Module StunTlvExtra.
Import StunTlv StunTlvParse.

Lemma length_data_read (v r : list byte) :
  Z.of_nat (List.length v) < 65536 ->
  length_data (to_be_bytes 2 (Z.of_nat (List.length v)) ++ v ++ r) = POk r v.
Proof.
  intros Hv. unfold length_data.
  erewrite StunExtra.pbind_okb by (apply StunExtra.be_u16_to_be; lia).
  rewrite Nat2Z.id, length_app.
  replace (List.length v + List.length r <? List.length v)%nat with false
    by (symmetry; apply Nat.ltb_ge; lia).
  rewrite firstn_app, firstn_all, Nat.sub_diag, firstn_O, app_nil_r.
  rewrite skipn_app, skipn_all, Nat.sub_diag. reflexivity.
Qed.

Lemma tagged_read (t : Z) (v r : list byte) :
  Z.of_nat (List.length v) < 65536 ->
  tagged_value t (to_be_bytes 2 t ++ to_be_bytes 2 (Z.of_nat (List.length v)) ++ v ++ r) = POk r v.
Proof.
  intros Hv. unfold tagged_value.
  erewrite StunExtra.pbind_okb by apply StunExtra.tag_bytes_app.
  apply length_data_read, Hv.
Qed.

Lemma to_bytes_co (t : Z) (v : list byte) :
  Z.of_nat (List.length v) < 65536 ->
  to_bytes (AComprehensionOptional (MkComprehensionOptional t v))
  = Some (to_be_bytes 2 t ++ to_be_bytes 2 (Z.of_nat (List.length v)) ++ v).
Proof. intros H. unfold to_bytes. simpl. rewrite (StunExtra.u16_of_len_ok _ H). reflexivity. Qed.


Ltac dispatch :=
  unfold attribute; rewrite StunExtra.be_u16_to_be by lia;
  repeat match goal with
         | |- context [if ?a =? ?b then _ else _] =>
             let v := eval vm_compute in (a =? b) in change (a =? b) with v
         | |- context [if ?a >=? ?b then _ else _] =>
             let v := eval vm_compute in (a >=? b) in change (a >=? b) with v
         end;
  cbv iota.

Lemma fingerprint_read (v : Z) (r : list byte) :
  0 <= v < 2 ^ 32 ->
  attribute (to_be_bytes 2 0x8028 ++ to_be_bytes 2 4 ++ to_be_bytes 4 (Z.lxor v Stun.FINGERPRINT_COOKIE) ++ r)
  = POk r (AFingerprint (MkFingerprint v)).
Proof.
  intros Hv. dispatch. unfold fingerprint.
  change (to_be_bytes 2 4) with
    (to_be_bytes 2 (Z.of_nat (List.length (to_be_bytes 4 (Z.lxor v Stun.FINGERPRINT_COOKIE))))).
  erewrite StunExtra.pbind_okb by (apply tagged_read; rewrite to_be_bytes_length; lia).
  rewrite to_be_bytes_length. cbn [Nat.eqb].
  rewrite StunExtra.from_to_be_bytes. change (8 * Z.of_nat 4) with 32.
  rewrite StunExtra.lxor_back by (unfold Stun.FINGERPRINT_COOKIE; lia). reflexivity.
Qed.

Lemma priority_read (v : Z) (r : list byte) :
  0 <= v < 2 ^ 32 ->
  attribute (to_be_bytes 2 0x0024 ++ to_be_bytes 2 4 ++ to_be_bytes 4 v ++ r)
  = POk r (APriority (MkPriority v)).
Proof.
  intros Hv. dispatch. unfold priority.
  change (to_be_bytes 2 4) with (to_be_bytes 2 (Z.of_nat (List.length (to_be_bytes 4 v)))).
  erewrite StunExtra.pbind_okb by (apply tagged_read; rewrite to_be_bytes_length; lia).
  rewrite to_be_bytes_length. cbn [Nat.eqb].
  rewrite StunExtra.from_to_be_bytes_id by (change (8 * Z.of_nat 4) with 32; lia). reflexivity.
Qed.

Lemma message_integrity_read (b r : list byte) :
  List.length b = 20%nat ->
  attribute (to_be_bytes 2 0x0008 ++ to_be_bytes 2 20 ++ b ++ r)
  = POk r (AMessageIntegrity (MkMessageIntegrity b)).
Proof.
  intros Hb. dispatch. unfold message_integrity.
  replace 20 with (Z.of_nat (List.length b)) by (rewrite Hb; reflexivity).
  erewrite StunExtra.pbind_okb by (apply tagged_read; rewrite Hb; lia).
  rewrite Hb. reflexivity.
Qed.

Lemma username_read (s r : list byte) :
  utf8_valid s = true -> Z.of_nat (List.length s) < 65536 ->
  attribute (to_be_bytes 2 0x0006 ++ to_be_bytes 2 (Z.of_nat (List.length s)) ++ pad4 s ++ r)
  = POk r (AUsername (MkUsername s)).
Proof.
  intros Hu Hs. dispatch. unfold username, pad4. rewrite <- app_assoc.
  erewrite StunExtra.pbind_okb by (apply tagged_read; exact Hs).
  rewrite length_app, repeat_length.
  replace (_ + List.length r <? _)%nat with false by (symmetry; apply Nat.ltb_ge; lia).
  rewrite skipn_app, skipn_all2 by (rewrite repeat_length; lia).
  rewrite repeat_length, Nat.sub_diag. cbn [skipn app]. rewrite Hu. reflexivity.
Qed.

Lemma comprehension_optional_read (t : Z) (v r : list byte) :
  0x8000 <= t < 65536 -> t <> 0x8028 -> Z.of_nat (List.length v) < 65536 ->
  attribute (to_be_bytes 2 t ++ to_be_bytes 2 (Z.of_nat (List.length v)) ++ v ++ r)
  = POk r (AComprehensionOptional (MkComprehensionOptional t v)).
Proof.
  intros Ht Ht' Hv. unfold attribute. rewrite StunExtra.be_u16_to_be by lia.
  replace (t =? 6) with false by (symmetry; apply Z.eqb_neq; lia).
  replace (t =? 8) with false by (symmetry; apply Z.eqb_neq; lia).
  replace (t =? 9) with false by (symmetry; apply Z.eqb_neq; lia).
  replace (t =? 0x20) with false by (symmetry; apply Z.eqb_neq; lia).
  replace (t =? 0x24) with false by (symmetry; apply Z.eqb_neq; lia).
  replace (t =? 0x8028) with false by (symmetry; apply Z.eqb_neq; lia).
  replace (t >=? 0x8000) with true by (symmetry; rewrite Z.geb_le; lia).
  unfold comprehension_optional.
  erewrite StunExtra.pbind_okb by (apply StunExtra.be_u16_to_be; lia).
  erewrite StunExtra.pbind_okb by (apply length_data_read; exact Hv).
  reflexivity.
Qed.

Lemma xor_mapped_address_read (a p : Z) (r : list byte) :
  0 <= a < 2 ^ 32 -> 0 <= p < 65536 ->
  attribute (to_be_bytes 2 0x0020 ++ to_be_bytes 2 8
             ++ (to_be_bytes 2 0x01 ++ to_be_bytes 2 (Z.lxor p (Z.shiftr Stun.MAGIC_COOKIE 16))
                 ++ to_be_bytes 4 (Z.lxor a Stun.MAGIC_COOKIE)) ++ r)
  = POk r (AXorMappedAddress (MkXorMappedAddress (Stun.V4 a) p)).
Proof.
  intros Ha Hp. dispatch. unfold xor_mapped_address.
  set (v := to_be_bytes 2 0x01 ++ _ ++ _).
  change (to_be_bytes 2 8) with (to_be_bytes 2 (Z.of_nat (List.length v))).
  erewrite StunExtra.pbind_okb by (apply tagged_read; subst v; reflexivity || (cbn; lia)).
  subst v.
  erewrite StunExtra.pbind_okb by (apply StunExtra.be_u16_to_be; lia).
  erewrite StunExtra.pbind_okb by apply StunExtra.be_u16_to_be_mod.
  rewrite <- (app_nil_r (to_be_bytes 4 _)).
  cbn [pret]. rewrite app_nil_r, firstn_all2 by (rewrite to_be_bytes_length; lia).
  rewrite to_be_bytes_length. change (Z.land 1 255 =? 1) with true. cbn [Nat.ltb Nat.leb].
  rewrite StunExtra.from_to_be_bytes. change (8 * Z.of_nat 4) with 32.
  change (Z.shiftr Stun.MAGIC_COOKIE 16) with 8466. change 65536 with (2 ^ 16).
  rewrite !StunExtra.lxor_back by (unfold Stun.MAGIC_COOKIE; lia).
  reflexivity.
Qed.

Lemma numeric_code_try_from_value (c : NumericCode) :
  numeric_code_try_from (numeric_code_value c) = Some c.
Proof. destruct c; reflexivity. Qed.

Lemma class_number_split (k n : Z) :
  0 <= k < 8 -> 0 <= n < 256 ->
  Z.land (Z.shiftr (k * 256 + n) 8) 7 = k /\ Z.land (k * 256 + n) 0xFF = n.
Proof.
  intros Hk Hn. change 7 with (Z.ones 3). change 0xFF with (Z.ones 8).
  rewrite !Z.land_ones, Z.shiftr_div_pow2 by lia. change (2 ^ 8) with 256.
  change (2 ^ 3) with 8.
  split.
  - rewrite Z.div_add_l, Z.div_small, Z.add_0_r, Z.mod_small by lia. reflexivity.
  - rewrite Z.add_comm, Z.mod_add, Z.mod_small by lia. reflexivity.
Qed.

Lemma error_code_value_read (c : NumericCode) (k n : Z) (rs r : list byte) :
  0 <= k < 8 -> 0 <= n < 256 -> k * 100 + n = numeric_code_value c ->
  utf8_valid rs = true -> Z.of_nat (4 + List.length rs) < 65536 ->
  attribute (to_be_bytes 2 0x0009 ++ to_be_bytes 2 (Z.of_nat (4 + List.length rs))
             ++ (to_be_bytes 4 (k * 256 + n) ++ rs) ++ r)
  = POk r (AErrorCode (MkErrorCode c rs)).
Proof.
  intros Hk Hn Hc Hu Hl. dispatch. unfold error_code.
  replace (4 + List.length rs)%nat with (List.length (to_be_bytes 4 (k * 256 + n) ++ rs))
    by (rewrite length_app, to_be_bytes_length; reflexivity).
  erewrite StunExtra.pbind_okb
    by (apply tagged_read; rewrite length_app, to_be_bytes_length; exact Hl).
  rewrite length_app, to_be_bytes_length. cbn [Nat.ltb Nat.leb Nat.add].
  rewrite firstn_app, skipn_app, to_be_bytes_length, Nat.sub_diag, firstn_O, skipn_O, app_nil_r,
    firstn_all2, skipn_all2 by (rewrite to_be_bytes_length; lia).
  cbn [app]. rewrite StunExtra.from_to_be_bytes_id by (change (8 * Z.of_nat 4) with 32; lia).
  destruct (class_number_split k n Hk Hn) as [-> ->].
  rewrite Hc, numeric_code_try_from_value, Hu. reflexivity.
Qed.

Lemma some_inj {A} (x y : A) : Some x = Some y -> y = x.
Proof. intros H. injection H. intros E. symmetry. exact E. Qed.

Lemma to_bytes_error_code (c : NumericCode) (rs : list byte) :
  Z.of_nat (4 + List.length rs) < 65536 ->
  to_bytes (AErrorCode (MkErrorCode c rs))
  = Some (to_be_bytes 2 0x0009 ++ to_be_bytes 2 (Z.of_nat (4 + List.length rs))
          ++ pad4 (to_be_bytes 4 (Z.lor (Z.shiftl (numeric_code_value c / 100) 8)
                                        (numeric_code_value c mod 100)) ++ rs)).
Proof. intros H. unfold to_bytes. simpl. rewrite (StunExtra.u16_of_len_ok (S (S (S (S (List.length rs))))) H). reflexivity. Qed.

Lemma encoded_code (c : NumericCode) :
  Z.lor (Z.shiftl (numeric_code_value c / 100) 8) (numeric_code_value c mod 100)
  = numeric_code_value c / 100 * 256 + numeric_code_value c mod 100
  /\ 0 <= numeric_code_value c / 100 < 8 /\ 0 <= numeric_code_value c mod 100 < 256
  /\ numeric_code_value c / 100 * 100 + numeric_code_value c mod 100 = numeric_code_value c.
Proof. destruct c; vm_compute; repeat split; congruence. Qed.

Lemma pad_len_4 (n : nat) : ((4 - (4 + n) mod 4) mod 4 = (4 - n mod 4) mod 4)%nat.
Proof.
  replace (4 + n)%nat with (n + 1 * 4)%nat by lia.
  rewrite (Nat.Div0.mod_add n 1 4). reflexivity.
Qed.

(** The attributes [Tlv::to_bytes] writes and [attribute] reads back:
    no ERROR-CODE (its padding is not consumed), a comprehension-optional
    type other than FINGERPRINT's, values in range, a USERNAME that is
    valid UTF-8, MESSAGE-INTEGRITY of 20 bytes and an IPv4 address. *)
Definition tlv_wf (a : Attribute) : bool :=
  match a with
  | AComprehensionOptional (MkComprehensionOptional t v) =>
      (0x8000 <=? t) && (t <? 65536) && negb (t =? 0x8028)
      && (Z.of_nat (List.length v) <? 65536)
  | AErrorCode _ => false
  | AFingerprint (MkFingerprint v) | APriority (MkPriority v) => (0 <=? v) && (v <? 2 ^ 32)
  | AMessageIntegrity (MkMessageIntegrity b) => Nat.eqb (List.length b) 20
  | AUsername (MkUsername s) => utf8_valid s && (Z.of_nat (List.length s) <? 65536)
  | AXorMappedAddress (MkXorMappedAddress (Stun.V4 a) p) =>
      (0 <=? a) && (a <? 2 ^ 32) && (0 <=? p) && (p <? 65536)
  | AXorMappedAddress (MkXorMappedAddress (Stun.V6 _) _) => false
  end.

(** Round trip of the TLV attributes: the bytes [Tlv::to_bytes] writes
    for a well-formed attribute are read back by [attribute] as the same
    attribute, followed by whatever came after them. *)
Theorem tlv_round_trip (a : Attribute) (b r : list byte) :
  tlv_wf a = true -> to_bytes a = Some b -> attribute (b ++ r) = POk r a.
Proof.
  intros Hw Hb.
  destruct a as [[t v]|[c rs]|[v]|[bb]|[v]|[u]|[[ad|ad] p]]; cbn [tlv_wf] in Hw;
    repeat rewrite Bool.andb_true_iff in Hw; try discriminate Hw.
  - destruct Hw as [[[H1 H2] H3] H4]. apply Z.leb_le in H1. apply Z.ltb_lt in H2, H4.
    apply Bool.negb_true_iff, Z.eqb_neq in H3.
    rewrite to_bytes_co in Hb by exact H4. apply some_inj in Hb. subst b.
    rewrite <- !app_assoc. apply comprehension_optional_read; [lia | exact H3 | exact H4].
  - destruct Hw as [H1 H2]. apply Z.leb_le in H1. apply Z.ltb_lt in H2.
    change (to_bytes (AFingerprint (MkFingerprint v))) with
      (Some (to_be_bytes 2 0x8028 ++ to_be_bytes 2 4 ++ to_be_bytes 4 (Z.lxor v Stun.FINGERPRINT_COOKIE))) in Hb.
    apply some_inj in Hb. subst b. rewrite <- !app_assoc. apply fingerprint_read. lia.
  - apply Nat.eqb_eq in Hw.
    change (to_bytes (AMessageIntegrity (MkMessageIntegrity bb))) with
      (Some (to_be_bytes 2 0x0008 ++ to_be_bytes 2 20 ++ bb)) in Hb.
    apply some_inj in Hb. subst b. rewrite <- !app_assoc. apply message_integrity_read, Hw.
  - destruct Hw as [H1 H2]. apply Z.leb_le in H1. apply Z.ltb_lt in H2.
    change (to_bytes (APriority (MkPriority v))) with
      (Some (to_be_bytes 2 0x0024 ++ to_be_bytes 2 4 ++ to_be_bytes 4 v)) in Hb.
    apply some_inj in Hb. subst b. rewrite <- !app_assoc. apply priority_read. lia.
  - destruct Hw as [H1 H2]. apply Z.ltb_lt in H2.
    change (to_bytes (AUsername (MkUsername u))) with
      (let? length_field := Stun.u16_of_len (List.length u) in
       Some (to_be_bytes 2 0x0006 ++ to_be_bytes 2 length_field ++ pad4 u)) in Hb.
    rewrite (StunExtra.u16_of_len_ok _ H2) in Hb. apply some_inj in Hb. subst b.
    rewrite <- !app_assoc. apply username_read; assumption.
  - destruct Hw as [[[H1 H2] H3] H4]. apply Z.leb_le in H1, H3. apply Z.ltb_lt in H2, H4.
    change (to_bytes (AXorMappedAddress (MkXorMappedAddress (Stun.V4 ad) p))) with
      (Some (to_be_bytes 2 0x0020 ++ to_be_bytes 2 8
             ++ (to_be_bytes 2 0x01 ++ to_be_bytes 2 (Z.lxor p (Z.shiftr Stun.MAGIC_COOKIE 16))
                 ++ to_be_bytes 4 (Z.lxor ad Stun.MAGIC_COOKIE)))) in Hb.
    apply some_inj in Hb. subst b. rewrite <- !app_assoc.
    rewrite (app_assoc (to_be_bytes 2 1)), (app_assoc (to_be_bytes 2 1 ++ _)), <- !(app_assoc (to_be_bytes 2 1)).
    apply xor_mapped_address_read; lia.
Qed.

Definition tlv_example : Attribute :=
  AXorMappedAddress (MkXorMappedAddress (Stun.V4 (Z.lxor 0xC001D00D Stun.MAGIC_COOKIE))
                                        (Z.lxor 0xBEEF 0x2112)).

Lemma tlv_round_trip_witness :
  tlv_wf tlv_example = true
  /\ to_bytes tlv_example = Some [x00; x20; x00; x08; x00; x01; xbe; xef; xc0; x01; xd0; x0d]
  /\ attribute ([x00; x20; x00; x08; x00; x01; xbe; xef; xc0; x01; xd0; x0d] ++ [])
     = POk [] tlv_example.
Proof.
  split; [reflexivity|]. split; [reflexivity|].
  apply tlv_round_trip; reflexivity.
Defined.

(** ERROR-CODE is written with its value padded to a multiple of four
    bytes, but [error_code] reads only the unpadded length: the padding
    bytes are left at the front of the remainder. *)
Theorem error_code_padding_left (c : NumericCode) (rs b r : list byte) :
  utf8_valid rs = true -> Z.of_nat (4 + List.length rs) < 65536 ->
  to_bytes (AErrorCode (MkErrorCode c rs)) = Some b ->
  attribute (b ++ r)
  = POk (repeat x00 ((4 - List.length rs mod 4) mod 4) ++ r) (AErrorCode (MkErrorCode c rs)).
Proof.
  intros Hu Hl Hb. rewrite to_bytes_error_code in Hb by exact Hl.
  apply some_inj in Hb. subst b.
  destruct (encoded_code c) as [E [Hk [Hn Hcn]]]. unfold pad4.
  rewrite E, length_app, to_be_bytes_length, pad_len_4, <- !app_assoc.
  rewrite (app_assoc (to_be_bytes 4 _) rs).
  apply error_code_value_read; assumption.
Qed.

Definition mchlrhw : list byte := [x6d; x63; x68; x6c; x72; x68; x77].

Lemma error_code_padding_left_witness :
  utf8_valid mchlrhw = true /\ Z.of_nat (4 + List.length mchlrhw) < 65536
  /\ to_bytes (AErrorCode (MkErrorCode TryAlternate mchlrhw))
     = Some [x00; x09; x00; x0b; x00; x00; x03; x00; x6d; x63; x68; x6c; x72; x68; x77; x00]
  /\ attribute ([x00; x09; x00; x0b; x00; x00; x03; x00; x6d; x63; x68; x6c; x72; x68; x77; x00] ++ [])
     = POk ([x00] ++ []) (AErrorCode (MkErrorCode TryAlternate mchlrhw)).
Proof.
  split; [reflexivity|]. split; [vm_compute; reflexivity|]. split; [reflexivity|].
  apply (error_code_padding_left TryAlternate mchlrhw); [reflexivity | vm_compute; reflexivity | reflexivity].
Defined.

(** The class and number bits are combined as [class * 100 + number]
    without checking [number < 100]: a number of 100 or more is accepted
    and read as the code of the next classes. *)
Theorem error_code_number_overflow (c : NumericCode) (k n : Z) (rs r : list byte) :
  0 <= k < 8 -> 100 <= n < 256 -> k * 100 + n = numeric_code_value c ->
  utf8_valid rs = true -> Z.of_nat (4 + List.length rs) < 65536 ->
  attribute (to_be_bytes 2 0x0009 ++ to_be_bytes 2 (Z.of_nat (4 + List.length rs))
             ++ (to_be_bytes 4 (k * 256 + n) ++ rs) ++ r)
  = POk r (AErrorCode (MkErrorCode c rs)).
Proof. intros Hk Hn Hc Hu Hl. apply error_code_value_read; [lia | lia | exact Hc | exact Hu | exact Hl]. Qed.

Lemma error_code_number_overflow_witness :
  attribute (to_be_bytes 2 0x0009 ++ to_be_bytes 2 (Z.of_nat (4 + List.length mchlrhw))
             ++ (to_be_bytes 4 (3 * 256 + 120) ++ mchlrhw) ++ [])
  = POk [] (AErrorCode (MkErrorCode UnknownAttribute mchlrhw)).
Proof.
  apply error_code_number_overflow;
    [lia | lia | reflexivity | reflexivity | vm_compute; reflexivity].
Defined.

(** A comprehension-required type without a parser (below 0x8000 and
    none of USERNAME, MESSAGE-INTEGRITY, ERROR-CODE, XOR-MAPPED-ADDRESS,
    PRIORITY) is refused with a parse error, whatever follows it; this
    includes USE-CANDIDATE (0x0025). *)
Theorem attribute_unknown_required (t : Z) (rest : list byte) :
  0 <= t < 0x8000 -> t <> 0x0006 -> t <> 0x0008 -> t <> 0x0009 -> t <> 0x0020 -> t <> 0x0024 ->
  attribute (to_be_bytes 2 t ++ rest) = PErr.
Proof.
  intros Ht H6 H8 H9 H20 H24. unfold attribute. rewrite StunExtra.be_u16_to_be by lia.
  replace (t =? 6) with false by (symmetry; apply Z.eqb_neq; lia).
  replace (t =? 8) with false by (symmetry; apply Z.eqb_neq; lia).
  replace (t =? 9) with false by (symmetry; apply Z.eqb_neq; lia).
  replace (t =? 0x20) with false by (symmetry; apply Z.eqb_neq; lia).
  replace (t =? 0x24) with false by (symmetry; apply Z.eqb_neq; lia).
  replace (t =? 0x8028) with false by (symmetry; apply Z.eqb_neq; lia).
  replace (t >=? 0x8000) with false by (symmetry; rewrite Z.geb_leb; apply Z.leb_gt; lia).
  reflexivity.
Qed.

Lemma attribute_unknown_required_witness :
  attribute (to_be_bytes 2 0x0025 ++ [x00; x00]) = PErr.
Proof. apply attribute_unknown_required; lia. Defined.

(** A MESSAGE-INTEGRITY whose value is not 20 bytes long is refused with
    a parse error. *)
Theorem message_integrity_wrong_length (v r : list byte) :
  List.length v <> 20%nat -> Z.of_nat (List.length v) < 65536 ->
  attribute (to_be_bytes 2 0x0008 ++ to_be_bytes 2 (Z.of_nat (List.length v)) ++ v ++ r) = PErr.
Proof.
  intros Hv Hl. dispatch. unfold message_integrity.
  erewrite StunExtra.pbind_okb by (apply tagged_read; exact Hl).
  apply Nat.eqb_neq in Hv. rewrite Hv. reflexivity.
Qed.

Lemma message_integrity_wrong_length_witness :
  attribute (to_be_bytes 2 0x0008 ++ to_be_bytes 2 (Z.of_nat (List.length [x01; x02; x03; x04]))
             ++ [x01; x02; x03; x04] ++ []) = PErr.
Proof. apply message_integrity_wrong_length; [discriminate | vm_compute; reflexivity]. Defined.

(** PRIORITY and FINGERPRINT convert their value to [[u8; 4]] with
    [unwrap]: a value of any other length panics. *)
Theorem four_byte_value_wrong_length (t : Z) (v r : list byte) :
  t = 0x0024 \/ t = 0x8028 ->
  List.length v <> 4%nat -> Z.of_nat (List.length v) < 65536 ->
  attribute (to_be_bytes 2 t ++ to_be_bytes 2 (Z.of_nat (List.length v)) ++ v ++ r) = PPanic.
Proof.
  intros [-> | ->] Hv Hl; dispatch; [unfold priority | unfold fingerprint];
    erewrite StunExtra.pbind_okb by (apply tagged_read; exact Hl);
    apply Nat.eqb_neq in Hv; rewrite Hv; reflexivity.
Qed.

Lemma four_byte_value_wrong_length_witness :
  attribute (to_be_bytes 2 0x0024 ++ to_be_bytes 2 (Z.of_nat (List.length [x01; x02]))
             ++ [x01; x02] ++ []) = PPanic.
Proof. apply four_byte_value_wrong_length; [left; reflexivity | discriminate | vm_compute; reflexivity]. Defined.

(** A comprehension-optional attribute whose type is FINGERPRINT's
    (0x8028) and whose value has four bytes is written as its raw bytes
    but read back as a FINGERPRINT, its value XORed with the fingerprint
    constant. *)
Theorem comprehension_optional_fingerprint_type (v b r : list byte) :
  List.length v = 4%nat ->
  to_bytes (AComprehensionOptional (MkComprehensionOptional 0x8028 v)) = Some b ->
  attribute (b ++ r)
  = POk r (AFingerprint (MkFingerprint (Z.lxor (from_be_bytes v) Stun.FINGERPRINT_COOKIE))).
Proof.
  intros Hv Hb. rewrite to_bytes_co in Hb by (rewrite Hv; lia).
  apply some_inj in Hb. subst b. rewrite <- !app_assoc.
  dispatch. unfold fingerprint.
  erewrite StunExtra.pbind_okb by (apply tagged_read; rewrite Hv; lia).
  rewrite Hv. reflexivity.
Qed.

Lemma comprehension_optional_fingerprint_type_witness :
  to_bytes (AComprehensionOptional (MkComprehensionOptional 0x8028 [x00; x00; x00; x00]))
  = Some [x80; x28; x00; x04; x00; x00; x00; x00]
  /\ attribute ([x80; x28; x00; x04; x00; x00; x00; x00] ++ [])
     = POk [] (AFingerprint (MkFingerprint (Z.lxor (from_be_bytes [x00; x00; x00; x00])
                                                   Stun.FINGERPRINT_COOKIE))).
Proof.
  split; [reflexivity|].
  apply comprehension_optional_fingerprint_type; reflexivity.
Defined.

(** XOR-MAPPED-ADDRESS reads only family 0x01 (IPv4): any other value of
    the low byte of the family field panics. *)
Theorem xor_mapped_address_other_family (f x : Z) (rest r : list byte) :
  0 <= f < 65536 -> Z.land f 0xFF <> 0x01 ->
  Z.of_nat (4 + List.length rest) < 65536 ->
  attribute (to_be_bytes 2 0x0020 ++ to_be_bytes 2 (Z.of_nat (4 + List.length rest))
             ++ (to_be_bytes 2 f ++ to_be_bytes 2 x ++ rest) ++ r) = PPanic.
Proof.
  intros Hf Hf1 Hl. dispatch. unfold xor_mapped_address.
  replace (4 + List.length rest)%nat
    with (List.length (to_be_bytes 2 f ++ to_be_bytes 2 x ++ rest))
    by (rewrite !length_app, !to_be_bytes_length; reflexivity).
  erewrite StunExtra.pbind_okb
    by (apply tagged_read; rewrite !length_app, !to_be_bytes_length; exact Hl).
  rewrite StunExtra.pbind_okb with (r := to_be_bytes 2 x ++ rest) (a := f)
    by (apply StunExtra.be_u16_to_be; exact Hf).
  rewrite StunExtra.pbind_okb with (r := rest) (a := x mod 65536)
    by apply StunExtra.be_u16_to_be_mod.
  cbn [pret]. apply Z.eqb_neq in Hf1. rewrite Hf1. reflexivity.
Qed.

Lemma xor_mapped_address_other_family_witness :
  attribute (to_be_bytes 2 0x0020 ++ to_be_bytes 2 (Z.of_nat (4 + List.length (repeat x00 16)))
             ++ (to_be_bytes 2 0x02 ++ to_be_bytes 2 0 ++ repeat x00 16) ++ []) = PPanic.
Proof.
  apply xor_mapped_address_other_family; [lia | vm_compute; discriminate | vm_compute; reflexivity].
Defined.


End StunTlvExtra.

From Stdlib Require DecimalFacts DecimalPos DecimalN.

Module IceExtra.
Import Sdp IceCandidate SdpFacts Stdlib.Strings.String.

Lemma uint_chars_length (u : Decimal.uint) :
  List.length (uint_chars u) = N.to_nat (DecimalPos.Unsigned.usize u).
Proof. induction u; simpl; rewrite ?IHu; lia. Qed.

Lemma pos_to_uint_head (p : positive) :
  forall u, Pos.to_uint p <> Decimal.D0 u.
Proof.
  intros u Hd.
  pose proof (DecimalPos.Unsigned.to_of (Pos.to_uint p)) as H.
  rewrite DecimalPos.Unsigned.of_to in H. change (N.to_uint (N.pos p)) with (Pos.to_uint p) in H.
  rewrite Hd in H. unfold Decimal.unorm in H.
  destruct (Decimal.nzhead (Decimal.D0 u)) eqn:Ez; try discriminate.
  - apply (DecimalPos.Unsigned.to_uint_nonzero p). rewrite Hd, H. reflexivity.
  - injection H as ->. exact (DecimalFacts.nzhead_nonzero _ _ Ez).
Qed.

Lemma show_u_length_bound (n : Z) (k : nat) :
  (1 <= k)%nat -> 0 <= n < 10 ^ Z.of_nat k -> (List.length (show_u n) <= k)%nat.
Proof.
  intros Hk Hn. unfold show_u.
  destruct (Z.to_N n) as [|p] eqn:E; [simpl; lia|].
  assert (Hp : Z.pos p = n) by lia.
  change (N.to_uint (N.pos p)) with (Pos.to_uint p).
  pose proof (DecimalPos.Unsigned.of_to p) as Hof.
  pose proof (DecimalPos.Unsigned.to_uint_nonnil p) as Hnn.
  pose proof (pos_to_uint_head p) as Hh.
  destruct (Pos.to_uint p) as [|u|u|u|u|u|u|u|u|u|u];
    [congruence | exfalso; exact (Hh u eq_refl) | ..];
    cbn [Pos.of_uint] in Hof; rewrite DecimalPos.Unsigned.of_uint_acc_rev in Hof;
    cbn [uint_chars List.length]; rewrite uint_chars_length;
    assert (Hle : (10 ^ DecimalPos.Unsigned.usize u <= N.pos p)%N) by (rewrite <- Hof; lia);
    apply N2Z.inj_le in Hle; rewrite N2Z.inj_pow in Hle; cbn [Z.of_N] in Hle;
    assert (Hlt : 10 ^ Z.of_N (DecimalPos.Unsigned.usize u) < 10 ^ Z.of_nat k) by lia;
    apply Z.pow_lt_mono_r_iff in Hlt; lia.
Qed.


Lemma recognize_ok {A} (p : Parser str A) (a r : str) x :
  p (a ++ r) = POk r x -> recognize p (a ++ r) = POk r a.
Proof.
  unfold recognize. intros ->. f_equal.
  rewrite length_app, Nat.add_sub, firstn_app, Nat.sub_diag, firstn_all. simpl firstn. apply app_nil_r.
Qed.

Lemma digit1_nondigit (r : str) : hd_nondigit r = true -> digit1 r = PErr.
Proof.
  destruct r as [|c r]; intros H; unfold digit1; [reflexivity|].
  simpl in H. apply negb_true_iff in H. simpl. rewrite H. reflexivity.
Qed.

Lemma digits_field (lo hi : nat) (k : Z) (r : str) :
  (lo <= 1)%nat -> hd_nondigit r = true ->
  recognize (many_m_n lo (S hi) digit1) (show_u k ++ r) = POk r (show_u k).
Proof.
  intros Hm Hr. eapply recognize_ok. cbn [many_m_n]. rewrite digit1_show' by exact Hr.
  rewrite length_app. pose proof (show_u_nonempty k) as Hne.
  destruct (Nat.eqb_spec (List.length r) (List.length (show_u k) + List.length r)) as [E|_].
  { destruct (show_u k); [congruence | simpl in E; lia]. }
  destruct hi as [|hi]; cbn [many_m_n]; [reflexivity|].
  rewrite digit1_nondigit by exact Hr.
  replace (0 <? lo - 1)%nat with false by (symmetry; apply Nat.ltb_ge; lia). reflexivity.
Qed.

Definition ice_char (c : Z) : bool := existsb (Z.eqb (c mod 256)) ICE_CHARS.

Lemma many_m_n_ice (m n : nat) (s r : str) :
  (m <= List.length s)%nat -> (List.length s <= n)%nat -> forallb ice_char s = true ->
  one_of_ice_char r = PErr -> many_m_n m n one_of_ice_char (s ++ r) = POk r s.
Proof.
  revert m n. induction s as [|c s IH]; intros m n Hm Hn Hs Hr.
  - destruct n; cbn [many_m_n app]; [reflexivity|]. rewrite Hr.
    replace (0 <? m)%nat with false by (symmetry; apply Nat.ltb_ge; simpl in Hm; lia).
    reflexivity.
  - simpl in Hs. apply andb_prop in Hs as [Hc Hs].
    destruct n as [|n]; [simpl in Hn; lia|].
    cbn [many_m_n app].
    change (one_of_ice_char (c :: s ++ r))
      with (if existsb (Z.eqb (c mod 256)) ICE_CHARS then POk (s ++ r) c else PErr).
    unfold ice_char in Hc. rewrite Hc.
    replace (Nat.eqb _ _) with false by (symmetry; apply Nat.eqb_neq; simpl; lia).
    rewrite (IH (m - 1)%nat n) by (simpl in *; lia || assumption). reflexivity.
Qed.

Lemma digit_ice_char (c : Z) : is_digit c = true -> ice_char c = true.
Proof.
  unfold is_digit. intros H. apply andb_prop in H as [H1 H2].
  apply Z.leb_le in H1. apply Z.leb_le in H2.
  assert (Hall : forallb ice_char (map (fun j => 48 + Z.of_nat j) (seq 0 10)) = true)
    by reflexivity.
  rewrite forallb_forall in Hall. apply Hall. apply in_map_iff.
  exists (Z.to_nat (c - 48)). split; [lia | apply in_seq; lia].
Qed.

Lemma digits_ice (s : str) : forallb is_digit s = true -> forallb ice_char s = true.
Proof.
  induction s as [|c s IH]; simpl; [reflexivity|].
  intros H. apply andb_prop in H as [H1 H2]. rewrite digit_ice_char, IH by assumption. reflexivity.
Qed.

Lemma foundation_show (f : Z) (r : str) :
  (List.length (show_u f) <= 32)%nat -> foundation (show_u f ++ 32 :: r) = POk r (show_u f).
Proof.
  intros Hl. unfold foundation, terminated.
  rewrite (pbind_ok _ _ _ (32 :: r) (show_u f)); [reflexivity|].
  pose proof (show_u_nonempty f) as Hne.
  apply many_m_n_ice; [destruct (show_u f); [congruence | simpl; lia] | exact Hl
    | apply digits_ice, uint_chars_digits | reflexivity].
Qed.


Lemma many0_err {A} (p : Parser str A) (i : str) : p i = PErr -> many0 p i = POk i [].
Proof. intros H. unfold many0. cbn [many0_fuel]. rewrite H. reflexivity. Qed.

Lemma alphanumeric1_word (w r : str) (c : Z) :
  w <> [] -> forallb is_alphanum w = true -> is_alphanum c = false ->
  alphanumeric1 (w ++ c :: r) = POk (c :: r) w.
Proof.
  intros Hne Hw Hc. unfold alphanumeric1. apply take_till1_app; [exact Hne| |rewrite Hc; reflexivity].
  clear Hne. induction w as [|x w IH]; simpl in *; [reflexivity|].
  apply andb_prop in Hw as [H1 H2]. rewrite H1, IH by exact H2. reflexivity.
Qed.

Lemma token_word (w r : str) (c : Z) :
  w <> [] -> forallb is_alphanum w = true -> c = 32 \/ c = 13 ->
  token (w ++ c :: r) = POk (c :: r) w.
Proof.
  intros Hne Hw Hc. unfold token. apply recognize_ok with (x := [w]).
  unfold many1. cbv beta.
  rewrite alt2_ok with (r := c :: r) (x := w)
    by (apply alphanumeric1_word; auto; destruct Hc as [-> | ->]; reflexivity).
  rewrite many0_err; [reflexivity|].
  destruct Hc as [-> | ->]; reflexivity.
Qed.

Lemma terminated_space {A} (p : Parser str A) (i r : str) x :
  p i = POk (32 :: r) x -> terminated p (char 32) i = POk r x.
Proof. unfold terminated, pbind. intros ->. reflexivity. Qed.

Lemma transport_udp (r : str) : transport (lit "udp" ++ 32 :: r) = POk r Ice.Udp.
Proof.
  unfold transport.
  rewrite (pbind_ok _ _ _ r (lit "udp")); [reflexivity|].
  apply terminated_space, token_word; [discriminate | reflexivity | now left].
Qed.

Lemma component_id_one (r : str) : component_id (show_u 1 ++ 32 :: r) = POk r 1.
Proof.
  unfold component_id. rewrite (pbind_ok _ _ _ r (show_u 1)); [reflexivity|].
  apply terminated_space, digits_field; reflexivity.
Qed.

Lemma priority_show (k : Z) (r : str) :
  0 <= k < 2 ^ 32 -> priority (show_u k ++ 32 :: r) = POk r k.
Proof.
  intros Hk. unfold priority. rewrite (pbind_ok _ _ _ r (show_u k)).
  - unfold map_res_opt. rewrite from_str_radix_show by exact Hk. reflexivity.
  - apply terminated_space, digits_field; reflexivity.
Qed.

Lemma port_show (k : Z) (r : str) :
  0 <= k < 2 ^ 16 -> hd_nondigit r = true -> port (show_u k ++ r) = POk r k.
Proof.
  intros Hk Hr. unfold port. rewrite (pbind_ok _ _ _ r (show_u k)).
  - unfold map_res_opt. rewrite from_str_radix_show by exact Hk. reflexivity.
  - apply digits_field; [lia | exact Hr].
Qed.

Lemma digit_not_dot (d : Z) : is_digit d = true -> (d =? 46) = false.
Proof.
  unfold is_digit. intros H. apply andb_prop in H as [H _]. apply Z.leb_le in H.
  apply Z.eqb_neq. lia.
Qed.

Lemma split_on_digits (w s : str) :
  forallb is_digit w = true -> split_on 46 (w ++ [46] ++ s) = w :: split_on 46 s.
Proof.
  induction w as [|d w IH]; intros H; [reflexivity|].
  simpl in H. apply andb_prop in H as [H1 H2].
  cbn [app split_on]. rewrite digit_not_dot by exact H1.
  cbn [app] in IH. rewrite IH by exact H2. reflexivity.
Qed.

Lemma split_on_digits_end (w : str) : forallb is_digit w = true -> split_on 46 w = [w].
Proof.
  induction w as [|d w IH]; intros H; [reflexivity|].
  simpl in H. apply andb_prop in H as [H1 H2].
  cbn [split_on]. rewrite digit_not_dot by exact H1. rewrite IH by exact H2. reflexivity.
Qed.

Lemma ipv4_octet_show (o : Z) : 0 <= o < 256 -> ipv4_octet (show_u o) = Some o.
Proof.
  intros Ho.
  assert (Hall : forallb (fun j => match ipv4_octet (show_u (Z.of_nat j)) with
                                   | Some v => v =? Z.of_nat j
                                   | None => false
                                   end) (seq 0 256) = true)
    by (vm_compute; reflexivity).
  rewrite forallb_forall in Hall.
  assert (Hin : In (Z.to_nat o) (seq 0 256)) by (apply in_seq; lia).
  specialize (Hall _ Hin). rewrite Z2Nat.id in Hall by lia.
  destruct (ipv4_octet (show_u o)); [apply Z.eqb_eq in Hall; congruence | discriminate].
Qed.

Lemma ipv4_octets (a : Z) : 0 <= a < 2 ^ 32 ->
  0 <= Z.shiftr a 24 < 256 /\ 0 <= Z.land (Z.shiftr a 16) 255 < 256 /\
  0 <= Z.land (Z.shiftr a 8) 255 < 256 /\ 0 <= Z.land a 255 < 256 /\
  Z.shiftr a 24 * 2 ^ 24 + Z.land (Z.shiftr a 16) 255 * 2 ^ 16
  + Z.land (Z.shiftr a 8) 255 * 2 ^ 8 + Z.land a 255 = a.
Proof.
  intros Ha. change 255 with (Z.ones 8).
  rewrite !Z.land_ones, !Z.shiftr_div_pow2 by lia.
  change (2 ^ 8) with 256 in *. change (2 ^ 16) with 65536 in *.
  change (2 ^ 24) with 16777216 in *. change (2 ^ 32) with 4294967296 in *.
  assert (E16 : a / 65536 = a / 256 / 256) by (rewrite Z.div_div by lia; reflexivity).
  assert (E24 : a / 16777216 = a / 256 / 256 / 256) by (rewrite !Z.div_div by lia; reflexivity).
  rewrite E16, E24.
  pose proof (Z.div_mod a 256 ltac:(lia)). pose proof (Z.mod_pos_bound a 256 ltac:(lia)).
  pose proof (Z.div_mod (a / 256) 256 ltac:(lia)).
  pose proof (Z.mod_pos_bound (a / 256) 256 ltac:(lia)).
  pose proof (Z.div_mod (a / 256 / 256) 256 ltac:(lia)).
  pose proof (Z.mod_pos_bound (a / 256 / 256) 256 ltac:(lia)).
  assert (0 <= a / 256 / 256 / 256).
  { apply Z.div_pos; [apply Z.div_pos; [apply Z.div_pos|]|]; lia. }
  lia.
Qed.

Lemma ipv4_from_to_string (a : Z) :
  0 <= a < 2 ^ 32 -> ipv4_from_str (ipv4_to_string a) = Some a.
Proof.
  intros Ha. destruct (ipv4_octets a Ha) as (H1 & H2 & H3 & H4 & E).
  unfold ipv4_from_str, ipv4_to_string. change (lit ".") with [46].
  rewrite !split_on_digits, split_on_digits_end by apply uint_chars_digits.
  rewrite !ipv4_octet_show by assumption. cbv beta iota. f_equal. exact E.
Qed.

Lemma octet_dot (o : Z) (s : str) :
  terminated digit1 (char 46) (show_u o ++ [46] ++ s) = POk s (show_u o).
Proof.
  unfold terminated. change ([46] ++ s) with (46 :: s).
  rewrite (pbind_ok _ _ _ (46 :: s) (show_u o)) by (apply digit1_show; reflexivity).
  reflexivity.
Qed.

Lemma count_S {A} (p : Parser str A) (n : nat) (i r r' : str) (x : A) (xs : list A) :
  p i = POk r x -> count p n r = POk r' xs -> count p (S n) i = POk r' (x :: xs).
Proof. intros H1 H2. cbn [count]. unfold pbind, pret. rewrite H1, H2. reflexivity. Qed.

Lemma count3_octets (o1 o2 o3 : Z) (s : str) :
  count (terminated digit1 (char 46)) 3
    (show_u o1 ++ [46] ++ show_u o2 ++ [46] ++ show_u o3 ++ [46] ++ s)
  = POk s [show_u o1; show_u o2; show_u o3].
Proof.
  repeat (eapply count_S; [apply octet_dot|]). reflexivity.
Qed.

Lemma ipv4_address_show (a : Z) (r : str) :
  0 <= a < 2 ^ 32 -> ipv4_address (ipv4_to_string a ++ 32 :: r) = POk (32 :: r) (Stun.V4 a).
Proof.
  intros Ha. unfold ipv4_address.
  rewrite (pbind_ok _ _ _ (32 :: r) (ipv4_to_string a)).
  { unfold map_res_opt. rewrite ipv4_from_to_string by exact Ha. reflexivity. }
  eapply recognize_ok. unfold ipv4_to_string. change (lit ".") with [46].
  rewrite <- !app_assoc. unfold pair.
  rewrite (pbind_ok _ _ _ _ _ (count3_octets _ _ _ _)). cbv beta.
  rewrite (pbind_ok (digit1) _ _ (32 :: r) (show_u (Z.land a 255)))
    by (apply digit1_show; reflexivity).
  reflexivity.
Qed.


Lemma connection_show (a p : Z) (r : str) :
  0 <= a < 2 ^ 32 -> 0 <= p < 2 ^ 16 ->
  connection_address_and_port (ipv4_to_string a ++ 32 :: show_u p ++ 32 :: r)
  = POk r {| Ice.ip := Stun.V4 a; Ice.port := p |}.
Proof.
  intros Ha Hp. unfold connection_address_and_port.
  rewrite (pbind_ok _ _ _ (show_u p ++ 32 :: r) (Stun.V4 a))
    by (apply terminated_space, ipv4_address_show; exact Ha).
  rewrite (pbind_ok _ _ _ r p) by (apply terminated_space, port_show; [exact Hp | reflexivity]).
  reflexivity.
Qed.

Lemma candidate_host_tail :
  (ty <- candidate_type ;;
   _ <- opt related_address_and_port ;;
   _ <- many0 extension_attribute ;;
   pret ty) (lit "typ host" ++ crlf) = POk crlf Ice.Host.
Proof. vm_compute. reflexivity. Qed.

Lemma show_u_usize (f : Z) : 0 <= f < 2 ^ 64 -> (List.length (show_u f) <= 32)%nat.
Proof.
  intros Hf. enough (List.length (show_u f) <= 20)%nat by lia.
  apply show_u_length_bound; [lia|].
  assert (2 ^ 64 < 10 ^ Z.of_nat 20) by (vm_compute; reflexivity). lia.
Qed.

(** The value written by [encode_as_sdp] for an IPv4 address. *)
Definition candidate_value (f a p : Z) : str :=
  show_u f ++ 32 :: show_u 1 ++ 32 :: lit "udp" ++ 32 :: show_u 2130706431 ++ 32
  :: ipv4_to_string a ++ 32 :: show_u p ++ lit " typ host".

Lemma candidate_line (f a p : Z) :
  encode_as_sdp f {| Ice.ip := Stun.V4 a; Ice.port := p |}
  = Some (attribute.Value (lit "candidate") (candidate_value f a p)).
Proof.
  unfold encode_as_sdp, candidate_value. cbn [Ice.ip Ice.port].
  change (2 ^ 24 * 126 + 2 ^ 8 * 65535 + 256 - 1) with 2130706431. reflexivity.
Qed.

Lemma candidate_encoded (f a p : Z) :
  (List.length (show_u f) <= 32)%nat -> 0 <= a < 2 ^ 32 -> 0 <= p < 2 ^ 16 ->
  candidate (candidate_value f a p ++ crlf)
  = POk crlf {| Ice.address := {| Ice.ip := Stun.V4 a; Ice.port := p |}; Ice.ty := Ice.Host |}.
Proof.
  intros Hf Ha Hp. unfold candidate_value.
  repeat (rewrite <- app_assoc || rewrite <- app_comm_cons).
  change (lit " typ host" ++ crlf) with (32 :: lit "typ host" ++ crlf).
  unfold candidate.
  rewrite (pbind_ok _ _ _ _ _ (foundation_show _ _ Hf)). cbv beta.
  rewrite (pbind_ok _ _ _ _ _ (component_id_one _)). cbv beta.
  rewrite (pbind_ok _ _ _ _ _ (transport_udp _)). cbv beta.
  rewrite (pbind_ok _ _ _ _ _ (priority_show 2130706431 _ ltac:(lia))). cbv beta.
  rewrite (pbind_ok _ _ _ _ _ (connection_show _ _ _ Ha Hp)). cbv beta.
  pose proof candidate_host_tail as T. unfold pbind, pret in T |- *. cbv beta in T |- *.
  destruct (candidate_type (lit "typ host" ++ crlf)) as [r1 ty| | |]; try discriminate.
  destruct (opt related_address_and_port r1) as [r2 o| | |]; try discriminate.
  destruct (many0 extension_attribute r2) as [r3 es| | |]; try discriminate.
  injection T as -> ->. reflexivity.
Qed.

Lemma tag_candidate (v : str) :
  tag (lit "a=candidate:") (attribute.to_string (attribute.Value (lit "candidate") v))
  = POk (v ++ crlf) (lit "a=candidate:").
Proof. apply tag_ok. reflexivity. Qed.

Lemma candidate_value_try_from (f a p : Z) :
  0 <= f < 2 ^ 64 -> 0 <= a < 2 ^ 32 -> 0 <= p < 2 ^ 16 ->
  RemoteCandidate_try_from (attribute.Value (lit "candidate") (candidate_value f a p))
  = Some {| Ice.address := {| Ice.ip := Stun.V4 a; Ice.port := p |}; Ice.ty := Ice.Host |}.
Proof.
  intros Hf Ha Hp.
  unfold RemoteCandidate_try_from, all_consuming, candidate_attribute. cbv beta.
  rewrite (delimited_ok _ _ _ _ _ _ _ _ _ _ (tag_candidate _)
             (candidate_encoded f a p (show_u_usize f Hf) Ha Hp)
             (eq_refl : tag crlf crlf = POk [] crlf)).
  reflexivity.
Qed.

(** [encode_as_sdp] and [TryFrom<sdp::Attribute> for RemoteCandidate]:
    the attribute written for a local IPv4 candidate with a [usize]
    foundation reads back as a host candidate at the same address and
    port. *)
Theorem encode_as_sdp_round_trip (f a p : Z) (attr : attribute.Attribute) :
  0 <= f < 2 ^ 64 -> 0 <= a < 2 ^ 32 -> 0 <= p < 2 ^ 16 ->
  encode_as_sdp f {| Ice.ip := Stun.V4 a; Ice.port := p |} = Some attr ->
  RemoteCandidate_try_from attr
  = Some {| Ice.address := {| Ice.ip := Stun.V4 a; Ice.port := p |}; Ice.ty := Ice.Host |}.
Proof.
  intros Hf Ha Hp H. rewrite candidate_line in H.
  apply (f_equal (fun o => match o with Some x => x | None => attr end)) in H.
  cbv beta iota in H. subst attr.
  apply candidate_value_try_from; assumption.
Qed.

Lemma encode_as_sdp_round_trip_witness :
  ((0 <= 7 < 2 ^ 64) /\ (0 <= 0xC0A80102 < 2 ^ 32) /\ (0 <= 50000 < 2 ^ 16) /\
   encode_as_sdp 7 {| Ice.ip := Stun.V4 0xC0A80102; Ice.port := 50000 |}
   = Some (attribute.Value (lit "candidate") (lit "7 1 udp 2130706431 192.168.1.2 50000 typ host"))) /\
  RemoteCandidate_try_from
    (attribute.Value (lit "candidate") (lit "7 1 udp 2130706431 192.168.1.2 50000 typ host"))
  = Some {| Ice.address := {| Ice.ip := Stun.V4 0xC0A80102; Ice.port := 50000 |};
            Ice.ty := Ice.Host |}.
Proof.
  assert (H : encode_as_sdp 7 {| Ice.ip := Stun.V4 0xC0A80102; Ice.port := 50000 |}
   = Some (attribute.Value (lit "candidate") (lit "7 1 udp 2130706431 192.168.1.2 50000 typ host")))
    by (vm_compute; reflexivity).
  split; [split; [lia | split; [lia | split; [lia | exact H]]] |].
  apply (encode_as_sdp_round_trip 7 0xC0A80102 50000); [lia | lia | lia | exact H].
Defined.


(** The local candidates [candidate_attributes] can encode: IPv4 addresses. *)
Definition ipv4_candidate (c : Ice.LocalCandidate) : Prop :=
  exists a, c.(Ice.local_address).(Ice.ip) = Stun.V4 a /\ 0 <= a < 2 ^ 32
            /\ 0 <= c.(Ice.local_address).(Ice.port) < 2 ^ 16.

Definition as_host (c : Ice.LocalCandidate) : Ice.RemoteCandidate :=
  {| Ice.address := c.(Ice.local_address); Ice.ty := Ice.Host |}.

Lemma encode_all_try_from (f : Z) (cs : list Ice.LocalCandidate) :
  0 <= f -> f + Z.of_nat (List.length cs) <= 2 ^ 64 -> Forall ipv4_candidate cs ->
  option_map (map RemoteCandidate_try_from) (encode_all f cs)
  = Some (map (fun c => Some (as_host c)) cs).
Proof.
  revert f. induction cs as [|c cs IH]; intros f Hf Hlen Hall; [reflexivity|].
  inversion Hall as [|? ? Hc Hcs]; subst.
  destruct Hc as (a & Hip & Ha & Hp).
  destruct c as [[ip port] ty]. cbn [Ice.local_address Ice.ip Ice.port] in Hip, Hp. subst ip.
  cbn [encode_all Ice.local_address]. rewrite candidate_line.
  cbn [List.length] in Hlen.
  specialize (IH (f + 1) ltac:(lia) ltac:(lia) Hcs).
  destruct (encode_all (f + 1) cs) as [rest|]; [|discriminate].
  cbn [option_map map] in IH |- *. injection IH as IH. rewrite IH.
  rewrite candidate_value_try_from by lia. reflexivity.
Qed.

(** [Agent::candidate_attributes] and [TryFrom<sdp::Attribute> for
    RemoteCandidate]: when every local candidate has an IPv4 address, each
    attribute the agent writes reads back, in order, as a host candidate
    at the address of the local candidate it was written for. *)
Theorem candidate_attributes_round_trip (agent : Ice.Agent) :
  Forall ipv4_candidate agent.(Ice.local_candidates) ->
  Z.of_nat (List.length agent.(Ice.local_candidates)) <= 2 ^ 64 ->
  option_map (map RemoteCandidate_try_from) (candidate_attributes agent)
  = Some (map (fun c => Some (as_host c)) agent.(Ice.local_candidates)).
Proof.
  intros Hall Hlen. unfold candidate_attributes. apply encode_all_try_from; [lia | lia | exact Hall].
Qed.

Definition example_agent : Ice.Agent :=
  {| Ice.username := "u"%string; Ice.password := "p"%string; Ice.local_addrs := [];
     Ice.local_candidates :=
       [{| Ice.local_address := {| Ice.ip := Stun.V4 0xC0A80102; Ice.port := 50000 |};
           Ice.local_ty := Ice.Host |};
        {| Ice.local_address := {| Ice.ip := Stun.V4 0x0A000001; Ice.port := 9 |};
           Ice.local_ty := Ice.Host |}];
     Ice.remote_candidates := [] |}.

Lemma candidate_attributes_round_trip_witness :
  (Forall ipv4_candidate example_agent.(Ice.local_candidates) /\
   Z.of_nat (List.length example_agent.(Ice.local_candidates)) <= 2 ^ 64) /\
  option_map (map RemoteCandidate_try_from) (candidate_attributes example_agent)
  = Some (map (fun c => Some (as_host c)) example_agent.(Ice.local_candidates)).
Proof.
  assert (H : Forall ipv4_candidate example_agent.(Ice.local_candidates)).
  { apply Forall_forall. intros c Hc. cbn in Hc.
    destruct Hc as [<-|[<-|[]]]; [exists 0xC0A80102 | exists 0x0A000001];
    (split; [reflexivity | cbn; lia]). }
  split; [split; [exact H | cbn; lia] |].
  apply candidate_attributes_round_trip; [exact H | cbn; lia].
Defined.

Lemma many_m_n_ice_full (m n : nat) (s rest : str) :
  (m <= List.length s)%nat -> List.length s = n -> forallb ice_char s = true ->
  many_m_n m n one_of_ice_char (s ++ rest) = POk rest s.
Proof.
  revert m n. induction s as [|c s IH]; intros m n Hm Hn Hs.
  - subst n. reflexivity.
  - simpl in Hs. apply andb_prop in Hs as [Hc Hs].
    destruct n as [|n]; [discriminate|].
    cbn [many_m_n app].
    change (one_of_ice_char (c :: s ++ rest))
      with (if existsb (Z.eqb (c mod 256)) ICE_CHARS then POk (s ++ rest) c else PErr).
    unfold ice_char in Hc. rewrite Hc.
    replace (Nat.eqb _ _) with false by (symmetry; apply Nat.eqb_neq; simpl; lia).
    rewrite (IH (m - 1)%nat n) by (simpl in *; lia || assumption). reflexivity.
Qed.

(** [candidate] and [foundation]: a candidate whose foundation has more
    than 32 ICE characters is refused: [many_m_n(1, 32, ..)] stops after
    32 characters and the space is not there. *)
Theorem candidate_foundation_too_long (s r : str) :
  (33 <= List.length s)%nat -> forallb ice_char s = true ->
  candidate (s ++ 32 :: r) = PErr.
Proof.
  intros Hl Hs.
  rewrite <- (firstn_skipn 32 s) in Hs |- *. rewrite forallb_app in Hs.
  apply andb_prop in Hs as [H1 H2].
  assert (Hlen : List.length (firstn 32 s) = 32%nat) by (rewrite length_firstn; lia).
  destruct (skipn 32 s) as [|c t] eqn:E.
  { pose proof (length_skipn 32 s) as L. rewrite E in L. simpl in L. lia. }
  simpl in H2. apply andb_prop in H2 as [Hc _].
  assert (Hc32 : (c =? 32) = false).
  { apply Z.eqb_neq. intros ->. discriminate Hc. }
  unfold candidate, pbind at 1. unfold foundation, terminated.
  rewrite <- app_assoc.
  rewrite (pbind_ok _ _ _ ((c :: t) ++ 32 :: r) (firstn 32 s))
    by (apply many_m_n_ice_full; [lia | exact Hlen | exact H1]).
  cbn [app]. unfold pbind, char. rewrite Hc32. reflexivity.
Qed.

Lemma candidate_foundation_too_long_witness :
  ((33 <= List.length (repeat 97 33))%nat /\ forallb ice_char (repeat 97 33) = true) /\
  candidate (repeat 97 33 ++ 32 :: lit "1 udp 1 10.0.0.1 9 typ host") = PErr.
Proof.
  split; [split; [simpl; lia | reflexivity] |].
  apply candidate_foundation_too_long; [simpl; lia | reflexivity].
Defined.

Lemma take_while_all (p : Z -> bool) (a : str) :
  forallb p a = true -> take_while p a = (a, []).
Proof.
  induction a as [|x a IH]; simpl; intros H; [reflexivity|].
  apply andb_prop in H as [H1 H2]. rewrite H1, IH by exact H2. reflexivity.
Qed.

Lemma digit1_app (w r : str) :
  w <> [] -> forallb is_digit w = true -> hd_nondigit r = true -> digit1 (w ++ r) = POk r w.
Proof.
  intros Hne Hw Hr. unfold digit1. destruct r as [|c r].
  - rewrite app_nil_r, take_while_all by exact Hw. destruct w; [congruence | reflexivity].
  - simpl in Hr. apply negb_true_iff in Hr.
    rewrite take_while_app by assumption. destruct w; [congruence | reflexivity].
Qed.

Lemma digits_field_gen (lo hi : nat) (w r : str) :
  (lo <= 1)%nat -> w <> [] -> forallb is_digit w = true -> hd_nondigit r = true ->
  recognize (many_m_n lo (S hi) digit1) (w ++ r) = POk r w.
Proof.
  intros Hm Hne Hw Hr. eapply recognize_ok. cbn [many_m_n]. rewrite digit1_app by assumption.
  rewrite length_app.
  destruct (Nat.eqb_spec (List.length r) (List.length w + List.length r)) as [E|_].
  { destruct w; [congruence | simpl in E; lia]. }
  destruct hi as [|hi]; cbn [many_m_n]; [reflexivity|].
  rewrite digit1_nondigit by exact Hr.
  replace (0 <? lo - 1)%nat with false by (symmetry; apply Nat.ltb_ge; lia). reflexivity.
Qed.

Lemma of_uint_zeros (k : nat) (ds : str) :
  N.of_uint (uint_of_digits (repeat 48 k ++ ds)) = N.of_uint (uint_of_digits ds).
Proof. induction k as [|k IH]; [reflexivity|]. exact IH. Qed.

(** [component_id]: [many_m_n(1, 5, digit1)] bounds the number of digit
    runs, not of digits, so a component id written with any number of
    leading zeros is read as its value. *)
Theorem component_id_leading_zeros (k : nat) (c : Z) (r : str) :
  0 <= c < 2 ^ 16 -> component_id (repeat 48 k ++ show_u c ++ 32 :: r) = POk r c.
Proof.
  intros Hc. unfold component_id. rewrite app_assoc.
  rewrite (pbind_ok _ _ _ r (repeat 48 k ++ show_u c)).
  - unfold map_res_opt, from_str_radix_u. rewrite of_uint_zeros.
    pose proof (from_str_radix_show 16 c Hc) as H. unfold from_str_radix_u in H.
    destruct (_ <? 2 ^ 16); [|discriminate]. injection H as ->. reflexivity.
  - apply terminated_space, digits_field_gen; [lia | | | reflexivity].
    + destruct k; [exact (show_u_nonempty c) | discriminate].
    + rewrite forallb_app. apply andb_true_intro. split; [|apply uint_chars_digits].
      induction k as [|k IH]; [reflexivity | exact IH].
Qed.

Lemma component_id_leading_zeros_witness :
  (0 <= 1 < 2 ^ 16) /\ component_id (repeat 48 7 ++ show_u 1 ++ 32 :: lit "udp") = POk (lit "udp") 1.
Proof.
  split; [lia|]. apply component_id_leading_zeros. lia.
Defined.

End IceExtra.


Module IceListenerExtra.
Import Stun Ice.

Lemma wmi_header (m m' : Message) (key : list byte) :
  with_message_integrity m key = Some m' ->
  m'.(header) = {| class := m.(header).(class); method := m.(header).(method);
                   length := m.(header).(length) + 24;
                   transaction_id := m.(header).(transaction_id) |}.
Proof.
  unfold with_message_integrity, u16_add.
  destruct (m.(header).(length) + 24 <? 65536); [|discriminate].
  destruct (message_to_bytes _); [|discriminate].
  intros H. injection H as <-. reflexivity.
Qed.

Lemma wfp_header (m m' : Message) :
  with_fingerprint m = Some m' ->
  m'.(header) = {| class := m.(header).(class); method := m.(header).(method);
                   length := m.(header).(length) + 36;
                   transaction_id := m.(header).(transaction_id) |}.
Proof.
  unfold with_fingerprint, u16_add.
  destruct (m.(header).(length) + 36 <? 65536); [|discriminate].
  destruct (message_to_bytes _); [|discriminate].
  intros H. injection H as <-. reflexivity.
Qed.

Lemma wmi_some (m : Message) (key bs : list byte) :
  m.(header).(length) + 24 < 65536 ->
  message_to_bytes (set_length m (m.(header).(length) + 24)) = Some bs ->
  with_message_integrity m key
  = Some (set_attributes (set_length m (m.(header).(length) + 24))
            (m.(attributes) ++ [MessageIntegrity (Crypto.hmac_sha1 key bs)])).
Proof.
  intros Hl Hb. unfold with_message_integrity, u16_add.
  rewrite (proj2 (Z.ltb_lt _ _) Hl). cbv beta iota. rewrite Hb. reflexivity.
Qed.

Lemma wfp_some (m : Message) (bs : list byte) :
  m.(header).(length) + 36 < 65536 ->
  message_to_bytes (set_length m (m.(header).(length) + 36)) = Some bs ->
  with_fingerprint m
  = Some (set_attributes (set_length m (m.(header).(length) + 36))
            (m.(attributes) ++ [Fingerprint (Z.lxor (Crypto.checksum_ieee bs) FINGERPRINT_COOKIE)])).
Proof.
  intros Hl Hb. unfold with_fingerprint, u16_add.
  rewrite (proj2 (Z.ltb_lt _ _) Hl). cbv beta iota. rewrite Hb. reflexivity.
Qed.

Lemma message_to_bytes_header (m : Message) (bs : list byte) :
  message_to_bytes m = Some bs -> exists rest, bs = header_to_bytes m.(header) ++ rest.
Proof.
  unfold message_to_bytes. destruct (attributes_to_bytes _) as [ab|]; [|discriminate].
  intros H. injection H as <-. eexists. reflexivity.
Qed.

Definition reply (key : list byte) (tid : list byte) (u : list byte) (src_addr : SocketAddr)
  : option Message :=
  let? m := with_attributes (base (Header_new Binding Success tid))
              [Username u; XorMappedAddress src_addr.(ip) src_addr.(port)] in
  let? m := with_message_integrity m key in
  with_fingerprint m.

Lemma udp_listener_step_eq (key d : list byte) (src_addr : SocketAddr) :
  udp_listener_step key d src_addr =
  match message d with
  | POk _ message =>
      match first_username message.(attributes) with
      | None => Continue
      | Some u =>
          match reply key message.(header).(transaction_id) u src_addr with
          | Some r => match message_to_bytes r with Some bytes => Send bytes src_addr | None => Panic end
          | None => Panic
          end
      end
  | _ => Panic
  end.
Proof.
  unfold udp_listener_step. destruct (message d) as [r [[c [] l tid] attrs]| | |]; reflexivity.
Qed.

Lemma reply_header (key tid u : list byte) (src_addr : SocketAddr) (m : Message) :
  reply key tid u src_addr = Some m ->
  m.(header) = {| class := Success; method := Binding; length := 60; transaction_id := tid |}.
Proof.
  unfold reply, with_attributes. cbn [base add_lengths header attributes Header_new length].
  cbv beta iota.
  destruct (with_message_integrity _ key) as [m2|] eqn:E2; [|discriminate].
  intros H. rewrite (wfp_header _ _ H), (wmi_header _ _ _ E2). reflexivity.
Qed.

(** [udp_listener]: every datagram the responder sends goes back to the
    address it came from, and starts with a Binding Success header of
    declared length 60 that carries the transaction id of the request. *)
Theorem udp_listener_reply_header (key d : list byte) (src_addr dest : SocketAddr)
    (bytes : list byte) :
  udp_listener_step key d src_addr = Send bytes dest ->
  dest = src_addr /\
  exists r m rest, message d = POk r m /\
    bytes = header_to_bytes {| class := Success; method := Binding; length := 60;
                               transaction_id := m.(header).(transaction_id) |} ++ rest.
Proof.
  rewrite udp_listener_step_eq.
  destruct (message d) as [r m| | |]; try discriminate.
  destruct (first_username m.(attributes)) as [u|]; [|discriminate].
  destruct (reply key _ u src_addr) as [rep|] eqn:E; [|discriminate].
  destruct (message_to_bytes rep) as [bs|] eqn:Eb; [|discriminate].
  intros H. injection H as <- <-. split; [reflexivity|].
  destruct (message_to_bytes_header _ _ Eb) as [rest ->].
  exists r, m, rest. rewrite (reply_header _ _ _ _ _ E). split; reflexivity.
Qed.


Lemma attributes_to_bytes_UX (u : list byte) (a p : Z) :
  Z.of_nat (List.length u) < 65536 ->
  exists b, attributes_to_bytes [Username u; XorMappedAddress (V4 a) p] = Some b.
Proof.
  intros Hu. cbn [attributes_to_bytes attribute_to_bytes].
  unfold username_to_bytes. rewrite (StunExtra.u16_of_len_ok _ Hu). cbv beta iota.
  unfold xor_mapped_address_to_bytes. cbv beta iota. cbn [fst snd].
  rewrite !length_app, !to_be_bytes_length. cbv beta iota.
  eexists. reflexivity.
Qed.

Lemma attributes_to_bytes_MI (code : list byte) :
  List.length code = 20%nat -> exists b, attributes_to_bytes [MessageIntegrity code] = Some b.
Proof.
  intros Hc. cbn [attributes_to_bytes attribute_to_bytes].
  unfold message_integrity_to_bytes. rewrite Hc. eexists. reflexivity.
Qed.

Lemma attributes_to_bytes_FP (v : Z) : exists b, attributes_to_bytes [Fingerprint v] = Some b.
Proof.
  cbn [attributes_to_bytes attribute_to_bytes].
  unfold fingerprint_to_bytes. rewrite to_be_bytes_length. eexists. reflexivity.
Qed.

Lemma reply_ipv4 (key tid u : list byte) (a p : Z) :
  Z.of_nat (List.length u) < 65536 ->
  exists m bs, reply key tid u {| ip := V4 a; port := p |} = Some m /\ message_to_bytes m = Some bs.
Proof.
  intros Hu. destruct (attributes_to_bytes_UX u a p Hu) as [b1 E1].
  unfold reply, with_attributes. cbn [base add_lengths header attributes Header_new length ip port].
  cbv beta iota.
  rewrite (wmi_some _ key (header_to_bytes {| class := Success; method := Binding; length := 24;
                                               transaction_id := tid |} ++ b1)).
  2:{ cbn. lia. }
  2:{ unfold message_to_bytes. cbn [set_length set_attributes attributes header base Header_new].
      rewrite E1. reflexivity. }
  cbv beta iota.
  destruct (attributes_to_bytes_MI (Crypto.hmac_sha1 key
     (header_to_bytes {| class := Success; method := Binding; length := 24; transaction_id := tid |}
      ++ b1))) as [b2 E2]; [apply StunFacts.hmac_sha1_length|].
  pose proof (StunExtra.attributes_to_bytes_app _ _ _ _ E1 E2) as E12.
  rewrite wfp_some with (bs := header_to_bytes {| class := Success; method := Binding; length := 60;
                                                   transaction_id := tid |} ++ b1 ++ b2).
  2:{ cbn. lia. }
  2:{ unfold message_to_bytes. cbn [set_length set_attributes attributes header base Header_new].
      rewrite E12. reflexivity. }
  destruct (attributes_to_bytes_FP
              (Z.lxor (Crypto.checksum_ieee (header_to_bytes {| class := Success; method := Binding;
                 length := 60; transaction_id := tid |} ++ b1 ++ b2)) FINGERPRINT_COOKIE)) as [b3 E3].
  pose proof (StunExtra.attributes_to_bytes_app _ _ _ _ E12 E3) as E123.
  do 2 eexists. split; [reflexivity|].
  unfold message_to_bytes. cbn [set_length set_attributes attributes header base Header_new].
  rewrite E123. reflexivity.
Qed.


Lemma attributes_to_bytes_UX6 (u : list byte) (x p : Z) :
  attributes_to_bytes [Username u; XorMappedAddress (V6 x) p] = None.
Proof. cbn [attributes_to_bytes attribute_to_bytes]. destruct (username_to_bytes u); reflexivity. Qed.

Lemma reply_ipv6 (key tid u : list byte) (x p : Z) :
  reply key tid u {| ip := V6 x; port := p |} = None.
Proof.
  unfold reply, with_attributes. cbn [base add_lengths header attributes Header_new length ip port].
  cbv beta iota. unfold with_message_integrity, message_to_bytes.
  cbn [set_length set_attributes attributes header base Header_new length].
  rewrite attributes_to_bytes_UX6. reflexivity.
Qed.

(** [udp_listener]: a datagram that parses as a STUN message with a
    USERNAME attribute, from an IPv4 address, always gets a reply sent
    back to that address, whatever the class of the message. *)
Theorem udp_listener_replies_ipv4 (key d : list byte) (src_addr : SocketAddr)
    (r : list byte) (m : Message) (u : list byte) (a : Z) :
  message d = POk r m -> first_username m.(attributes) = Some u ->
  Z.of_nat (List.length u) < 65536 -> src_addr.(ip) = V4 a ->
  exists bytes, udp_listener_step key d src_addr = Send bytes src_addr.
Proof.
  intros Hm Hu Hl Ha. rewrite udp_listener_step_eq, Hm, Hu.
  destruct src_addr as [sip sport]. cbn [ip] in Ha. subst sip.
  destruct (reply_ipv4 key m.(header).(transaction_id) u a sport Hl) as (rep & bs & E1 & E2).
  rewrite E1, E2. eexists. reflexivity.
Qed.

(** [udp_listener]: a request with a USERNAME attribute from an IPv6
    address makes the responder panic: the XOR-MAPPED-ADDRESS of the reply
    reaches [unimplemented!()]. *)
Theorem udp_listener_ipv6_panics (key d : list byte) (src_addr : SocketAddr)
    (r : list byte) (m : Message) (u : list byte) (x : Z) :
  message d = POk r m -> first_username m.(attributes) = Some u -> src_addr.(ip) = V6 x ->
  udp_listener_step key d src_addr = Panic.
Proof.
  intros Hm Hu Hx. rewrite udp_listener_step_eq, Hm, Hu.
  destruct src_addr as [sip sport]. cbn [ip] in Hx. subst sip.
  rewrite reply_ipv6. reflexivity.
Qed.

(** A Binding Request with the USERNAME "abcd". *)
Definition example_request : list byte :=
  [x00; x01; x00; x08; x21; x12; xa4; x42] ++ repeat x2a 12 ++
  [x00; x06; x00; x04; x61; x62; x63; x64].

Definition example_request_message : Message :=
  {| header := {| class := Request; method := Binding; length := 8;
                  transaction_id := repeat x2a 12 |};
     attributes := [Username [x61; x62; x63; x64]] |}.

Definition example_src : SocketAddr := {| ip := V4 0x7F000001; port := 5000 |}.

Definition example_reply_bytes : list byte :=
  Eval vm_compute in
    match udp_listener_step [x6b] example_request example_src with
    | Send b _ => b
    | _ => []
    end.

Lemma udp_listener_reply_header_witness :
  udp_listener_step [x6b] example_request example_src = Send example_reply_bytes example_src /\
  (example_src = example_src /\
   exists r m rest, message example_request = POk r m /\
     example_reply_bytes =
       header_to_bytes {| class := Success; method := Binding; length := 60;
                          transaction_id := m.(header).(transaction_id) |} ++ rest).
Proof.
  assert (H : udp_listener_step [x6b] example_request example_src
              = Send example_reply_bytes example_src) by (vm_compute; reflexivity).
  split; [exact H|].
  exact (udp_listener_reply_header [x6b] example_request example_src example_src
           example_reply_bytes H).
Defined.

Lemma udp_listener_replies_ipv4_witness :
  (message example_request = POk [] example_request_message /\
   first_username example_request_message.(attributes) = Some [x61; x62; x63; x64] /\
   Z.of_nat (List.length [x61; x62; x63; x64]) < 65536 /\
   example_src.(ip) = V4 0x7F000001) /\
  exists bytes, udp_listener_step [x6b] example_request example_src = Send bytes example_src.
Proof.
  assert (Hm : message example_request = POk [] example_request_message)
    by (vm_compute; reflexivity).
  split; [split; [exact Hm | split; [reflexivity | split; [simpl; lia | reflexivity]]] |].
  apply (udp_listener_replies_ipv4 [x6b] example_request example_src [] example_request_message
           [x61; x62; x63; x64] 0x7F000001); [exact Hm | reflexivity | simpl; lia | reflexivity].
Defined.

Lemma udp_listener_ipv6_panics_witness :
  (message example_request = POk [] example_request_message /\
   first_username example_request_message.(attributes) = Some [x61; x62; x63; x64] /\
   ({| ip := V6 1; port := 5000 |} : SocketAddr).(ip) = V6 1) /\
  udp_listener_step [x6b] example_request {| ip := V6 1; port := 5000 |} = Panic.
Proof.
  assert (Hm : message example_request = POk [] example_request_message)
    by (vm_compute; reflexivity).
  split; [split; [exact Hm | split; reflexivity] |].
  apply (udp_listener_ipv6_panics [x6b] example_request {| ip := V6 1; port := 5000 |} []
           example_request_message [x61; x62; x63; x64] 1); [exact Hm | reflexivity | reflexivity].
Defined.

End IceListenerExtra.


Module IceCandidateExtra.
Import Sdp IceCandidate SdpFacts IceExtra Stdlib.Strings.String.

(** The characters of an extension attribute's name or value:
    [none_of(" \r\n")]. *)
Definition word_char (c : Z) : bool := negb (existsb (Z.eqb c) [32; 13; 10]).

(** An extension attribute as [candidate] accepts it: a name and a value
    of [word_char]s; the name is not [raddr], which [opt(related_address_and_port)]
    would try first. *)
Definition ext_ok (e : str * str) : bool :=
  let '(k, v) := e in
  negb (Nat.eqb (List.length k) 0) && forallb word_char k
  && negb (Nat.eqb (List.length v) 0) && forallb word_char v
  && negb (str_eqb k (lit "raddr")).

Definition ext_text (e : str * str) : str := let '(k, v) := e in 32 :: k ++ 32 :: v.

Definition related_text (rel : option (Z * Z)) : str :=
  match rel with
  | Some (a, p) => lit " raddr " ++ ipv4_to_string a ++ lit " rport " ++ show_u p
  | None => []
  end.

(** The text of a candidate attribute (RFC 5245, section 15.1) with an
    IPv4 connection address, an optional related address and extension
    attributes. *)
Definition candidate_text (fd : str) (c : Z) (tr : str) (pr a p : Z) (tw : str)
    (rel : option (Z * Z)) (exts : list (str * str)) : str :=
  fd ++ 32 :: show_u c ++ 32 :: tr ++ 32 :: show_u pr ++ 32 :: ipv4_to_string a ++ 32
  :: show_u p ++ 32 :: lit "typ " ++ tw ++ related_text rel ++ flat_map ext_text exts.

Definition sp_or_cr (s : str) : Prop := exists c r, s = c :: r /\ (c = 32 \/ c = 13).

Lemma foundation_word (fd r : str) :
  (1 <= List.length fd <= 32)%nat -> forallb ice_char fd = true ->
  foundation (fd ++ 32 :: r) = POk r fd.
Proof.
  intros Hl Hfd. unfold foundation, terminated.
  rewrite (pbind_ok _ _ _ (32 :: r) fd); [reflexivity|].
  apply many_m_n_ice; [lia | lia | exact Hfd | reflexivity].
Qed.

Lemma component_id_show (c : Z) (r : str) :
  0 <= c < 2 ^ 16 -> component_id (show_u c ++ 32 :: r) = POk r c.
Proof.
  intros Hc. unfold component_id. rewrite (pbind_ok _ _ _ r (show_u c)).
  - unfold map_res_opt. rewrite from_str_radix_show by exact Hc. reflexivity.
  - apply terminated_space, digits_field; reflexivity.
Qed.

Lemma transport_word (tr r : str) (t : Ice.Transport) :
  tr <> [] -> forallb is_alphanum tr = true ->
  Ice.Transport_from_str (to_string tr) = Ice.Ok t ->
  transport (tr ++ 32 :: r) = POk r t.
Proof.
  intros Hne Hal Ht. unfold transport.
  rewrite (pbind_ok _ _ _ r tr).
  - rewrite Ht. reflexivity.
  - apply terminated_space, token_word; [exact Hne | exact Hal | now left].
Qed.

Lemma candidate_type_word (tw : str) (ty : Ice.CandidateType) (r : str) :
  tw <> [] -> forallb is_alphanum tw = true ->
  CandidateType_from_str (to_string tw) = Ice.Ok ty -> sp_or_cr r ->
  candidate_type (lit "typ " ++ tw ++ r) = POk r ty.
Proof.
  intros Hne Hal Hty [c [r' [-> Hc]]]. unfold candidate_type, preceded.
  rewrite (pbind_ok _ _ _ (c :: r') tw).
  - rewrite Hty. reflexivity.
  - rewrite (pbind_ok _ _ _ (tw ++ c :: r') (lit "typ ")) by apply tag_app.
    apply token_word; assumption.
Qed.

Lemma flat_map_single (k : str) : flat_map (fun x => [x]) k = k.
Proof. induction k as [|x k IH]; simpl; [reflexivity | rewrite IH; reflexivity]. Qed.

Lemma none_of_word (k : str) (r : str) :
  k <> [] -> forallb word_char k = true -> sp_or_cr r ->
  many1 (none_of [32; 13; 10]) (k ++ r) = POk r k.
Proof.
  intros Hne Hk [c [r' [-> Hc]]]. destruct k as [|x xs]; [congruence|].
  rewrite <- (flat_map_single (x :: xs)) at 1.
  apply (many1_print (none_of [32; 13; 10]) (fun x => [x]) (fun _ => True)).
  - intros y r0 Hy _. rewrite forallb_forall in Hk. specialize (Hk y Hy).
    unfold word_char in Hk. apply negb_true_iff in Hk.
    change (none_of [32; 13; 10] ([y] ++ r0))
      with (if existsb (Z.eqb y) [32; 13; 10] then PErr else POk r0 y : PRes str Z).
    rewrite Hk. reflexivity.
  - intros; discriminate.
  - trivial.
  - trivial.
  - destruct Hc as [-> | ->]; reflexivity.
Qed.

Lemma extension_attribute_read (e : str * str) (r : str) :
  ext_ok e = true -> sp_or_cr r -> extension_attribute (ext_text e ++ r) = POk r e.
Proof.
  destruct e as [k v]. unfold ext_ok, ext_text. intros H Hr.
  apply andb_prop in H as [H Hraddr]. apply andb_prop in H as [H Hv].
  apply andb_prop in H as [H Hvne]. apply andb_prop in H as [Hkne Hk].
  assert (Hk0 : k <> []) by (intros ->; discriminate).
  assert (Hv0 : v <> []) by (intros ->; discriminate).
  unfold extension_attribute, pair, preceded. rewrite <- app_comm_cons, <- app_assoc.
  rewrite <- app_comm_cons.
  rewrite (pbind_ok _ _ _ (32 :: v ++ r) k).
  - rewrite (pbind_ok _ _ _ r v); [reflexivity|].
    rewrite (pbind_ok (char 32) _ _ (v ++ r) 32) by reflexivity.
    apply none_of_word; assumption.
  - rewrite (pbind_ok (char 32) _ _ (k ++ 32 :: v ++ r) 32) by reflexivity.
    apply none_of_word; [exact Hk0 | exact Hk | exists 32, (v ++ r); split; [reflexivity | now left]].
Qed.

Lemma sp_or_cr_exts (exts : list (str * str)) :
  sp_or_cr (flat_map ext_text exts ++ crlf).
Proof.
  destruct exts as [|[k v] exts]; simpl.
  - exists 13, [10]. split; [reflexivity | now right].
  - eexists; eexists; split; [reflexivity | now left].
Qed.

Lemma many0_extensions (exts : list (str * str)) :
  forallb ext_ok exts = true ->
  many0 extension_attribute (flat_map ext_text exts ++ crlf) = POk crlf exts.
Proof.
  intros Hall. rewrite forallb_forall in Hall.
  apply (many0_print extension_attribute ext_text sp_or_cr).
  - intros x r' Hx Hr'. apply extension_attribute_read; [apply Hall; exact Hx | exact Hr'].
  - intros [k v] _. discriminate.
  - intros [k v] r' _ _. eexists; eexists; split; [reflexivity | now left].
  - exists 13, [10]. split; [reflexivity | now right].
  - reflexivity.
Qed.

(** [strip_prefix] of a word ended by a space only matches the same word. *)
Lemma strip_prefix_word (w k rest : str) (s : str) :
  forallb word_char w = true -> forallb word_char k = true ->
  strip_prefix (w ++ [32]) (k ++ 32 :: rest) = Some s -> k = w.
Proof.
  revert k. induction w as [|y w IH]; intros k Hw Hk H.
  - destruct k as [|x k]; [reflexivity|]. cbn [forallb] in Hk.
    apply andb_prop in Hk as [Hx _]. cbn [app strip_prefix] in H.
    destruct (Z.eqb_spec x 32) as [->|Hne]; [discriminate Hx|].
    rewrite (proj2 (Z.eqb_neq 32 x)) in H by congruence. discriminate.
  - cbn [forallb] in Hw. apply andb_prop in Hw as [Hy Hw].
    destruct k as [|x k].
    + cbn [app strip_prefix] in H.
      destruct (Z.eqb_spec y 32) as [->|Hne]; [discriminate Hy|].
      discriminate H.
    + cbn [forallb] in Hk. cbn [app strip_prefix] in H. apply andb_prop in Hk as [_ Hk].
      destruct (Z.eqb_spec y x); [|discriminate]. subst. f_equal. eapply IH; eassumption.
Qed.

Lemma str_eqb_refl (s : str) : str_eqb s s = true.
Proof. induction s as [|x s IH]; simpl; [reflexivity | rewrite Z.eqb_refl, IH; reflexivity]. Qed.

Lemma related_none (exts : list (str * str)) :
  forallb ext_ok exts = true ->
  related_address_and_port (flat_map ext_text exts ++ crlf) = PErr.
Proof.
  intros Hall. destruct exts as [|[k v] exts]; [reflexivity|].
  simpl in Hall. apply andb_prop in Hall as [He _]. unfold ext_ok in He.
  apply andb_prop in He as [H Hraddr]. apply andb_prop in H as [H _].
  apply andb_prop in H as [H _]. apply andb_prop in H as [_ Hk].
  unfold related_address_and_port, preceded, pbind, tag. simpl flat_map.
  repeat (rewrite <- app_assoc || rewrite <- app_comm_cons).
  change (lit " raddr ") with (32 :: lit "raddr" ++ [32]).
  cbn [strip_prefix Z.eqb Pos.eqb].
  lazymatch goal with
  | |- context [strip_prefix ?t (k ++ 32 :: ?rest)] =>
      destruct (strip_prefix t (k ++ 32 :: rest)) as [s|] eqn:E; [|reflexivity];
      apply (strip_prefix_word (lit "raddr") k rest s) in E; [| reflexivity | exact Hk]
  end.
  subst k.
  rewrite str_eqb_refl in Hraddr. discriminate.
Qed.

Lemma related_some (a p : Z) (r : str) :
  0 <= a < 2 ^ 32 -> 0 <= p < 2 ^ 16 -> sp_or_cr r ->
  opt related_address_and_port (related_text (Some (a, p)) ++ r)
  = POk r (Some {| Ice.ip := Stun.V4 a; Ice.port := p |}).
Proof.
  intros Ha Hp Hr. unfold opt, related_text.
  replace (related_address_and_port _) with
      (POk r {| Ice.ip := Stun.V4 a; Ice.port := p |} : PRes str Ice.SocketAddr);
    [reflexivity|]. symmetry.
  unfold related_address_and_port, preceded. rewrite <- !app_assoc.
  rewrite (pbind_ok _ _ _ (lit " rport " ++ show_u p ++ r) (Stun.V4 a)).
  - rewrite (pbind_ok _ _ _ r p); [reflexivity|].
    rewrite (pbind_ok _ _ _ (show_u p ++ r) (lit " rport ")) by apply tag_app.
    apply port_show; [exact Hp|]. destruct Hr as [c [r' [-> [-> | ->]]]]; reflexivity.
  - rewrite (pbind_ok _ _ _ (ipv4_to_string a ++ lit " rport " ++ show_u p ++ r) (lit " raddr "))
      by apply tag_app.
    change (lit " rport ") with (32 :: lit "rport "). apply ipv4_address_show; exact Ha.
Qed.

Lemma candidate_tail (tw : str) (ty : Ice.CandidateType) (rel : option (Z * Z))
    (exts : list (str * str)) :
  tw <> [] -> forallb is_alphanum tw = true ->
  CandidateType_from_str (to_string tw) = Ice.Ok ty ->
  (forall a' p', rel = Some (a', p') -> 0 <= a' < 2 ^ 32 /\ 0 <= p' < 2 ^ 16) ->
  forallb ext_ok exts = true ->
  (ty <- candidate_type ;;
   _ <- opt related_address_and_port ;;
   _ <- many0 extension_attribute ;;
   pret ty) (lit "typ " ++ tw ++ related_text rel ++ flat_map ext_text exts ++ crlf)
  = POk crlf ty.
Proof.
  intros Hne Hal Hty Hrel Hexts.
  assert (Hsp : sp_or_cr (related_text rel ++ flat_map ext_text exts ++ crlf)).
  { destruct rel as [[a' p']|]; [|apply sp_or_cr_exts].
    eexists; eexists; split; [reflexivity | now left]. }
  rewrite (pbind_ok _ _ _ _ _ (candidate_type_word _ _ _ Hne Hal Hty Hsp)).
  rewrite (pbind_ok _ _ _ (flat_map ext_text exts ++ crlf)
             (match rel with Some (a', p') => Some {| Ice.ip := Stun.V4 a'; Ice.port := p' |}
                        | None => None end)).
  - rewrite (pbind_ok _ _ _ _ _ (many0_extensions exts Hexts)). reflexivity.
  - destruct rel as [[a' p']|].
    + destruct (Hrel a' p' eq_refl) as [Ha Hp]. apply related_some; [exact Ha | exact Hp | apply sp_or_cr_exts].
    + unfold opt. cbn [related_text app]. rewrite related_none by exact Hexts. reflexivity.
Qed.

Lemma candidate_text_read (fd : str) (c : Z) (tr : str) (t : Ice.Transport) (pr a p : Z)
    (tw : str) (ty : Ice.CandidateType) (rel : option (Z * Z)) (exts : list (str * str)) :
  (1 <= List.length fd <= 32)%nat -> forallb ice_char fd = true ->
  0 <= c < 2 ^ 16 ->
  tr <> [] -> forallb is_alphanum tr = true -> Ice.Transport_from_str (to_string tr) = Ice.Ok t ->
  0 <= pr < 2 ^ 32 -> 0 <= a < 2 ^ 32 -> 0 <= p < 2 ^ 16 ->
  tw <> [] -> forallb is_alphanum tw = true -> CandidateType_from_str (to_string tw) = Ice.Ok ty ->
  (forall a' p', rel = Some (a', p') -> 0 <= a' < 2 ^ 32 /\ 0 <= p' < 2 ^ 16) ->
  forallb ext_ok exts = true ->
  candidate (candidate_text fd c tr pr a p tw rel exts ++ crlf)
  = POk crlf {| Ice.address := {| Ice.ip := Stun.V4 a; Ice.port := p |}; Ice.ty := ty |}.
Proof.
  intros Hfd Hfdc Hc Htr Htra Ht Hpr Ha Hp Htw Htwa Hty Hrel Hexts.
  unfold candidate_text.
  repeat (rewrite <- app_assoc || rewrite <- app_comm_cons).
  unfold candidate.
  rewrite (pbind_ok _ _ _ _ _ (foundation_word _ _ Hfd Hfdc)). cbv beta.
  rewrite (pbind_ok _ _ _ _ _ (component_id_show _ _ Hc)). cbv beta.
  rewrite (pbind_ok _ _ _ _ _ (transport_word _ _ _ Htr Htra Ht)). cbv beta.
  rewrite (pbind_ok _ _ _ _ _ (priority_show _ _ Hpr)). cbv beta.
  rewrite (pbind_ok _ _ _ _ _ (connection_show _ _ _ Ha Hp)). cbv beta.
  pose proof (candidate_tail tw ty rel exts Htw Htwa Hty Hrel Hexts) as T.
  unfold pbind, pret in T |- *. cbv beta in T |- *.
  destruct (candidate_type _) as [r1 ty'| | |]; try discriminate.
  destruct (opt related_address_and_port r1) as [r2 o| | |]; try discriminate.
  destruct (many0 extension_attribute r2) as [r3 es| | |]; try discriminate.
  injection T as -> ->. reflexivity.
Qed.

(** [candidate] and [TryFrom<sdp::Attribute> for RemoteCandidate]: a
    candidate attribute with an IPv4 connection address reads as that
    address and its type; the foundation, component id, transport,
    priority, related address and extension attributes are checked and
    then dropped. *)
Theorem candidate_keeps_address_and_type (fd : str) (c : Z) (tr : str) (t : Ice.Transport)
    (pr a p : Z) (tw : str) (ty : Ice.CandidateType) (rel : option (Z * Z))
    (exts : list (str * str)) :
  (1 <= List.length fd <= 32)%nat -> forallb ice_char fd = true ->
  0 <= c < 2 ^ 16 ->
  tr <> [] -> forallb is_alphanum tr = true -> Ice.Transport_from_str (to_string tr) = Ice.Ok t ->
  0 <= pr < 2 ^ 32 -> 0 <= a < 2 ^ 32 -> 0 <= p < 2 ^ 16 ->
  tw <> [] -> forallb is_alphanum tw = true -> CandidateType_from_str (to_string tw) = Ice.Ok ty ->
  (forall a' p', rel = Some (a', p') -> 0 <= a' < 2 ^ 32 /\ 0 <= p' < 2 ^ 16) ->
  forallb ext_ok exts = true ->
  RemoteCandidate_try_from
    (attribute.Value (lit "candidate") (candidate_text fd c tr pr a p tw rel exts))
  = Some {| Ice.address := {| Ice.ip := Stun.V4 a; Ice.port := p |}; Ice.ty := ty |}.
Proof.
  intros Hfd Hfdc Hc Htr Htra Ht Hpr Ha Hp Htw Htwa Hty Hrel Hexts.
  unfold RemoteCandidate_try_from, all_consuming, candidate_attribute. cbv beta.
  rewrite (delimited_ok _ _ _ _ _ _ _ _ _ _ (tag_candidate _)
             (candidate_text_read fd c tr t pr a p tw ty rel exts
                Hfd Hfdc Hc Htr Htra Ht Hpr Ha Hp Htw Htwa Hty Hrel Hexts)
             (eq_refl : tag crlf crlf = POk [] crlf)).
  reflexivity.
Qed.

Lemma candidate_keeps_address_and_type_witness :
  RemoteCandidate_try_from
    (attribute.Value (lit "candidate")
       (candidate_text (lit "a1b2") 2 (lit "TCP") 1694498815 0x0A000001 9 (lit "srflx")
          (Some (0xC0A80001, 40000)) [(lit "generation", lit "0"); (lit "network-id", lit "1")]))
  = Some {| Ice.address := {| Ice.ip := Stun.V4 0x0A000001; Ice.port := 9 |};
            Ice.ty := Ice.ServerReflexive |}.
Proof.
  apply (candidate_keeps_address_and_type (lit "a1b2") 2 (lit "TCP") Ice.Tcp 1694498815
           0x0A000001 9 (lit "srflx") Ice.ServerReflexive (Some (0xC0A80001, 40000))
           [(lit "generation", lit "0"); (lit "network-id", lit "1")]).
  all: first [ (intros a' p' Hs; injection Hs as <- <-; lia)
             | (simpl; lia) | (intro Hx; discriminate Hx) | (vm_compute; reflexivity) ].
Defined.

End IceCandidateExtra.
